(** * Server log analysis: the line parser, the dataset operations of the
    dashboard and the synthetic log generator.

    Shallow embedding of [server_log_dashboard.py] and
    [test_file_generator.py].

    Modelling conventions.
    - A Python [str] is a [string]; a character is a code point below 256,
      classified as Python's [re] and [str] methods classify it.
    - Python integers are [Z]; [int(text)] has no digit limit here.
    - A function that can raise returns a [result].
    - Random draws, [datetime.now()] and the third-party generators
      ([Faker], [user_agents]) are explicit inputs.
    - A data frame is the list of its rows; a file is the list of its lines,
      which [readlines] takes from its text. *)

From Stdlib Require Import Ascii String List ZArith QArith Bool Lia Arith.
From Stdlib Require Import DecimalString DecimalN DecimalZ Sorted Permutation.
Import ListNotations.

Set Implicit Arguments.

Local Close Scope Q_scope.
Local Open Scope string_scope.
Local Open Scope list_scope.

(** ** Characters *)

Module Char.

Definition code (c : ascii) : N := N_of_ascii c.

Definition between (lo hi : N) (c : ascii) : bool :=
  (N.leb lo (code c) && N.leb (code c) hi)%bool.

(** [str.isspace] / [\s] on code points below 256. *)
Definition is_space (c : ascii) : bool :=
  (between 9 13 c || between 28 32 c
   || N.eqb (code c) 133 || N.eqb (code c) 160)%bool.

(** [\d]: the decimal digits. *)
Definition is_digit (c : ascii) : bool := between 48 57 c.

(** [\w]: alphanumeric code points and the underscore. *)
Definition is_word (c : ascii) : bool :=
  (between 48 57 c || between 65 90 c || between 97 122 c
   || N.eqb (code c) 95
   || N.eqb (code c) 170 || between 178 179 c || N.eqb (code c) 181
   || between 185 186 c || between 188 190 c
   || between 192 214 c || between 216 246 c || between 248 255 c)%bool.

(** [str.lower] on the ASCII letters. *)
Definition lower (c : ascii) : ascii :=
  if between 65 90 c then ascii_of_N (code c + 32) else c.

Definition dquote : ascii := "034"%char.

End Char.

Fixpoint mem_char (c : ascii) (cs : string) : bool :=
  match cs with
  | EmptyString => false
  | String a cs' => (Ascii.eqb c a || mem_char c cs')%bool
  end.

(** ** A backtracking matcher for the regular expressions of the program *)

(** Character classes of the patterns. *)
Inductive cclass : Type :=
| Space                       (* \s *)
| NonSpace                    (* \S *)
| Digit                       (* \d *)
| Word                        (* \w *)
| OneOf (cs : string)         (* [abc] *)
| NoneOf (cs : string)        (* [^abc] *)
| Range (lo hi : ascii)       (* [a-z] *)
| AnyCase (c : ascii)         (* a letter under re.IGNORECASE *)
| Union (k1 k2 : cclass).

Fixpoint in_class (k : cclass) (c : ascii) : bool :=
  match k with
  | Space => Char.is_space c
  | NonSpace => negb (Char.is_space c)
  | Digit => Char.is_digit c
  | Word => Char.is_word c
  | OneOf cs => mem_char c cs
  | NoneOf cs => negb (mem_char c cs)
  | Range lo hi => Char.between (Char.code lo) (Char.code hi) c
  | AnyCase a => Ascii.eqb (Char.lower c) (Char.lower a)
  | Union k1 k2 => (in_class k1 c || in_class k2 c)%bool
  end.

(** The fragment of [re] syntax the program uses.  Repetition is greedy and
    always of a single character class, as in \S+ or \d{3}. *)
Inductive regex : Type :=
| Eps
| Lit (c : ascii)
| Cls (k : cclass)
| Rep (k : cclass) (lo : nat) (hi : option nat)
| Cat (r1 r2 : regex)
| Alt (r1 r2 : regex)
| Grp (r : regex).

(** One way of matching a pattern at the start of a text. *)
Record hit : Type := Hit {
  matched : string;          (* the text consumed *)
  rest : string;             (* what follows it *)
  groups : list string       (* the capture groups, in pattern order *)
}.

Definition room (hi : option nat) : bool :=
  match hi with
  | Some O => false
  | _ => true
  end.

Definition less (hi : option nat) : option nat := option_map pred hi.

(** All runs of class [k] at the start of [s], at most [hi] long, the longest
    first: the order in which a greedy repetition gives characters back. *)
Fixpoint rep_runs (k : cclass) (hi : option nat) (s : string)
  : list (string * string) :=
  match s with
  | EmptyString => [(EmptyString, EmptyString)]
  | String c s' =>
      if (in_class k c && room hi)%bool
      then map (fun mr => (String c (fst mr), snd mr)) (rep_runs k (less hi) s')
             ++ [(EmptyString, s)]
      else [(EmptyString, s)]
  end.

Definition join (h1 h2 : hit) : hit :=
  Hit (matched h1 ++ matched h2) (rest h2) (groups h1 ++ groups h2).

(** Every way of matching [r] at the start of [s], in the order a
    backtracking matcher tries them.  The patterns of the program never put
    a group under an alternative, so groups are kept by position. *)
Fixpoint matches (r : regex) (s : string) : list hit :=
  match r with
  | Eps => [Hit EmptyString s []]
  | Lit c =>
      match s with
      | String a s' => if Ascii.eqb a c then [Hit (String a EmptyString) s' []] else []
      | EmptyString => []
      end
  | Cls k =>
      match s with
      | String a s' => if in_class k a then [Hit (String a EmptyString) s' []] else []
      | EmptyString => []
      end
  | Rep k lo hi =>
      map (fun mr => Hit (fst mr) (snd mr) [])
          (filter (fun mr => Nat.leb lo (String.length (fst mr))) (rep_runs k hi s))
  | Cat r1 r2 =>
      flat_map (fun h1 => map (join h1) (matches r2 (rest h1))) (matches r1 s)
  | Alt r1 r2 => matches r1 s ++ matches r2 s
  | Grp r =>
      map (fun h => Hit (matched h) (rest h) (matched h :: groups h)) (matches r s)
  end.

(** [re.match(pattern, s)]: the first way of matching, anchored at the start
    of [s] only. *)
Definition re_match (pattern : regex) (s : string) : option hit :=
  hd_error (matches pattern s).

Declare Scope regex_scope.
Delimit Scope regex_scope with re.
Notation "r1 >> r2" := (Cat r1 r2) (at level 61, right associativity) : regex_scope.

Definition plus (k : cclass) : regex := Rep k 1 None.
Definition star (k : cclass) : regex := Rep k 0 None.
Definition times (n : nat) (k : cclass) : regex := Rep k n (Some n).
Definition opt (r : regex) : regex := Alt r Eps.

Definition sp : regex := Lit " "%char.
Definition quo : regex := Lit Char.dquote.

(** The pattern of [parse_log_line], one line of the definition per token
    of the source pattern; QUOTE stands for the double-quote character:
      (\S+) (\S+) (\S+) \[([\w:/]+\s[+\-]\d{4})\]
      QUOTE(\S+) (\S+) (\S+)QUOTE (\d{3}) (\d+)
      QUOTE(NQ)QUOTE QUOTE(NQ)QUOTE (\d+)
    where NQ is the starred class of every character but QUOTE. *)
Definition pattern : regex :=
  (Grp (plus NonSpace) >> sp >>
   Grp (plus NonSpace) >> sp >>
   Grp (plus NonSpace) >> sp >>
   Lit "["%char >>
   Grp (plus (Union Word (OneOf ":/")) >> Cls Space >> Cls (OneOf "+-") >> times 4 Digit) >>
   Lit "]"%char >> sp >>
   quo >> Grp (plus NonSpace) >> sp >> Grp (plus NonSpace) >> sp >> Grp (plus NonSpace) >> quo >> sp >>
   Grp (times 3 Digit) >> sp >>
   Grp (plus Digit) >> sp >>
   quo >> Grp (star (NoneOf (String Char.dquote EmptyString))) >> quo >> sp >>
   quo >> Grp (star (NoneOf (String Char.dquote EmptyString))) >> quo >> sp >>
   Grp (plus Digit))%re.

(** A text between double quotes. *)
Definition q (s : string) : string := String Char.dquote (s ++ String Char.dquote EmptyString).

(** A line of an access log as the dashboard expects it. *)
Definition sample_line : string :=
  "192.168.1.1 - - [10/Oct/2023:13:55:36 +0000] " ++ q "GET /api/users HTTP/1.1"
  ++ " 200 1024 " ++ q "-" ++ " " ++ q "Mozilla/5.0 (Windows NT 10.0; Win64; x64)" ++ " 45".

(** ** Exceptions *)

Inductive exn : Type := ValueError | OverflowError.

Inductive result (A : Type) : Type :=
| Ok (a : A)
| Raise (e : exn).

Arguments Ok {A} a.
Arguments Raise {A} e.

Definition bind {A B : Type} (c : result A) (k : A -> result B) : result B :=
  match c with
  | Ok a => k a
  | Raise e => Raise e
  end.

Notation "x <- c ;; k" := (bind c (fun x => k))
  (at level 62, c at next level, right associativity).

Definition guard (b : bool) : result unit := if b then Ok tt else Raise ValueError.

(** ** Text helpers: [str.strip], slices, [int(text)], [str(int)] *)

Fixpoint lstrip (s : string) : string :=
  match s with
  | String c s' => if Char.is_space c then lstrip s' else s
  | EmptyString => EmptyString
  end.

Fixpoint rstrip (s : string) : string :=
  match s with
  | String c s' =>
      match rstrip s' with
      | EmptyString => if Char.is_space c then EmptyString else String c EmptyString
      | t => String c t
      end
  | EmptyString => EmptyString
  end.

Definition strip (s : string) : string := rstrip (lstrip s).

(** The slice [s[i:j]]. *)
Definition slice (i j : nat) (s : string) : string := substring i (j - i) s.

(** The slice [s[i:]]. *)
Definition slice_from (i : nat) (s : string) : string :=
  substring i (String.length s - i) s.

Fixpoint lower (s : string) : string :=
  match s with
  | String c s' => String (Char.lower c) (lower s')
  | EmptyString => EmptyString
  end.

Fixpoint repeat_char (c : ascii) (n : nat) : string :=
  match n with
  | O => EmptyString
  | S n' => String c (repeat_char c n')
  end.

(** [int(text)] on surrounding white space, an optional sign and decimal
    digits; anything else is a ValueError.  (Digit separators are not
    modelled: the callers pass runs of decimal digits.) *)
Definition py_int (text : string) : result Z :=
  let t := strip text in
  let signed :=
    match t with
    | String "-"%char body => (true, body)
    | String "+"%char body => (false, body)
    | _ => (false, t)
    end in
  match NilZero.uint_of_string (snd signed) with
  | Some d =>
      let n := Z.of_N (N.of_uint d) in
      Ok (if fst signed then (- n)%Z else n)
  | None => Raise ValueError
  end.

(** [str(n)], as an f-string renders an integer. *)
Definition py_str (n : Z) : string := NilZero.string_of_int (Z.to_int n).

Definition digit_char (n : Z) : ascii := ascii_of_N (48 + Z.to_N n).

(** [%02d] and [%04d]. *)
Definition pad2 (n : Z) : string :=
  String (digit_char (n / 10)) (String (digit_char (n mod 10)) EmptyString).

Definition pad4 (n : Z) : string :=
  String (digit_char (n / 1000))
    (String (digit_char (n / 100 mod 10))
       (String (digit_char (n / 10 mod 10))
          (String (digit_char (n mod 10)) EmptyString))).

(** ** [datetime] *)

Local Open Scope Z_scope.

(** A [datetime] object: the calendar fields and, for an aware value, the
    UTC offset of its [timezone] in microseconds. *)
Record datetime : Type := Datetime {
  year : Z;
  month : Z;
  day : Z;
  hour : Z;
  minute : Z;
  second : Z;
  microsecond : Z;
  tzinfo : option Z
}.

Definition is_leap (y : Z) : bool :=
  ((y mod 4 =? 0) && (negb (y mod 100 =? 0) || (y mod 400 =? 0)))%bool.

Definition days_in_month (y m : Z) : Z :=
  if m =? 2 then (if is_leap y then 29 else 28)
  else if ((m =? 4) || (m =? 6) || (m =? 9) || (m =? 11))%bool then 30
  else 31.

(** The checks of the [date] constructor. *)
Definition valid_date (y m d : Z) : bool :=
  ((1 <=? y) && (y <=? 9999) && (1 <=? m) && (m <=? 12)
   && (1 <=? d) && (d <=? days_in_month y m))%bool.

(** The checks of the [time] part of the [datetime] constructor. *)
Definition valid_time (h mi s us : Z) : bool :=
  ((0 <=? h) && (h <=? 23) && (0 <=? mi) && (mi <=? 59)
   && (0 <=? s) && (s <=? 59) && (0 <=? us) && (us <=? 999999))%bool.

Definition valid_datetime (t : datetime) : bool :=
  (valid_date (year t) (month t) (day t)
   && valid_time (hour t) (minute t) (second t) (microsecond t))%bool.

Definition day_us : Z := 86400 * 1000000.

(** The check of the [timezone] constructor: strictly within a day. *)
Definition valid_offset (us : Z) : bool := ((- day_us <? us) && (us <? day_us))%bool.

(** *** [datetime.strptime(text, '%d/%b/%Y:%H:%M:%S %z')] *)

Definition digit : regex := Cls Digit.
Definition range (lo hi : ascii) : regex := Cls (Range lo hi).

Definition never : regex := Cls (OneOf EmptyString).

Fixpoint alts (rs : list regex) : regex :=
  match rs with
  | [] => never
  | [r] => r
  | r :: rs' => Alt r (alts rs')
  end.

(** A literal word of a pattern compiled with re.IGNORECASE. *)
Fixpoint word_ci (w : string) : regex :=
  match w with
  | EmptyString => Eps
  | String c EmptyString => Cls (AnyCase c)
  | String c w' => Cat (Cls (AnyCase c)) (word_ci w')
  end.

(** The abbreviated month names of the C locale, lower-cased, with the
    empty entry of index 0. *)
Definition a_month : list string :=
  [""; "jan"; "feb"; "mar"; "apr"; "may"; "jun";
   "jul"; "aug"; "sep"; "oct"; "nov"; "dec"]%string.

Fixpoint index_from (i : Z) (x : string) (l : list string) : result Z :=
  match l with
  | [] => Raise ValueError
  | y :: l' => if String.eqb x y then Ok i else index_from (i + 1) x l'
  end.

(** The regular expressions of the directives, as [_strptime.TimeRE] has
    them. *)
Definition re_d : regex :=
  alts [ Lit "3" >> range "0" "1" ; range "1" "2" >> digit ;
         Lit "0" >> range "1" "9" ; range "1" "9" ; Lit " " >> range "1" "9" ]%re.

Definition re_b : regex := alts (map word_ci (tl a_month)).

Definition re_Y : regex := (digit >> digit >> digit >> digit)%re.

Definition re_H : regex :=
  alts [ Lit "2" >> range "0" "3" ; range "0" "1" >> digit ; digit ]%re.

Definition re_M : regex := alts [ range "0" "5" >> digit ; digit ]%re.

Definition re_S : regex :=
  alts [ Lit "6" >> range "0" "1" ; range "0" "5" >> digit ; digit ]%re.

Definition re_z : regex :=
  Alt (Cls (OneOf "+-") >> digit >> digit >> opt (Lit ":") >> range "0" "5" >> digit >>
         opt (opt (Lit ":") >> range "0" "5" >> digit >>
                opt (Lit "." >> Rep Digit 1 (Some 6%nat))))%re
      (Lit "Z").

(** The pattern [_strptime] compiles for the format
    [%d/%b/%Y:%H:%M:%S %z]; the blank of the format becomes [\s+]. *)
Definition format_regex : regex :=
  (Grp re_d >> Lit "/" >> Grp re_b >> Lit "/" >> Grp re_Y >> Lit ":" >>
   Grp re_H >> Lit ":" >> Grp re_M >> Lit ":" >> Grp re_S >> plus Space >> Grp re_z)%re.

Definition char_at (i : nat) (s : string) : option ascii := String.get i s.

Definition is_char (c : ascii) (o : option ascii) : bool :=
  match o with
  | Some a => Ascii.eqb a c
  | None => false
  end.

(** The conversion of the [%z] text: the offset in seconds and its
    fraction in microseconds. *)
Definition gmtoff_of (z0 : string) : result (Z * Z) :=
  if String.eqb z0 "Z" then Ok (0, 0)
  else
    z <- (if is_char ":" (char_at 3 z0) then
            let z1 := (slice 0 3 z0 ++ slice_from 4 z0)%string in
            if (5 <? String.length z1)%nat then
              if is_char ":" (char_at 5 z1)
              then Ok (slice 0 5 z1 ++ slice_from 6 z1)%string
              else Raise ValueError
            else Ok z1
          else Ok z0) ;;
    hours <- py_int (slice 1 3 z) ;;
    minutes <- py_int (slice 3 5 z) ;;
    seconds <- py_int (if String.eqb (slice 5 7 z) "" then "0" else slice 5 7 z) ;;
    let gmtoff := hours * 60 * 60 + minutes * 60 + seconds in
    let gmtoff_remainder := slice_from 8 z in
    let padding := repeat_char "0" (6 - String.length gmtoff_remainder) in
    gmtoff_fraction <- py_int (gmtoff_remainder ++ padding) ;;
    if is_char "-" (char_at 0 z)
    then Ok (- gmtoff, - gmtoff_fraction)
    else Ok (gmtoff, gmtoff_fraction).

Definition strptime (data_string : string) : result datetime :=
  match re_match format_regex data_string with
  | None => Raise ValueError             (* does not match the format *)
  | Some found =>
      _ <- guard (String.eqb (rest found) "") ;;   (* unconverted data remains *)
      match groups found with
      | [g_d; g_b; g_Y; g_H; g_M; g_S; g_z] =>
          day <- py_int g_d ;;
          month <- index_from 0 (lower g_b) a_month ;;
          year <- py_int g_Y ;;
          hour <- py_int g_H ;;
          minute <- py_int g_M ;;
          second <- py_int g_S ;;
          off <- gmtoff_of g_z ;;
          _ <- guard (valid_date year month day) ;;
          _ <- guard (valid_time hour minute second 0) ;;
          let offset := fst off * 1000000 + snd off in
          _ <- guard (valid_offset offset) ;;
          Ok (Datetime year month day hour minute second 0 (Some offset))
      | _ => Raise ValueError
      end
  end.

(** *** [timestamp.strftime('%d/%b/%Y:%H:%M:%S')] *)

Definition month_abbr : list string :=
  [""; "Jan"; "Feb"; "Mar"; "Apr"; "May"; "Jun";
   "Jul"; "Aug"; "Sep"; "Oct"; "Nov"; "Dec"]%string.

Definition strftime (t : datetime) : string :=
  (pad2 (day t) ++ "/" ++ nth (Z.to_nat (month t)) month_abbr "" ++ "/" ++ pad4 (year t)
   ++ ":" ++ pad2 (hour t) ++ ":" ++ pad2 (minute t) ++ ":" ++ pad2 (second t))%string.

Local Close Scope Z_scope.

(** ** [server_log_dashboard.py] *)

(** What [user_agents.parse] returns, as far as the parser reads it. *)
Record user_agent : Type := UserAgent {
  browser_family : string;
  os_family : string;
  device_family : string
}.

(** The dictionary [parse_log_line] returns: one row of the data frame. *)
Module Parsed.
Record t : Type := Make {
  ip : string;
  remote_log_name : string;
  user_id : string;
  datetime : datetime;
  method : string;
  api : string;
  protocol : string;
  status : Z;
  bytes_sent : Z;
  referrer : string;
  ua_string : string;
  browser : string;
  os : string;
  device : string;
  response_time : Z
}.
End Parsed.

Section Dashboard.

(** The classifier of the [user_agents] package. *)
Variable user_agents_parse : string -> user_agent.

Definition parse_log_line (line : string) : result (option Parsed.t) :=
  match re_match pattern line with
  | Some m =>
      match groups m with
      | [ip; remote_log_name; user_id; datetime_str; method; api; protocol;
         status; bytes_sent; referrer; ua_string; response_time] =>
          datetime_obj <- strptime datetime_str ;;
          let ua := user_agents_parse ua_string in
          status_int <- py_int status ;;
          bytes_sent_int <- py_int bytes_sent ;;
          response_time_int <- py_int response_time ;;
          Ok (Some (Parsed.Make ip remote_log_name user_id datetime_obj method api
                      protocol status_int bytes_sent_int referrer ua_string
                      (browser_family ua) (os_family ua) (device_family ua)
                      response_time_int))
      | _ => Raise ValueError
      end
  | None => Ok None
  end.

(** The loop of [load_log_data] over the lines of the file, [data] being
    the list built so far. *)
Fixpoint load_loop (data : list Parsed.t) (f : list string) : result (list Parsed.t) :=
  match f with
  | [] => Ok data
  | line :: f' =>
      parsed <- parse_log_line (strip line) ;;
      match parsed with
      | Some row => load_loop (data ++ [row]) f'
      | None => load_loop data f'
      end
  end.

(** [load_log_data]: the file is the list of its lines, the data frame the
    list of its rows. *)
Definition load_log_data (f : list string) : result (list Parsed.t) :=
  load_loop [] f.

End Dashboard.

(** *** The filters of [main] *)

Definition lex (c1 c2 : comparison) : comparison :=
  match c1 with
  | Eq => c2
  | _ => c1
  end.

(** Comparison of two datetimes of one column (rows of one data frame share
    their UTC offset): by fields, most significant first. *)
Definition datetime_compare (a b : datetime) : comparison :=
  lex (year a ?= year b)%Z
    (lex (month a ?= month b)%Z
       (lex (day a ?= day b)%Z
          (lex (hour a ?= hour b)%Z
             (lex (minute a ?= minute b)%Z
                (lex (second a ?= second b)%Z
                   (microsecond a ?= microsecond b)%Z))))).

Definition datetime_leb (a b : datetime) : bool :=
  match datetime_compare a b with
  | Gt => false
  | _ => true
  end.

(** A [datetime.date]. *)
Record date : Type := Date {
  date_year : Z;
  date_month : Z;
  date_day : Z
}.

(** [.dt.date] of a timestamp. *)
Definition dt_date (t : datetime) : date := Date (year t) (month t) (day t).

(** [pd.Timestamp(d)] of a date: its midnight. *)
Definition Timestamp (d : date) : datetime :=
  Datetime (date_year d) (date_month d) (date_day d) 0 0 0 0 None.

(** A date compared with a [Timestamp] counts as its own midnight. *)
Definition date_ge (d : date) (ts : datetime) : bool := datetime_leb ts (Timestamp d).
Definition date_le (d : date) (ts : datetime) : bool := datetime_leb (Timestamp d) ts.

Definition isin {A : Type} (eqb : A -> A -> bool) (x : A) (values : list A) : bool :=
  existsb (eqb x) values.

(** The boolean mask of [main], row by row. *)
Definition mask (date_range : date * date) (status_codes : list Z)
    (methods : list string) (row : Parsed.t) : bool :=
  (date_ge (dt_date (Parsed.datetime row)) (Timestamp (fst date_range))
   && date_le (dt_date (Parsed.datetime row)) (Timestamp (snd date_range))
   && isin Z.eqb (Parsed.status row) status_codes
   && isin String.eqb (Parsed.method row) methods)%bool.

Definition filtered_df (df : list Parsed.t) (date_range : date * date)
    (status_codes : list Z) (methods : list string) : list Parsed.t :=
  filter (mask date_range status_codes methods) df.

(** *** Requests per hour *)

(** [.dt.floor('H')]. *)
Definition floor_H (t : datetime) : datetime :=
  Datetime (year t) (month t) (day t) (hour t) 0 0 0 (tzinfo t).

(** One more member for the group of key [k], the groups kept in key
    order. *)
Fixpoint count_into (k : datetime) (gs : list (datetime * nat)) : list (datetime * nat) :=
  match gs with
  | [] => [(k, 1)]
  | (k', n) :: gs' =>
      match datetime_compare k k' with
      | Eq => (k', S n) :: gs'
      | Lt => (k, 1) :: gs
      | Gt => (k', n) :: count_into k gs'
      end
  end.

(** [groupby(keys).size()]: one pair per distinct key, in key order. *)
Definition groupby_size (keys : list datetime) : list (datetime * nat) :=
  fold_left (fun gs k => count_into k gs) keys [].

Definition hourly_requests (df : list Parsed.t) : list (datetime * nat) :=
  groupby_size (map (fun row => floor_H (Parsed.datetime row)) df).

(** *** Key metrics *)

(** A float of pandas: a number (kept exact, rounding is not modelled) or
    NaN. *)
Inductive float : Type :=
| Num (x : Q)
| NaN.

Definition fmul (a : float) (b : Q) : float :=
  match a with
  | Num x => Num (x * b)
  | NaN => NaN
  end.

Definition sumZ (xs : list Z) : Z := fold_right Z.add 0%Z xs.

(** [Series.mean()]: NaN on the empty series, with no error raised. *)
Definition mean (xs : list Z) : float :=
  match xs with
  | [] => NaN
  | _ => Num (inject_Z (sumZ xs) / inject_Z (Z.of_nat (length xs)))
  end.

Definition mean_response_time (df : list Parsed.t) : float :=
  mean (map Parsed.response_time df).

Definition total_requests (df : list Parsed.t) : nat := length df.

Definition success_rate (df : list Parsed.t) : float :=
  fmul (mean (map (fun row => if (Parsed.status row <? 400)%Z then 1%Z else 0%Z) df)) 100.

(** ** [test_file_generator.py] *)

Module LogGenerator.

Local Open Scope Q_scope.

Definition endpoints : list (string * Q) :=
  [("/api/users", 0.2); ("/api/products", 0.25); ("/api/orders", 0.2);
   ("/api/auth/login", 0.1); ("/api/auth/logout", 0.05); ("/api/cart", 0.1);
   ("/api/search", 0.05); ("/health", 0.03); ("/metrics", 0.02)]%string.

Definition methods : list (string * Q) :=
  [("GET", 0.6); ("POST", 0.2); ("PUT", 0.1); ("DELETE", 0.1)]%string.

Definition status_codes : list (Z * Q) :=
  [(200%Z, 0.75); (201%Z, 0.05); (301%Z, 0.02); (304%Z, 0.03); (400%Z, 0.05);
   (401%Z, 0.03); (403%Z, 0.02); (404%Z, 0.03); (500%Z, 0.02)].

Definition user_agents : list (string * Q) :=
  [("Mozilla/5.0 (Windows NT 10.0; Win64; x64) AppleWebKit/537.36 (KHTML, like Gecko) Chrome/91.0.4472.124 Safari/537.36", 0.4);
   ("Mozilla/5.0 (Macintosh; Intel Mac OS X 10_15_7) AppleWebKit/605.1.15 (KHTML, like Gecko) Version/14.1.1 Safari/605.1.15", 0.2);
   ("Mozilla/5.0 (Windows NT 10.0; Win64; x64; rv:89.0) Gecko/20100101 Firefox/89.0", 0.15);
   ("Mozilla/5.0 (iPhone; CPU iPhone OS 14_6 like Mac OS X) AppleWebKit/605.1.15 (KHTML, like Gecko) Version/14.1.1 Mobile/15E148 Safari/604.1", 0.1);
   ("Mozilla/5.0 (Linux; Android 11; SM-G991B) AppleWebKit/537.36 (KHTML, like Gecko) Chrome/91.0.4472.120 Mobile Safari/537.36", 0.1);
   ("Mozilla/5.0 (Windows NT 10.0; Win64; x64) AppleWebKit/537.36 (KHTML, like Gecko) Chrome/91.0.4472.124 Safari/537.36 Edg/91.0.864.59", 0.05)]%string.

Definition Qltb (x y : Q) : bool := negb (Qle_bool y x).

(** [bisect] over the running sums of the weights, its upper bound being
    the last index. *)
Fixpoint bisect {K : Type} (x acc : Q) (first : K * Q) (others : list (K * Q)) : K :=
  match others with
  | [] => fst first
  | next :: others' =>
      if Qltb x (acc + snd first) then fst first
      else bisect x (acc + snd first) next others'
  end.

Definition total {K : Type} (choices_dict : list (K * Q)) : Q :=
  fold_left (fun acc kw => acc + snd kw) choices_dict 0.

(** [weighted_choice], [u] being the draw of [random()] that
    [random.choices] makes. *)
Definition weighted_choice {K : Type} (choices_dict : list (K * Q)) (u : Q) : result K :=
  match choices_dict with
  | [] => Raise ValueError
  | first :: others =>
      _ <- guard (Qltb 0 (total choices_dict)) ;;
      Ok (bisect (u * total choices_dict) 0 first others)
  end.

(** [int(x)] of a float: truncation towards zero. *)
Definition int (x : Q) : Z := Z.quot (Qnum x) (Zpos (Qden x)).

(** The draws one log entry consumes. *)
Record draws : Type := Draws {
  method_u : Q;                (* random.choices, methods *)
  endpoint_u : Q;              (* random.choices, endpoints *)
  status_u : Q;                (* random.choices, status codes *)
  referrer_u : Q;              (* random.random() *)
  fake_uri : string;           (* fake.uri() *)
  ip_u : Q;                    (* random.random() *)
  ip_choice : nat;             (* the index random.choice draws *)
  fake_ipv4 : string;          (* fake.ipv4() *)
  distribution_type : Q;       (* random.random() *)
  lognormal_8 : Q;             (* np.random.lognormal(8, 0.5) *)
  normal_500 : Q;              (* np.random.normal(500, 100) *)
  normal_500000 : Q;           (* np.random.normal(500000, 100000) *)
  agent_u : Q;                 (* random.choices, user agents *)
  lognormal_3 : Q              (* np.random.lognormal(mean=3.0, sigma=1) *)
}.

Definition generate_response_time (d : draws) : Z := int (lognormal_3 d).

Definition generate_bytes_sent (d : draws) : Z :=
  if Qltb (distribution_type d) 0.7 then int (lognormal_8 d)
  else if Qltb (distribution_type d) 0.9 then int (normal_500 d)
  else int (normal_500000 d).

Definition regular_visitors : list string :=
  ["192.168.1.100"; "10.0.0.50"; "172.16.0.100"; "192.168.0.200"; "10.0.0.25"]%string.

Definition generate_ip (d : draws) : string :=
  if Qltb (ip_u d) 0.3
  then nth (ip_choice d mod length regular_visitors) regular_visitors EmptyString
  else fake_ipv4 d.

Definition newline : string := String "010"%char EmptyString.

Definition generate_log_entry (timestamp : datetime) (d : draws) : result string :=
  method <- weighted_choice methods (method_u d) ;;
  endpoint <- weighted_choice endpoints (endpoint_u d) ;;
  status_code <- weighted_choice status_codes (status_u d) ;;
  let referrer := if Qltb (referrer_u d) 0.3 then fake_uri d else "-"%string in
  agent <- weighted_choice user_agents (agent_u d) ;;
  Ok (generate_ip d ++ " - - "
      ++ "[" ++ strftime timestamp ++ " +0000] "
      ++ q (method ++ " " ++ endpoint ++ " HTTP/1.1") ++ " "
      ++ py_str status_code ++ " " ++ py_str (generate_bytes_sent d) ++ " "
      ++ q referrer ++ " " ++ q agent ++ " "
      ++ py_str (generate_response_time d) ++ newline)%string.

Local Close Scope Q_scope.
Local Open Scope Z_scope.

(** *** Naive datetimes on the time line

    Inside [generate_logs] a naive [datetime] is kept as its number of
    microseconds since 0001-01-01T00:00:00, which is how [datetime]
    arithmetic and comparison work; [of_micros] gives back the fields. *)

Definition minute_us : Z := 60 * 1000000.
Definition hour_us : Z := 3600 * 1000000.

(** [date.max.toordinal()]. *)
Definition MAXORDINAL : Z := 3652059.

Definition days_before_month (m : Z) : Z :=
  nth (Z.to_nat m) [0; 0; 31; 59; 90; 120; 151; 181; 212; 243; 273; 304; 334] 0.

Definition DAYS_IN_MONTH (m : Z) : Z :=
  nth (Z.to_nat m) [0; 31; 28; 31; 30; 31; 30; 31; 31; 30; 31; 30; 31] 0.

(** [_ord2ymd] of the [datetime] module: ordinal to (year, month, day). *)
Definition ord2ymd (ordinal : Z) : Z * Z * Z :=
  let n := ordinal - 1 in
  let n400 := n / 146097 in
  let n := n mod 146097 in
  let year := n400 * 400 + 1 in
  let n100 := n / 36524 in
  let n := n mod 36524 in
  let n4 := n / 1461 in
  let n := n mod 1461 in
  let n1 := n / 365 in
  let n := n mod 365 in
  let year := year + n100 * 100 + n4 * 4 + n1 in
  if ((n1 =? 4) || (n100 =? 4))%bool then (year - 1, 12, 31)
  else
    let leapyear := ((n1 =? 3) && (negb (n4 =? 24) || (n100 =? 3)))%bool in
    let month := Z.shiftr (n + 50) 5 in
    let preceding :=
      days_before_month month + (if ((2 <? month) && leapyear)%bool then 1 else 0) in
    if n <? preceding then
      let month := month - 1 in
      let preceding :=
        preceding - (DAYS_IN_MONTH month + (if ((month =? 2) && leapyear)%bool then 1 else 0)) in
      (year, month, n - preceding + 1)
    else (year, month, n - preceding + 1).

Definition of_micros (t : Z) : datetime :=
  let ymd := ord2ymd (t / day_us + 1) in
  let r := t mod day_us in
  Datetime (fst (fst ymd)) (snd (fst ymd)) (snd ymd)
    (r / hour_us) (r mod hour_us / minute_us) (r mod minute_us / 1000000)
    (r mod 1000000) None.

(** [t + timedelta(microseconds=delta)]; out of [datetime.min ..
    datetime.max] it is an OverflowError. *)
Definition add (t delta : Z) : result Z :=
  if ((0 <=? t + delta) && (t + delta <? MAXORDINAL * day_us))%bool
  then Ok (t + delta)
  else Raise OverflowError.

(** Rounding to the nearest integer, ties to even. *)
Definition round_half_even (x : Q) : Z :=
  let n := Qnum x in
  let d := Zpos (Qden x) in
  let f := n / d in
  let twice := 2 * (n - f * d) in
  if twice <? d then f
  else if d <? twice then f + 1
  else if Z.even f then f else f + 1.

(** The microseconds of [timedelta(seconds=x)]. *)
Definition timedelta_seconds (x : Q) : Z := round_half_even (x * 1000000)%Q.

(** The draws one minute of the window consumes. *)
Record minute_draws : Type := MinuteDraws {
  poisson_5 : nat;                   (* np.random.poisson(5) *)
  poisson_1 : nat;                   (* np.random.poisson(1) *)
  random_seconds : nat -> Q          (* random.random() * 60, draw by draw *)
}.

(** The inner loop [for _ in range(num_entries)], from draw [i] on. *)
Fixpoint add_entries (current_time : Z) (seconds : nat -> Q) (i num_entries : nat)
    (timestamps : list Z) : result (list Z) :=
  match num_entries with
  | O => Ok timestamps
  | S num_entries' =>
      t <- add current_time (timedelta_seconds (seconds i)) ;;
      add_entries current_time seconds (S i) num_entries' (timestamps ++ [t])
  end.

(** The loop [while current_time < end_time], [i] counting its rounds. *)
Fixpoint minutes_loop (fuel : nat) (current_time end_time : Z)
    (rng : nat -> minute_draws) (i : nat) (timestamps : list Z) : result (list Z) :=
  match fuel with
  | O => Ok timestamps
  | S fuel' =>
      if current_time <? end_time then
        let hour := current_time mod day_us / hour_us in
        let num_entries :=
          if ((8 <=? hour) && (hour <=? 18))%bool
          then poisson_5 (rng i) else poisson_1 (rng i) in
        timestamps <- add_entries current_time (random_seconds (rng i)) 0
                        num_entries timestamps ;;
        current_time <- add current_time minute_us ;;
        minutes_loop fuel' current_time end_time rng (S i) timestamps
      else Ok timestamps
  end.

Fixpoint insert (x : Z) (l : list Z) : list Z :=
  match l with
  | [] => [x]
  | y :: l' => if x <=? y then x :: l else y :: insert x l'
  end.

(** [list.sort()]. *)
Definition sort (l : list Z) : list Z := fold_right insert [] l.

Fixpoint remove_nth (j : nat) (l : list Z) : list Z :=
  match j, l with
  | _, [] => []
  | O, _ :: l' => l'
  | S j', x :: l' => x :: remove_nth j' l'
  end.

(** The selection of [random.sample]: [k] members of the pool, each drawn
    among those not drawn yet. *)
Fixpoint select (pool : list Z) (k : nat) (randbelow : nat -> nat) : list Z :=
  match k, pool with
  | O, _ => []
  | _, [] => []
  | S k', x :: _ =>
      let j := (randbelow k' mod length pool)%nat in
      nth j pool x :: select (remove_nth j pool) k' randbelow
  end.

(** [random.sample(population, k)]. *)
Definition sample (population : list Z) (k : Z) (randbelow : nat -> nat) : result (list Z) :=
  if ((k <? 0) || (Z.of_nat (length population) <? k))%bool then Raise ValueError
  else Ok (select population (Z.to_nat k) randbelow).

(** The loop that writes one entry per timestamp, from entry [i] on. *)
Fixpoint write_entries (timestamps : list Z) (entry : nat -> draws) (i : nat)
  : result (list string) :=
  match timestamps with
  | [] => Ok []
  | timestamp :: timestamps' =>
      line <- generate_log_entry (of_micros timestamp) (entry i) ;;
      lines <- write_entries timestamps' entry (S i) ;;
      Ok (line :: lines)
  end.

(** [Path('sample_logs') / output_file]. *)
Definition output_path (output_file : string) : string :=
  match output_file with
  | String "/"%char _ => output_file
  | _ => ("sample_logs/" ++ output_file)%string
  end.

(** What a run of [generate_logs] leaves: the file and the message. *)
Record run : Type := Run {
  path : string;
  written : list string;
  printed : string
}.

(** The number of rounds of the loop over a week of minutes. *)
Definition week_minutes : nat := 7 * 24 * 60.

Definition generate_logs (now : Z) (num_lines : Z) (output_file : string)
    (rng : nat -> minute_draws) (randbelow : nat -> nat) (entry : nat -> draws)
  : result run :=
  let end_time := now in
  start_time <- add end_time (- (7 * day_us)) ;;
  timestamps <- minutes_loop (S week_minutes) start_time end_time rng 0 [] ;;
  let timestamps := sort timestamps in
  timestamps <- (if num_lines <? Z.of_nat (length timestamps)
                 then sample timestamps num_lines randbelow
                 else Ok timestamps) ;;
  let timestamps := sort timestamps in
  lines <- write_entries timestamps entry 0 ;;
  Ok (Run (output_path output_file) lines
        ("Generated " ++ py_str num_lines ++ " log entries in "
         ++ output_path output_file)%string).

End LogGenerator.

(** ** A deterministic reading of the pattern

    The readers below take one token each from the start of a text, with no
    backtracking.  [scan] chains them in the order of the pattern; it is
    proved equal to [re_match pattern] further down. *)

Fixpoint all_in (k : cclass) (s : string) : bool :=
  match s with
  | EmptyString => true
  | String c s' => (in_class k c && all_in k s')%bool
  end.

(** The text does not start with a character of the class. *)
Definition nostart (k : cclass) (s : string) : bool :=
  match s with
  | EmptyString => true
  | String c _ => negb (in_class k c)
  end.

(** The longest run of class [k] at the start of [s], and what follows. *)
Fixpoint run (k : cclass) (s : string) : string * string :=
  match s with
  | EmptyString => (EmptyString, EmptyString)
  | String c s' =>
      if in_class k c
      then let r := run k s' in (String c (fst r), snd r)
      else (EmptyString, s)
  end.

Definition token (k : cclass) (lo : nat) (s : string) : option (string * string) :=
  if Nat.leb lo (String.length (fst (run k s))) then Some (run k s) else None.

Definition expect (c : ascii) (s : string) : option string :=
  match s with
  | String a s' => if Ascii.eqb a c then Some s' else None
  | EmptyString => None
  end.

Definition one (k : cclass) (s : string) : option (string * string) :=
  match s with
  | String a s' => if in_class k a then Some (String a EmptyString, s') else None
  | EmptyString => None
  end.

Fixpoint exact (k : cclass) (n : nat) (s : string) : option (string * string) :=
  match n with
  | O => Some (EmptyString, s)
  | S n' =>
      match s with
      | String c s' =>
          if in_class k c
          then option_map (fun mr => (String c (fst mr), snd mr)) (exact k n' s')
          else None
      | EmptyString => None
      end
  end.

(** A text without its last character, and that character. *)
Fixpoint split_last (s : string) : option (string * ascii) :=
  match s with
  | EmptyString => None
  | String c s' =>
      match split_last s' with
      | None => Some (EmptyString, c)
      | Some (m, z) => Some (String c m, z)
      end
  end.

(** The longest run of class [k], which has to end with [c] (a character of
    the class): the token is the run without that [c], which is consumed
    too. *)
Definition token_until (k : cclass) (lo : nat) (c : ascii) (s : string)
  : option (string * string) :=
  match split_last (fst (run k s)) with
  | Some (m, z) =>
      if (Ascii.eqb z c && Nat.leb lo (String.length m))%bool
      then Some (m, snd (run k s)) else None
  | None => None
  end.

Definition obind {A B : Type} (o : option A) (k : A -> option B) : option B :=
  match o with
  | Some a => k a
  | None => None
  end.

Notation "x <-? o ;; k" := (obind o (fun x => k))
  (at level 62, o at next level, right associativity).

Definition stamp_chars : cclass := Union Word (OneOf ":/").
Definition not_quote : cclass := NoneOf (String Char.dquote EmptyString).

(** The timestamp group: word, colon and slash characters, one white space,
    a sign, four digits. *)
Definition stamp (s : string) : option (string * string) :=
  w <-? token stamp_chars 1 s ;;
  b <-? one Space (snd w) ;;
  g <-? one (OneOf "+-") (snd b) ;;
  z <-? exact Digit 4 (snd g) ;;
  Some ((fst w ++ fst b ++ fst g ++ fst z)%string, snd z).

(** The steps of the deterministic reading. *)
Inductive piece : Type :=
| Skip (c : ascii)                           (* a literal *)
| Field (k : cclass) (lo : nat)              (* a group: a longest run *)
| FieldUntil (k : cclass) (lo : nat) (c : ascii)   (* a group closed by [c] *)
| Fixed (k : cclass) (n : nat)               (* a group of [n] characters *)
| Stamp.                                     (* the timestamp group *)

Definition read (p : piece) (s : string) : option (list string * string) :=
  match p with
  | Skip c => r <-? expect c s ;; Some ([], r)
  | Field k lo => t <-? token k lo s ;; Some ([fst t], snd t)
  | FieldUntil k lo c => t <-? token_until k lo c s ;; Some ([fst t], snd t)
  | Fixed k n => t <-? exact k n s ;; Some ([fst t], snd t)
  | Stamp => t <-? stamp s ;; Some ([fst t], snd t)
  end.

(** The groups read so far are [acc]. *)
Fixpoint scan_pieces (ps : list piece) (acc : list string) (s : string)
  : option (list string * string) :=
  match ps with
  | [] => Some (acc, s)
  | p :: ps' =>
      a <-? read p s ;;
      scan_pieces ps' (acc ++ fst a) (snd a)
  end.

(** The pattern up to the blank before the response time. *)
Definition pieces : list piece :=
  [ Field NonSpace 1; Skip " "; Field NonSpace 1; Skip " "; Field NonSpace 1; Skip " ";
    Skip "["; Stamp; Skip "]"; Skip " ";
    Skip Char.dquote; Field NonSpace 1; Skip " "; Field NonSpace 1; Skip " ";
    FieldUntil NonSpace 1 Char.dquote; Skip " ";
    Fixed Digit 3; Skip " "; Field Digit 1; Skip " ";
    Skip Char.dquote; Field not_quote 0; Skip Char.dquote; Skip " ";
    Skip Char.dquote; Field not_quote 0; Skip Char.dquote; Skip " " ].

(** The groups of the line and the text left after the response time. *)
Definition scan (s : string) : option (list string * string) :=
  a <-? scan_pieces pieces [] s ;;
  t <-? token Digit 1 (snd a) ;;
  Some (fst a ++ [fst t], snd t).

(** The matcher in continuation style: [k] receives every hit. *)
Definition matches_k {A : Type} (r : regex) (s : string) (k : hit -> list A) : list A :=
  flat_map k (matches r s).

(** After a run of class [k] closed by [c], a continuation can only go on
    from a text that starts with [c] and then leaves the class. *)
Definition viable (k : cclass) (c : ascii) (s : string) : bool :=
  match s with
  | String a s' => (Ascii.eqb a c && nostart k s')%bool
  | EmptyString => false
  end.

(** ** Vocabulary of the statements *)

(** What [parse_log_line] makes of the twelve groups of a match. *)
Definition row_of_groups (user_agents_parse : string -> user_agent) (gs : list string)
  : result (option Parsed.t) :=
  match gs with
  | [ip; remote_log_name; user_id; datetime_str; method; api; protocol;
     status; bytes_sent; referrer; ua_string; response_time] =>
      datetime_obj <- strptime datetime_str ;;
      let ua := user_agents_parse ua_string in
      status_int <- py_int status ;;
      bytes_sent_int <- py_int bytes_sent ;;
      response_time_int <- py_int response_time ;;
      Ok (Some (Parsed.Make ip remote_log_name user_id datetime_obj method api
                  protocol status_int bytes_sent_int referrer ua_string
                  (browser_family ua) (os_family ua) (device_family ua)
                  response_time_int))
  | _ => Raise ValueError
  end.


(** A classifier that knows no user agent. *)
Definition other_agent (ua_string : string) : user_agent :=
  UserAgent "Other" "Other" "Other".

(** The line of the scenario with the 31st of February for a date: the
    timestamp has the shape the pattern asks for and is no date. *)
Definition bad_date_line : string :=
  "192.168.1.1 - - [31/Feb/2023:13:55:36 +0000] " ++ q "GET /api/users HTTP/1.1"
  ++ " 200 1024 " ++ q "-" ++ " " ++ q "Mozilla/5.0 (Windows NT 10.0; Win64; x64)" ++ " 45".

Definition is_none {A : Type} (o : option A) : bool :=
  match o with
  | None => true
  | Some _ => false
  end.

(** A line that is empty once stripped. *)
Definition blank (line : string) : bool := String.eqb (strip line) "".

(** A line the pattern does not match once stripped. *)
Definition unmatched (line : string) : bool := is_none (re_match pattern (strip line)).

(** The rows of the lines that parse, in the order of the lines. *)
Definition rows_of (ua : string -> user_agent) (lines : list string) : list Parsed.t :=
  flat_map (fun line =>
              match parse_log_line ua (strip line) with
              | Ok (Some row) => [row]
              | _ => []
              end) lines.

(** The order of dates. *)
Definition date_compare (a b : date) : comparison :=
  lex (date_year a ?= date_year b)%Z
    (lex (date_month a ?= date_month b)%Z (date_day a ?= date_day b)%Z).

Definition date_leb (a b : date) : bool :=
  match date_compare a b with
  | Gt => false
  | _ => true
  end.

Definition sum_counts (gs : list (datetime * nat)) : nat :=
  fold_right Nat.add 0 (map snd gs).

(** *** Inputs of the generator used in the statements *)

Module Inputs.

Import LogGenerator.

Local Open Scope Q_scope.

(** 2023-10-10T13:55:36.000123, a naive local time. *)
Definition a_timestamp : datetime := Datetime 2023 10 10 13 55 36 123 None.

(** Draws under which the response size comes from the second branch, the
    normal distribution around 500, and is the sample -3.2. *)
Definition negative_size_draws : draws :=
  Draws 0.1 0.1 0.1 0.5 "http://example.com/" 0.1 7 "203.0.113.9"
        0.8 2980.1 (-3.2) 500000.5 0.99 20.08.

(** Draws with a size of the first branch. *)
Definition usual_draws : draws :=
  Draws 0.1 0.1 0.1 0.5 "http://example.com/" 0.5 7 "203.0.113.9"
        0.3 2980.1 512.7 500000.5 0.99 20.08.

(** A minute with the mean rates of the two Poisson laws, its entries ten
    seconds apart. *)
Definition typical_minute : minute_draws :=
  MinuteDraws 5 1 (fun j => inject_Z (Z.of_nat (10 * (j mod 6) + 5))).

(** 2023-10-17T12:00:00 on the time line. *)
Definition noon : Z := ((738810 - 1) * day_us + 12 * hour_us)%Z.

End Inputs.

(** The entries the loop draws in the minute that starts at
    [current_time]. *)
Definition entries_at (current_time : Z) (m : LogGenerator.minute_draws) : nat :=
  let hour := (current_time mod day_us / LogGenerator.hour_us)%Z in
  if ((8 <=? hour) && (hour <=? 18))%bool%Z
  then LogGenerator.poisson_5 m else LogGenerator.poisson_1 m.

(** The number of timestamps the loop over the minutes draws. *)
Fixpoint drawn (fuel : nat) (current_time end_time : Z)
    (rng : nat -> LogGenerator.minute_draws) (i : nat) : nat :=
  match fuel with
  | O => 0
  | S fuel' =>
      if (current_time <? end_time)%Z
      then entries_at current_time (rng i)
           + drawn fuel' (current_time + LogGenerator.minute_us)%Z end_time rng (S i)
      else 0
  end.

(** The number of timestamps a run that starts at [now] draws. *)
Definition total_drawn (now : Z) (rng : nat -> LogGenerator.minute_draws) : nat :=
  drawn (S LogGenerator.week_minutes) (now - 7 * day_us)%Z now rng 0.

(** A token: characters of one class, at least [lo] of them. *)
Definition tokenb (k : cclass) (lo : nat) (s : string) : bool :=
  (all_in k s && Nat.leb lo (String.length s))%bool.

(** The fields of a line as the pattern wants them. *)
Record fields : Type := Fields {
  f_ip : string;
  f_stamp : string;            (* the timestamp before its offset *)
  f_blank : ascii;             (* the white space before the offset *)
  f_sign : ascii;
  f_offset : string;           (* the four digits of the offset *)
  f_method : string;
  f_api : string;
  f_protocol : string;
  f_status : string;
  f_bytes : string;
  f_referrer : string;
  f_agent : string;
  f_response_time : string
}.

Definition datetime_str (f : fields) : string :=
  f_stamp f ++ String (f_blank f) (String (f_sign f) (f_offset f)).

(** The line the fields make, followed by [tail]. *)
Definition line_of (f : fields) (tail : string) : string :=
  f_ip f ++ " - - [" ++ datetime_str f ++ "] "
  ++ q (f_method f ++ " " ++ f_api f ++ " " ++ f_protocol f) ++ " "
  ++ f_status f ++ " " ++ f_bytes f ++ " "
  ++ q (f_referrer f) ++ " " ++ q (f_agent f) ++ " "
  ++ f_response_time f ++ tail.

Definition well_formed (f : fields) : bool :=
  (tokenb NonSpace 1 (f_ip f)
   && tokenb stamp_chars 1 (f_stamp f)
   && in_class Space (f_blank f)
   && in_class (OneOf "+-") (f_sign f)
   && all_in Digit (f_offset f) && Nat.eqb (String.length (f_offset f)) 4
   && tokenb NonSpace 1 (f_method f)
   && tokenb NonSpace 1 (f_api f)
   && tokenb NonSpace 1 (f_protocol f)
   && all_in Digit (f_status f) && Nat.eqb (String.length (f_status f)) 3
   && tokenb Digit 1 (f_bytes f)
   && all_in not_quote (f_referrer f)
   && all_in not_quote (f_agent f)
   && tokenb Digit 1 (f_response_time f))%bool.

Definition groups_of (f : fields) : list string :=
  [f_ip f; "-"; "-"; datetime_str f; f_method f; f_api f; f_protocol f;
   f_status f; f_bytes f; f_referrer f; f_agent f; f_response_time f].

(** The key [weighted_choice] draws from one of the four tables. *)
Definition pick {K : Type} (choices_dict : list (K * Q)) (u : Q) (default : K) : K :=
  match LogGenerator.weighted_choice choices_dict u with
  | Ok k => k
  | Raise _ => default
  end.

(** The fields of the line [generate_log_entry] writes. *)
Definition entry_fields (timestamp : datetime) (d : LogGenerator.draws) : fields :=
  Fields (LogGenerator.generate_ip d) (strftime timestamp) " " "+" "0000"
    (pick LogGenerator.methods (LogGenerator.method_u d) "")
    (pick LogGenerator.endpoints (LogGenerator.endpoint_u d) "")
    "HTTP/1.1"
    (py_str (pick LogGenerator.status_codes (LogGenerator.status_u d) 0%Z))
    (py_str (LogGenerator.generate_bytes_sent d))
    (if LogGenerator.Qltb (LogGenerator.referrer_u d) 0.3%Q
     then LogGenerator.fake_uri d else "-")
    (pick LogGenerator.user_agents (LogGenerator.agent_u d) "")
    (py_str (LogGenerator.generate_response_time d)).

(** What is assumed of the draws: [fake.ipv4()] is a token without white
    space, [fake.uri()] has no double quote, the log-normal sample of the
    response time is not negative, and the size drawn is not negative. *)
Definition plausible (d : LogGenerator.draws) : bool :=
  (tokenb NonSpace 1 (LogGenerator.fake_ipv4 d)
   && all_in not_quote (LogGenerator.fake_uri d)
   && Qle_bool 0 (LogGenerator.lognormal_3 d)
   && (0 <=? LogGenerator.generate_bytes_sent d)%Z)%bool.

(** The row the parser should make of an entry. *)
Definition entry_row (ua : string -> user_agent) (timestamp : datetime)
    (d : LogGenerator.draws) : Parsed.t :=
  let agent := pick LogGenerator.user_agents (LogGenerator.agent_u d) "" in
  Parsed.Make (LogGenerator.generate_ip d) "-" "-"
    (Datetime (year timestamp) (month timestamp) (day timestamp)
       (hour timestamp) (minute timestamp) (second timestamp) 0 (Some 0%Z))
    (pick LogGenerator.methods (LogGenerator.method_u d) "")
    (pick LogGenerator.endpoints (LogGenerator.endpoint_u d) "")
    "HTTP/1.1"
    (pick LogGenerator.status_codes (LogGenerator.status_u d) 0%Z)
    (LogGenerator.generate_bytes_sent d)
    (if LogGenerator.Qltb (LogGenerator.referrer_u d) 0.3%Q
     then LogGenerator.fake_uri d else "-")
    agent
    (browser_family (ua agent)) (os_family (ua agent)) (device_family (ua agent))
    (LogGenerator.generate_response_time d).

(** The last character of a text is not white space. *)
Definition ends_nonspace (s : string) : bool :=
  match split_last s with
  | Some (_, z) => negb (Char.is_space z)
  | None => false
  end.

(** The value of a decimal numeral read from the left, [acc] being the value
    of the digits already read. *)
Fixpoint uint_value (d : Decimal.uint) (acc : Z) : Z :=
  match d with
  | Decimal.Nil => acc
  | Decimal.D0 d' => uint_value d' (10 * acc)
  | Decimal.D1 d' => uint_value d' (10 * acc + 1)
  | Decimal.D2 d' => uint_value d' (10 * acc + 2)
  | Decimal.D3 d' => uint_value d' (10 * acc + 3)
  | Decimal.D4 d' => uint_value d' (10 * acc + 4)
  | Decimal.D5 d' => uint_value d' (10 * acc + 5)
  | Decimal.D6 d' => uint_value d' (10 * acc + 6)
  | Decimal.D7 d' => uint_value d' (10 * acc + 7)
  | Decimal.D8 d' => uint_value d' (10 * acc + 8)
  | Decimal.D9 d' => uint_value d' (10 * acc + 9)
  end%Z.

(** The numeral [d] with the digit [k] put in front. *)
Definition cons_digit (k : Z) (d : Decimal.uint) : Decimal.uint :=
  match k with
  | 0 => Decimal.D0 d
  | 1 => Decimal.D1 d
  | 2 => Decimal.D2 d
  | 3 => Decimal.D3 d
  | 4 => Decimal.D4 d
  | 5 => Decimal.D5 d
  | 6 => Decimal.D6 d
  | 7 => Decimal.D7 d
  | 8 => Decimal.D8 d
  | _ => Decimal.D9 d
  end%Z.

(** The draws of [random.random() * 60] lie between 0 and 60. *)
Definition seconds_in_range (rng : nat -> LogGenerator.minute_draws) : Prop :=
  forall i j, (0 <= LogGenerator.random_seconds (rng i) j)%Q
              /\ (LogGenerator.random_seconds (rng i) j <= 60)%Q.

(** A continuation that gives up on a text starting with a digit. *)
Definition kills_digits {A : Type} (K : hit -> list A) : Prop :=
  forall m c r g, Char.is_digit c = true -> K (Hit m (String c r) g) = [].

(** ** The layout of a line *)

(** The line twelve groups make, laid out as the pattern reads them and
    followed by [tail]. *)
Definition layout (gs : list string) (tail : string) : string :=
  match gs with
  | [ip; remote_log_name; user_id; datetime_str; method; api; protocol;
     status; bytes_sent; referrer; ua_string; response_time] =>
      ip ++ " " ++ remote_log_name ++ " " ++ user_id ++ " [" ++ datetime_str ++ "] "
      ++ q (method ++ " " ++ api ++ " " ++ protocol) ++ " "
      ++ status ++ " " ++ bytes_sent ++ " "
      ++ q referrer ++ " " ++ q ua_string ++ " " ++ response_time ++ tail
  | _ => tail
  end.

(** A white space, a sign and four digits. *)
Definition offset_shaped (s : string) : bool :=
  match s with
  | String b (String g z) =>
      (in_class Space b && in_class (OneOf "+-") g
       && all_in Digit z && Nat.eqb (String.length z) 4)%bool
  | _ => false
  end.

(** The shape of the timestamp group: word, colon and slash characters, at
    least one, and then an offset. *)
Fixpoint stamp_shaped (s : string) : bool :=
  match s with
  | String c s' => (in_class stamp_chars c && (offset_shaped s' || stamp_shaped s'))%bool
  | EmptyString => false
  end.

(** The shapes the pattern asks of its twelve groups. *)
Definition shaped (gs : list string) : bool :=
  match gs with
  | [ip; remote_log_name; user_id; datetime_str; method; api; protocol;
     status; bytes_sent; referrer; ua_string; response_time] =>
      (tokenb NonSpace 1 ip && tokenb NonSpace 1 remote_log_name
       && tokenb NonSpace 1 user_id && stamp_shaped datetime_str
       && tokenb NonSpace 1 method && tokenb NonSpace 1 api
       && tokenb NonSpace 1 protocol
       && all_in Digit status && Nat.eqb (String.length status) 3
       && tokenb Digit 1 bytes_sent
       && all_in not_quote referrer && all_in not_quote ua_string
       && tokenb Digit 1 response_time)%bool
  | _ => false
  end.

(** The row of [sample_line] under the classifier [other_agent]. *)
Definition sample_row : Parsed.t :=
  Parsed.Make "192.168.1.1" "-" "-" (Datetime 2023 10 10 13 55 36 0 (Some 0%Z))
    "GET" "/api/users" "HTTP/1.1" 200 1024 "-"
    "Mozilla/5.0 (Windows NT 10.0; Win64; x64)" "Other" "Other" "Other" 45.

(** No line of the list makes the parser raise. *)
Definition quiet (ua : string -> user_agent) (lines : list string) : Prop :=
  forall line e, In line lines -> parse_log_line ua (strip line) <> Raise e.

(** ** The controls of the sidebar of [main] *)









(** The row falls in the hour [k]. *)
Definition in_hour (k : datetime) (row : Parsed.t) : bool :=
  match datetime_compare (floor_H (Parsed.datetime row)) k with
  | Eq => true
  | _ => false
  end.

(** The rows with a status below 400. *)
Definition successes (df : list Parsed.t) : list Parsed.t :=
  filter (fun row => (Parsed.status row <? 400)%Z) df.

(** The group of [a] comes before that of [b]. *)
Definition key_lt (a b : datetime * nat) : Prop := datetime_compare (fst a) (fst b) = Lt.

Definition same_key (x key : datetime) : bool :=
  match datetime_compare key x with
  | Eq => true
  | _ => false
  end.

(** The members the groups count for the key [x]. *)
Definition tally (gs : list (datetime * nat)) (x : datetime) : nat :=
  fold_right Nat.add 0 (map (fun g => if same_key x (fst g) then snd g else 0) gs).

(** ** Vocabulary of the generator *)


(** The draw of the branch [generate_bytes_sent] takes. *)
Definition size_draw (d : LogGenerator.draws) : Q :=
  if LogGenerator.Qltb (LogGenerator.distribution_type d) 0.7%Q
  then LogGenerator.lognormal_8 d
  else if LogGenerator.Qltb (LogGenerator.distribution_type d) 0.9%Q
       then LogGenerator.normal_500 d
       else LogGenerator.normal_500000 d.

(** What is assumed of the draws apart from the size: [fake.ipv4()] is a
    token without white space, [fake.uri()] has no double quote and the
    log-normal sample of the response time is not negative. *)
Definition credible (d : LogGenerator.draws) : bool :=
  (tokenb NonSpace 1 (LogGenerator.fake_ipv4 d)
   && all_in not_quote (LogGenerator.fake_uri d)
   && Qle_bool 0 (LogGenerator.lognormal_3 d))%bool.

(** The fields with another text for the size. *)
Definition with_bytes (f : fields) (bytes : string) : fields :=
  Fields (f_ip f) (f_stamp f) (f_blank f) (f_sign f) (f_offset f) (f_method f)
    (f_api f) (f_protocol f) (f_status f) bytes (f_referrer f) (f_agent f)
    (f_response_time f).

(** The draws with a size of zero, of the first branch. *)
Definition with_no_size (d : LogGenerator.draws) : LogGenerator.draws :=
  LogGenerator.Draws (LogGenerator.method_u d) (LogGenerator.endpoint_u d)
    (LogGenerator.status_u d) (LogGenerator.referrer_u d) (LogGenerator.fake_uri d)
    (LogGenerator.ip_u d) (LogGenerator.ip_choice d) (LogGenerator.fake_ipv4 d)
    0%Q 0%Q (LogGenerator.normal_500 d) (LogGenerator.normal_500000 d)
    (LogGenerator.agent_u d) (LogGenerator.lognormal_3 d).

(** The entries the loop draws, minute by minute, over the week that ends
    at [now]. *)
Definition week_entries (now : Z) (rng : nat -> LogGenerator.minute_draws) : list nat :=
  map (fun i => entries_at (now - 7 * day_us + Z.of_nat i * LogGenerator.minute_us)%Z (rng i))
      (seq 0 LogGenerator.week_minutes).

(** The timestamps a run writes, given those the loop drew. *)
Definition kept (num_lines : Z) (randbelow : nat -> nat) (timestamps : list Z) : list Z :=
  LogGenerator.sort
    (if (num_lines <? Z.of_nat (length (LogGenerator.sort timestamps)))%Z
     then LogGenerator.select (LogGenerator.sort timestamps) (Z.to_nat num_lines) randbelow
     else LogGenerator.sort timestamps).

(** The month and the day of the day number [n] of a year, counted from
    zero, as [_ord2ymd] finds them. *)
Definition month_day (n : Z) (leapyear : bool) : Z * Z :=
  let month := Z.shiftr (n + 50) 5 in
  let preceding :=
    (LogGenerator.days_before_month month
     + (if ((2 <? month) && leapyear)%bool then 1 else 0))%Z in
  if (n <? preceding)%Z then
    let month := (month - 1)%Z in
    let preceding :=
      (preceding - (LogGenerator.DAYS_IN_MONTH month
                    + (if ((month =? 2) && leapyear)%bool then 1 else 0)))%Z in
    (month, (n - preceding + 1)%Z)
  else (month, (n - preceding + 1)%Z).

(** The check of a month and a day against the table of the module. *)
Definition month_day_ok (leapyear : bool) (md : Z * Z) : bool :=
  ((1 <=? fst md) && (fst md <=? 12) && (1 <=? snd md)
   && (snd md <=? LogGenerator.DAYS_IN_MONTH (fst md)
                  + (if ((fst md =? 2) && leapyear)%bool then 1 else 0)))%Z%bool.

(** The rows the loader makes of the entries written for the timestamps,
    from entry [i] on: a line with a negative size leaves none. *)
Fixpoint entry_rows (ua : string -> user_agent) (timestamps : list Z)
    (entry : nat -> LogGenerator.draws) (i : nat) : list Parsed.t :=
  match timestamps with
  | [] => []
  | t :: timestamps' =>
      (if (0 <=? LogGenerator.generate_bytes_sent (entry i))%Z
       then [entry_row ua (LogGenerator.of_micros t) (entry i)] else [])
      ++ entry_rows ua timestamps' entry (S i)
  end.


(** The number [n] under the sign [g]. *)
Definition signed (g : ascii) (n : Z) : Z := if Ascii.eqb g "-" then (- n)%Z else n.


(** ** The file between the generator and the loader *)

(** The text of a file to which the lines were written one after the
    other. *)
Definition file_text (lines : list string) : string :=
  fold_right append EmptyString lines.

(** The lines a text file gives when it is iterated over, each with its
    line end: a line ends at a line feed, at a carriage return, or at the
    two in this order, and its end is read as a line feed. *)
Fixpoint readlines (text : string) : list string :=
  match text with
  | EmptyString => []
  | String c text' =>
      if Ascii.eqb c "010" then String "010" EmptyString :: readlines text'
      else if Ascii.eqb c "013" then
        match text' with
        | String "010" text'' => String "010" EmptyString :: readlines text''
        | _ => String "010" EmptyString :: readlines text'
        end
      else
        match readlines text' with
        | [] => [String c EmptyString]
        | line :: lines => String c line :: lines
        end
  end.

(** Every character but the two that end a line. *)
Definition no_break : cclass := NoneOf (String "010" (String "013" EmptyString)).

(** What is assumed of the draws of an entry for it to make one line that
    the parser can read: on top of [credible], a fake referrer that holds
    no line end. *)
Definition one_line (d : LogGenerator.draws) : bool :=
  (credible d && all_in no_break (LogGenerator.fake_uri d))%bool.

Unset Implicit Arguments.

(** * Properties of the matcher *)

Lemma flat_map_map_l {A B C : Type} (f : B -> list C) (g : A -> B) (l : list A) :
  flat_map f (map g l) = flat_map (fun a => f (g a)) l.
Proof.
  induction l as [|a l IH]; simpl; [reflexivity | now rewrite IH].
Qed.

Lemma flat_map_nested {A B C : Type} (f : B -> list C) (g : A -> list B) (l : list A) :
  flat_map f (flat_map g l) = flat_map (fun a => flat_map f (g a)) l.
Proof.
  induction l as [|a l IH]; simpl; [reflexivity|].
  now rewrite flat_map_app, IH.
Qed.

Lemma flat_map_filter {A B : Type} (f : A -> list B) (p : A -> bool) (l : list A) :
  flat_map f (filter p l) = flat_map (fun a => if p a then f a else []) l.
Proof.
  induction l as [|a l IH]; simpl; [reflexivity|].
  destruct (p a); simpl; now rewrite IH.
Qed.

Lemma flat_map_unit {A : Type} (l : list A) : flat_map (fun a => [a]) l = l.
Proof.
  induction l as [|a l IH]; simpl; [reflexivity | now rewrite IH].
Qed.

Lemma matches_as_k (r : regex) (s : string) :
  matches r s = matches_k r s (fun h => [h]).
Proof. unfold matches_k. now rewrite flat_map_unit. Qed.

Section Continuations.

Context {A : Type}.
Implicit Type K : hit -> list A.

Lemma mk_cat r1 r2 s K :
  matches_k (Cat r1 r2) s K =
  matches_k r1 s (fun h1 => matches_k r2 (rest h1) (fun h2 => K (join h1 h2))).
Proof.
  unfold matches_k; simpl.
  rewrite flat_map_nested.
  apply flat_map_ext; intros h1.
  apply flat_map_map_l.
Qed.

Lemma mk_grp r s K :
  matches_k (Grp r) s K =
  matches_k r s (fun h => K (Hit (matched h) (rest h) (matched h :: groups h))).
Proof. unfold matches_k; simpl. apply flat_map_map_l. Qed.

Lemma mk_lit c s K :
  matches_k (Lit c) s K =
  match expect c s with
  | Some r => K (Hit (String c EmptyString) r [])
  | None => []
  end.
Proof.
  unfold matches_k; destruct s as [|a s]; simpl; [reflexivity|].
  destruct (Ascii.eqb_spec a c) as [->|]; simpl; [apply app_nil_r | reflexivity].
Qed.

Lemma mk_cls k s K :
  matches_k (Cls k) s K =
  match one k s with
  | Some t => K (Hit (fst t) (snd t) [])
  | None => []
  end.
Proof.
  unfold matches_k; destruct s as [|a s]; simpl; [reflexivity|].
  destruct (in_class k a); simpl; [apply app_nil_r | reflexivity].
Qed.

(** The runs a repetition offers, as a continuation sees them. *)
Lemma mk_rep k lo hi s K :
  matches_k (Rep k lo hi) s K =
  flat_map (fun mr => if Nat.leb lo (String.length (fst mr))
                      then K (Hit (fst mr) (snd mr) []) else [])
           (rep_runs k hi s).
Proof.
  unfold matches_k; simpl.
  rewrite flat_map_map_l, flat_map_filter. reflexivity.
Qed.

(** A bounded repetition [k{n}] takes exactly [n] characters. *)
Lemma runs_exact (F : string -> string -> list A) k n : forall s,
  flat_map (fun mr => if Nat.leb n (String.length (fst mr)) then F (fst mr) (snd mr) else [])
           (rep_runs k (Some n) s) =
  match exact k n s with
  | Some t => F (fst t) (snd t)
  | None => []
  end.
Proof.
  revert F; induction n as [|n IH]; intros F s.
  - destruct s as [|c s]; simpl.
    + apply app_nil_r.
    + rewrite andb_false_r; simpl. apply app_nil_r.
  - destruct s as [|c s]; simpl; [reflexivity|].
    destruct (in_class k c); simpl; [|reflexivity].
    rewrite flat_map_app, flat_map_map_l; simpl.
    rewrite app_nil_r.
    rewrite (IH (fun m r => F (String c m) r) s).
    destruct (exact k n s) as [t|]; reflexivity.
Qed.

Lemma mk_exact k n s K :
  matches_k (Rep k n (Some n)) s K =
  match exact k n s with
  | Some t => K (Hit (fst t) (snd t) [])
  | None => []
  end.
Proof.
  rewrite mk_rep.
  apply (runs_exact (fun m r => K (Hit m r []))).
Qed.

Lemma run_fst_nil k s : fst (run k s) = EmptyString -> snd (run k s) = s.
Proof.
  destruct s as [|c s]; simpl; [reflexivity|].
  destruct (in_class k c); simpl; [discriminate | reflexivity].
Qed.

Lemma run_fst_nostart k s : fst (run k s) = EmptyString <-> nostart k s = true.
Proof.
  destruct s as [|c s]; simpl; [tauto|].
  destruct (in_class k c); simpl; split; (discriminate || reflexivity).
Qed.

Lemma split_last_none s : split_last s = None <-> s = EmptyString.
Proof.
  destruct s as [|c s]; simpl; [tauto|].
  destruct (split_last s) as [[m z]|]; split; discriminate.
Qed.

(** A greedy run followed by something that cannot start inside the class:
    only the longest run survives. *)
Lemma runs_longest (F : string -> string -> list A) k :
  forall s,
  (forall m c r, in_class k c = true -> F m (String c r) = []) ->
  flat_map (fun mr => F (fst mr) (snd mr)) (rep_runs k None s) =
  F (fst (run k s)) (snd (run k s)).
Proof.
  intros s; revert F; induction s as [|a s IH]; intros F HF; simpl.
  - apply app_nil_r.
  - destruct (in_class k a) eqn:Ha; simpl.
    + rewrite flat_map_app, flat_map_map_l; simpl.
      rewrite (HF EmptyString a s Ha), app_nil_r.
      apply (IH (fun m r => F (String a m) r)).
      intros m c r Hc; now apply HF.
    + apply app_nil_r.
Qed.

Lemma mk_run k lo s K :
  (forall m c r, in_class k c = true -> K (Hit m (String c r) []) = []) ->
  matches_k (Rep k lo None) s K =
  match token k lo s with
  | Some t => K (Hit (fst t) (snd t) [])
  | None => []
  end.
Proof.
  intros HK. rewrite mk_rep.
  rewrite (runs_longest
             (fun m r => if Nat.leb lo (String.length m) then K (Hit m r []) else [])).
  - unfold token. destruct (Nat.leb lo (String.length (fst (run k s)))); reflexivity.
  - intros m c r Hc. rewrite (HK m c r Hc). now destruct (Nat.leb lo (String.length m)).
Qed.

(** A greedy run closed by a character [c] of its own class, after which the
    class is left: the run gives back exactly that [c]. *)
Lemma runs_until (F : string -> string -> list A) k c :
  in_class k c = true ->
  forall s,
  (forall m r, viable k c r = false -> F m r = []) ->
  flat_map (fun mr => F (fst mr) (snd mr)) (rep_runs k None s) =
  match split_last (fst (run k s)) with
  | Some (m, z) => if Ascii.eqb z c then F m (String c (snd (run k s))) else []
  | None => []
  end.
Proof.
  intros Hc s; revert F; induction s as [|a s IH]; intros F HF; simpl.
  - rewrite app_nil_r. now apply HF.
  - destruct (in_class k a) eqn:Ha; simpl.
    + rewrite flat_map_app, flat_map_map_l; simpl. rewrite app_nil_r.
      rewrite (IH (fun m r => F (String a m) r)) by (intros m r Hv; now apply HF).
      destruct (split_last (fst (run k s))) as [[m z]|] eqn:Hs.
      * rewrite (HF EmptyString (String a s)), app_nil_r; [reflexivity|].
        simpl. apply andb_false_iff; right.
        apply not_true_iff_false. rewrite <- run_fst_nostart.
        intros E. rewrite E in Hs. discriminate.
      * apply split_last_none in Hs. rewrite (run_fst_nil _ _ Hs). simpl.
        destruct (Ascii.eqb_spec a c) as [->|Hne]; [reflexivity|].
        apply HF. simpl. apply andb_false_iff; left. now apply Ascii.eqb_neq.
    + rewrite app_nil_r. apply HF. simpl.
      apply andb_false_iff; left. apply Ascii.eqb_neq. intros ->. congruence.
Qed.

Lemma mk_until k lo c s K :
  in_class k c = true ->
  (forall m r, viable k c r = false -> K (Hit m r []) = []) ->
  matches_k (Rep k lo None) s K =
  match token_until k lo c s with
  | Some t => K (Hit (fst t) (String c (snd t)) [])
  | None => []
  end.
Proof.
  intros Hc HK. rewrite mk_rep.
  rewrite (runs_until
             (fun m r => if Nat.leb lo (String.length m) then K (Hit m r []) else []) k c Hc).
  - unfold token_until.
    destruct (split_last (fst (run k s))) as [[m z]|]; [|reflexivity].
    destruct (Ascii.eqb z c); simpl; [|reflexivity].
    destruct (Nat.leb lo (String.length m)); reflexivity.
  - intros m r Hv. rewrite (HK m r Hv). now destruct (Nat.leb lo (String.length m)).
Qed.

End Continuations.

Lemma hd_error_app {A : Type} (l1 l2 : list A) :
  hd_error (l1 ++ l2) =
  match hd_error l1 with
  | Some x => Some x
  | None => hd_error l2
  end.
Proof. destruct l1; reflexivity. Qed.

Lemma leb_succ_r lo n : Nat.leb lo (S n) = Nat.leb (pred lo) n.
Proof. destruct lo; reflexivity. Qed.

(** The first hit of a greedy run with nothing after it is its longest. *)
Lemma runs_head {B : Type} (G : string -> string -> B) k : forall s lo,
  hd_error (flat_map (fun mr => if Nat.leb lo (String.length (fst mr))
                                then [G (fst mr) (snd mr)] else [])
                     (rep_runs k None s)) =
  if Nat.leb lo (String.length (fst (run k s)))
  then Some (G (fst (run k s)) (snd (run k s))) else None.
Proof.
  intros s; revert G; induction s as [|a s IH]; intros G lo; simpl.
  - now destruct (Nat.leb lo 0).
  - destruct (in_class k a); simpl.
    + rewrite flat_map_app, flat_map_map_l, hd_error_app; simpl.
      rewrite leb_succ_r.
      erewrite flat_map_ext.
      2:{ intros mr. rewrite leb_succ_r. reflexivity. }
      rewrite (IH (fun m r => G (String a m) r) (pred lo)).
      destruct (Nat.leb (pred lo) (String.length (fst (run k s)))) eqn:E; [reflexivity|].
      destruct lo as [|lo]; [discriminate E | reflexivity].
    + now destruct (Nat.leb lo 0).
Qed.

Lemma mk_run_head {B : Type} (f : hit -> B) k lo s :
  hd_error (matches_k (Rep k lo None) s (fun h => [f h])) =
  option_map (fun t => f (Hit (fst t) (snd t) [])) (token k lo s).
Proof.
  rewrite mk_rep.
  rewrite (runs_head (fun m r => f (Hit m r []))).
  unfold token. now destruct (Nat.leb lo (String.length (fst (run k s)))).
Qed.

(** Every character is among these. *)
Lemma all_ascii_complete (c : ascii) : In c (map ascii_of_nat (seq 0 256)).
Proof.
  apply in_map_iff. exists (nat_of_ascii c). split.
  - apply ascii_nat_embedding.
  - apply in_seq. pose proof (nat_ascii_bounded c). lia.
Qed.

Lemma for_all_ascii (p : ascii -> bool) :
  forallb p (map ascii_of_nat (seq 0 256)) = true -> forall c, p c = true.
Proof.
  intros H c. rewrite forallb_forall in H. apply H, all_ascii_complete.
Qed.

Lemma stamp_chars_not_space c : in_class stamp_chars c = true -> in_class Space c = false.
Proof.
  intros H.
  assert (D : forallb (fun c => negb (in_class stamp_chars c && in_class Space c))
                (map ascii_of_nat (seq 0 256)) = true) by (vm_compute; reflexivity).
  apply for_all_ascii with (c := c) in D. cbv beta in D.
  rewrite H in D. now destruct (in_class Space c).
Qed.

Lemma nonspace_neq_blank c : in_class NonSpace c = true -> Ascii.eqb c " " = false.
Proof.
  intros H. destruct (Ascii.eqb_spec c " ") as [->|]; [discriminate H | reflexivity].
Qed.

Lemma digit_neq_blank c : in_class Digit c = true -> Ascii.eqb c " " = false.
Proof.
  intros H. destruct (Ascii.eqb_spec c " ") as [->|]; [discriminate H | reflexivity].
Qed.

Lemma not_quote_neq_quote c : in_class not_quote c = true -> Ascii.eqb c Char.dquote = false.
Proof.
  intros H. destruct (Ascii.eqb_spec c Char.dquote) as [->|]; [discriminate H | reflexivity].
Qed.

Ltac side_run :=
  intros; cbv beta; cbn [rest matched groups];
  rewrite mk_cat;
  first
    [ rewrite mk_lit; cbn [expect];
      first [ rewrite nonspace_neq_blank by assumption
            | rewrite digit_neq_blank by assumption
            | rewrite not_quote_neq_quote by assumption ]
    | rewrite mk_cls; cbn [one]; rewrite stamp_chars_not_space by assumption ];
  reflexivity.

Ltac side_until :=
  first
    [ reflexivity
    | let m := fresh "m" in
      let r := fresh "r" in
      let Hv := fresh "Hv" in
      intros m r Hv; cbv beta; cbn [rest matched groups];
      rewrite mk_cat, mk_lit;
      destruct r as [|? r]; cbn [expect]; [reflexivity|];
      match goal with
      | |- context [Ascii.eqb ?a Char.dquote] =>
          destruct (Ascii.eqb_spec a Char.dquote); [subst|reflexivity]
      end;
      cbn [rest]; rewrite mk_cat, mk_lit;
      destruct r as [|? r]; cbn [expect]; [reflexivity|];
      cbn [viable nostart] in Hv;
      rewrite nonspace_neq_blank; [reflexivity|];
      rewrite Ascii.eqb_refl in Hv; cbn [andb] in Hv;
      now apply negb_false_iff in Hv ].

Lemma expect_same c s : expect c (String c s) = Some s.
Proof. simpl. now rewrite Ascii.eqb_refl. Qed.

Ltac reader_case :=
  cbv beta; cbn [rest matched groups join];
  first
    [ rewrite expect_same; cbv beta iota
    | match goal with
      | |- context [match ?o with Some _ => _ | None => [] end] =>
          let E := fresh "E" in
          destruct o as [?|] eqn:E;
          cbn [obind option_map hd_error fst snd]; [|reflexivity]
      end ].

Ltac scan_step :=
  first
    [ rewrite mk_cat, mk_lit
    | rewrite mk_cat, mk_cls
    | rewrite mk_cat, mk_grp, mk_exact
    | rewrite mk_cat, mk_grp, mk_run by side_run
    | rewrite mk_cat, mk_grp, (mk_until _ _ Char.dquote) by side_until
    | rewrite mk_cat, mk_run by side_run
    | rewrite mk_exact
    | rewrite mk_cat, mk_grp ];
  try reader_case.

Theorem scan_correct (s : string) :
  option_map (fun h => (groups h, rest h)) (re_match pattern s) = scan s.
Proof.
  unfold re_match. rewrite matches_as_k.
  unfold pattern, sp, quo, plus, star, times.
  unfold scan, pieces, not_quote. cbn [scan_pieces read]. unfold stamp, stamp_chars.
  repeat scan_step.
  rewrite mk_grp. cbv beta.
  rewrite mk_run_head.
  match goal with
  | |- context [token Digit 1 ?x] => destruct (token Digit 1 x) as [t|]
  end; reflexivity.
Qed.

(** * Properties of the readers *)

Lemma sapp_assoc (a b c : string) : ((a ++ b) ++ c = a ++ (b ++ c))%string.
Proof. induction a as [|x a IH]; simpl; [reflexivity | now rewrite IH]. Qed.

Lemma sapp_nil_r (a : string) : (a ++ "" = a)%string.
Proof. induction a as [|x a IH]; simpl; [reflexivity | now rewrite IH]. Qed.


Lemma all_in_app k (a b : string) :
  all_in k (a ++ b) = (all_in k a && all_in k b)%bool.
Proof.
  induction a as [|x a IH]; simpl; [reflexivity|].
  now rewrite IH, andb_assoc.
Qed.


(** What [run] returns: the text split at the end of its longest run. *)
Lemma run_spec k s :
  s = (fst (run k s) ++ snd (run k s))%string
  /\ all_in k (fst (run k s)) = true
  /\ nostart k (snd (run k s)) = true.
Proof.
  induction s as [|c s (E & Ha & Hn)]; simpl; [auto|].
  destruct (in_class k c) eqn:Hc; simpl.
  - rewrite Hc, Ha, <- E. auto.
  - rewrite Hc. auto.
Qed.

(** A run goes through a prefix of its class and on into what follows. *)
Lemma run_app k (m y : string) :
  all_in k m = true ->
  run k (m ++ y) = ((m ++ fst (run k y))%string, snd (run k y)).
Proof.
  induction m as [|c m IH]; simpl; intros H.
  - now destruct (run k y).
  - apply andb_true_iff in H as [Hc Hm]. rewrite Hc, (IH Hm). reflexivity.
Qed.

Lemma run_stop k (m r : string) :
  all_in k m = true -> nostart k r = true -> run k (m ++ r) = (m, r).
Proof.
  intros Hm Hr. rewrite run_app by assumption.
  apply run_fst_nostart in Hr. rewrite Hr, (run_fst_nil _ _ Hr), sapp_nil_r.
  reflexivity.
Qed.

Lemma token_spec k lo s t :
  token k lo s = Some t ->
  s = (fst t ++ snd t)%string /\ all_in k (fst t) = true
  /\ nostart k (snd t) = true /\ lo <= String.length (fst t).
Proof.
  unfold token. destruct (Nat.leb_spec lo (String.length (fst (run k s)))); [|discriminate].
  intros [= <-]. destruct (run_spec k s) as (E & Ha & Hn). auto.
Qed.

Lemma token_intro k lo (m r : string) :
  all_in k m = true -> nostart k r = true -> lo <= String.length m ->
  token k lo (m ++ r) = Some (m, r).
Proof.
  intros Hm Hr Hlo. unfold token. rewrite run_stop by assumption. simpl.
  apply Nat.leb_le in Hlo. now rewrite Hlo.
Qed.


Lemma expect_spec c s r : expect c s = Some r <-> s = String c r.
Proof.
  destruct s as [|a s]; simpl; [split; discriminate|].
  destruct (Ascii.eqb_spec a c) as [->|Hne]; split; intros H; inversion H; subst;
    try reflexivity; congruence.
Qed.

Lemma one_spec k s t :
  one k s = Some t <->
  exists a, s = String a (snd t) /\ fst t = String a EmptyString /\ in_class k a = true.
Proof.
  destruct s as [|a s]; simpl.
  - split; [discriminate | intros (b & E & _); discriminate].
  - destruct (in_class k a) eqn:Ha; split.
    + intros [= <-]. exists a. auto.
    + intros (b & [= <- E] & Ef & _). destruct t; simpl in *; subst. reflexivity.
    + discriminate.
    + intros (b & [= <- E] & _ & Hb). congruence.
Qed.

Lemma exact_spec k n : forall s t,
  exact k n s = Some t ->
  s = (fst t ++ snd t)%string /\ all_in k (fst t) = true /\ String.length (fst t) = n.
Proof.
  induction n as [|n IH]; intros s t; simpl.
  - intros [= <-]. auto.
  - destruct s as [|c s]; [discriminate|].
    destruct (in_class k c) eqn:Hc; [|discriminate].
    destruct (exact k n s) as [u|] eqn:E; [|discriminate].
    intros [= <-]. destruct (IH _ _ E) as (Es & Ha & Hl). simpl.
    rewrite Hc, Ha, Hl, <- Es. auto.
Qed.

Lemma exact_intro k (m r : string) :
  all_in k m = true -> exact k (String.length m) (m ++ r) = Some (m, r).
Proof.
  induction m as [|c m IH]; simpl; intros H; [reflexivity|].
  apply andb_true_iff in H as [Hc Hm]. now rewrite Hc, (IH Hm).
Qed.

Lemma split_last_app (m : string) z :
  split_last (m ++ String z EmptyString) = Some (m, z).
Proof.
  induction m as [|c m IH]; simpl; [reflexivity | now rewrite IH].
Qed.

Lemma split_last_inv s : forall m z,
  split_last s = Some (m, z) -> s = (m ++ String z EmptyString)%string.
Proof.
  induction s as [|c s IH]; intros m z; simpl; [discriminate|].
  destruct (split_last s) as [[m' z']|] eqn:E.
  - intros [= <- <-]. simpl. f_equal. now apply IH.
  - apply split_last_none in E. subst s. now intros [= <- <-].
Qed.

Lemma token_until_spec k lo c s t :
  token_until k lo c s = Some t ->
  s = (fst t ++ String c (snd t))%string /\ all_in k (fst t) = true
  /\ in_class k c = true /\ nostart k (snd t) = true /\ lo <= String.length (fst t).
Proof.
  unfold token_until.
  destruct (split_last (fst (run k s))) as [[m z]|] eqn:E; [|discriminate].
  destruct (Ascii.eqb_spec z c) as [->|]; [|discriminate]; simpl.
  destruct (Nat.leb_spec lo (String.length m)); [|discriminate].
  intros [= <-]; simpl.
  apply split_last_inv in E.
  destruct (run_spec k s) as (Es & Ha & Hn).
  rewrite E, all_in_app in Ha. apply andb_true_iff in Ha as [Hm Hc].
  simpl in Hc. rewrite andb_true_r in Hc.
  rewrite E, sapp_assoc in Es. simpl in Es. auto.
Qed.

Lemma token_until_intro k lo c (m r : string) :
  all_in k m = true -> in_class k c = true -> nostart k r = true ->
  lo <= String.length m ->
  token_until k lo c (m ++ String c r) = Some (m, r).
Proof.
  intros Hm Hc Hr Hlo. unfold token_until.
  replace (m ++ String c r)%string with ((m ++ String c EmptyString) ++ r)%string
    by (now rewrite sapp_assoc).
  rewrite run_stop; [|rewrite all_in_app, Hm; simpl; now rewrite Hc|assumption].
  simpl. rewrite split_last_app.
  rewrite Ascii.eqb_refl. apply Nat.leb_le in Hlo. now rewrite Hlo.
Qed.

(** ** Text appended to a line *)

Lemma sapp_not_nil (a b : string) : b <> EmptyString -> (a ++ b)%string <> EmptyString.
Proof. destruct a; simpl; [auto | discriminate]. Qed.






Lemma stamp_inv s t :
  stamp s = Some t ->
  exists w b g z,
    token stamp_chars 1 s = Some w /\ one Space (snd w) = Some b
    /\ one (OneOf "+-") (snd b) = Some g /\ exact Digit 4 (snd g) = Some z
    /\ t = ((fst w ++ fst b ++ fst g ++ fst z)%string, snd z).
Proof.
  unfold stamp.
  destruct (token stamp_chars 1 s) as [w|] eqn:Ew; [|discriminate]; cbn [obind].
  destruct (one Space (snd w)) as [b|] eqn:Eb; [|discriminate]; cbn [obind].
  destruct (one (OneOf "+-") (snd b)) as [g|] eqn:Eg; [|discriminate]; cbn [obind].
  destruct (exact Digit 4 (snd g)) as [z|] eqn:Ez; [|discriminate]; cbn [obind].
  intros [= <-]. exists w, b, g, z. repeat split; assumption.
Qed.

Lemma stamp_spec s t : stamp s = Some t -> s = (fst t ++ snd t)%string.
Proof.
  intros H. apply stamp_inv in H as (w & b & g & z & Hw & Hb & Hg & Hz & ->).
  apply token_spec in Hw as (Ew & _).
  apply one_spec in Hb as (cb & Eb & Fb & _).
  apply one_spec in Hg as (cg & Eg & Fg & _).
  apply exact_spec in Hz as (Ez & _).
  simpl. rewrite Ew at 1. rewrite Eb, Fb, Eg, Fg, Ez at 1.
  rewrite !sapp_assoc. simpl. reflexivity.
Qed.






(** The groups the pieces add to [acc]. *)
Lemma scan_pieces_acc ps : forall acc s,
  scan_pieces ps acc s =
  option_map (fun a => (acc ++ fst a, snd a)) (scan_pieces ps [] s).
Proof.
  induction ps as [|p ps IH]; intros acc s; cbn [scan_pieces].
  - simpl. now rewrite app_nil_r.
  - destruct (read p s) as [b|]; cbn [obind]; [|reflexivity].
    rewrite (IH (acc ++ fst b)), (IH ([] ++ fst b)). cbn [app].
    destruct (scan_pieces ps [] (snd b)) as [a|]; simpl; [|reflexivity].
    now rewrite app_assoc.
Qed.

(** ** The parser through the deterministic reading *)

Lemma parse_via_scan ua line :
  parse_log_line ua line =
  match scan line with
  | Some gr => row_of_groups ua (fst gr)
  | None => Ok None
  end.
Proof.
  unfold parse_log_line. rewrite <- scan_correct.
  destruct (re_match pattern line); reflexivity.
Qed.


(** ** [int(text)] on digits *)

Lemma digit_not_space c : Char.is_digit c = true -> Char.is_space c = false.
Proof.
  intros H.
  assert (D : forallb (fun c => negb (Char.is_digit c && Char.is_space c))
                (map ascii_of_nat (seq 0 256)) = true) by (vm_compute; reflexivity).
  apply for_all_ascii with (c := c) in D. cbv beta in D.
  rewrite H in D. now destruct (Char.is_space c).
Qed.



Lemma rstrip_digits s : all_in Digit s = true -> rstrip s = s.
Proof.
  induction s as [|c s IH]; simpl; intros H; [reflexivity|].
  apply andb_true_iff in H as [Hc Hs]. rewrite (IH Hs).
  destruct s; [|reflexivity]. now rewrite (digit_not_space _ Hc).
Qed.

Lemma strip_digits s : all_in Digit s = true -> strip s = s.
Proof.
  intros H. unfold strip.
  assert (E : lstrip s = s).
  { destruct s as [|c s]; simpl in *; [reflexivity|].
    apply andb_true_iff in H as [Hc _]. now rewrite (digit_not_space _ Hc). }
  rewrite E. now apply rstrip_digits.
Qed.


Lemma row_of_groups_inv ua gs row :
  row_of_groups ua gs = Ok (Some row) ->
  exists g1 g2 g3 g4 g5 g6 g7 g8 g9 g10 g11 g12 dt st bs rt,
    gs = [g1; g2; g3; g4; g5; g6; g7; g8; g9; g10; g11; g12]
    /\ strptime g4 = Ok dt /\ py_int g8 = Ok st /\ py_int g9 = Ok bs
    /\ py_int g12 = Ok rt
    /\ row = Parsed.Make g1 g2 g3 dt g5 g6 g7 st bs g10 g11
               (browser_family (ua g11)) (os_family (ua g11))
               (device_family (ua g11)) rt.
Proof.
  intros H.
  do 12 (destruct gs as [|? gs]; [discriminate H|]).
  destruct gs; [|discriminate H].
  cbn [row_of_groups] in H.
  destruct (strptime s2) as [dt|] eqn:E1; [|discriminate H]; cbn [bind] in H.
  destruct (py_int s6) as [st|] eqn:E2; [|discriminate H]; cbn [bind] in H.
  destruct (py_int s7) as [bs|] eqn:E3; [|discriminate H]; cbn [bind] in H.
  destruct (py_int s10) as [rt|] eqn:E4; [|discriminate H]; cbn [bind] in H.
  injection H as <-.
  do 12 eexists. exists dt, st, bs, rt. repeat split; eassumption.
Qed.




(** * The parser and the loader *)

(** C5: the line of the concrete scenario parses into the stated fields,
    with the timestamp 2023-10-10T13:55:36 at UTC offset zero. *)
Theorem parse_sample_line ua :
  exists row,
    parse_log_line ua sample_line = Ok (Some row)
    /\ Parsed.ip row = "192.168.1.1"
    /\ Parsed.method row = "GET"
    /\ Parsed.api row = "/api/users"
    /\ Parsed.status row = 200%Z
    /\ Parsed.bytes_sent row = 1024%Z
    /\ Parsed.response_time row = 45%Z
    /\ Parsed.referrer row = "-"
    /\ Parsed.datetime row = Datetime 2023 10 10 13 55 36 0 (Some 0%Z).
Proof.
  eexists. split; [vm_compute; reflexivity|].
  repeat split.
Qed.

Lemma row_of_groups_some ua gs : row_of_groups ua gs <> Ok None.
Proof.
  intros H.
  do 12 (destruct gs as [|? gs]; [discriminate H|]).
  destruct gs; [|discriminate H].
  cbn [row_of_groups] in H.
  destruct (strptime s2); [|discriminate H]; cbn [bind] in H.
  destruct (py_int s6); [|discriminate H]; cbn [bind] in H.
  destruct (py_int s7); [|discriminate H]; cbn [bind] in H.
  destruct (py_int s10); [|discriminate H]; cbn [bind] in H.
  discriminate H.
Qed.

Lemma parse_none_iff ua line :
  parse_log_line ua line = Ok None <-> re_match pattern line = None.
Proof.
  rewrite parse_via_scan, <- scan_correct.
  destruct (re_match pattern line) as [m|]; cbn [option_map]; [|tauto].
  split; [|discriminate]. intros H. now apply row_of_groups_some in H.
Qed.

Lemma load_loop_skip ua line after : forall before data,
  parse_log_line ua (strip line) = Ok None ->
  load_loop ua data (before ++ line :: after) = load_loop ua data (before ++ after).
Proof.
  induction before as [|l before IH]; intros data H; cbn [app load_loop].
  - now rewrite H.
  - destruct (parse_log_line ua (strip l)) as [[row|]|e]; cbn [bind]; auto.
Qed.

(** C1, as amended: a line the pattern does not match is dropped without an
    exception, and putting it anywhere in a file changes nothing of what
    loading the file returns. *)
Theorem unmatched_line_is_skipped ua before line after :
  re_match pattern (strip line) = None ->
  parse_log_line ua (strip line) = Ok None
  /\ load_log_data ua (before ++ line :: after) = load_log_data ua (before ++ after).
Proof.
  intros H. apply (parse_none_iff ua) in H. split; [exact H|].
  unfold load_log_data. now apply load_loop_skip.
Qed.

Lemma unmatched_line_is_skipped_witness :
  re_match pattern (strip "not a valid log line") = None
  /\ load_log_data other_agent ([sample_line] ++ "not a valid log line" :: [sample_line])
     = load_log_data other_agent ([sample_line] ++ [sample_line]).
Proof.
  assert (H : re_match pattern (strip "not a valid log line") = None)
    by (vm_compute; reflexivity).
  split; [exact H|].
  exact (proj2 (unmatched_line_is_skipped other_agent [sample_line]
                  "not a valid log line" [sample_line] H)).
Defined.

(** C1, as stated, fails: a timestamp of the right shape that is no date
    raises out of the parser and out of the loader, which then returns none
    of the rows around it; and a line the pattern does not match leaves no
    trace in what the loader returns. *)
Lemma bad_date_aborts_load :
  parse_log_line other_agent bad_date_line = Raise ValueError
  /\ load_log_data other_agent [sample_line; bad_date_line; sample_line] = Raise ValueError
  /\ (exists r1 r2, load_log_data other_agent [sample_line; sample_line] = Ok [r1; r2])
  /\ parse_log_line other_agent "not a valid log line" = Ok None
  /\ load_log_data other_agent ["not a valid log line"] = load_log_data other_agent [].
Proof.
  split; [vm_compute; reflexivity|].
  split; [vm_compute; reflexivity|].
  split; [do 2 eexists; vm_compute; reflexivity|].
  split; vm_compute; reflexivity.
Qed.

Lemma load_loop_ok ua : forall lines data,
  (forall line e, In line lines -> parse_log_line ua (strip line) <> Raise e) ->
  load_loop ua data lines = Ok (data ++ rows_of ua lines)
  /\ length (rows_of ua lines) + length (filter unmatched lines) = length lines.
Proof.
  induction lines as [|l lines IH]; intros data H; cbn [load_loop rows_of flat_map filter].
  - now rewrite app_nil_r.
  - assert (H' : forall line e, In line lines -> parse_log_line ua (strip line) <> Raise e)
      by (intros line e Hin; apply H; now right).
    fold (rows_of ua lines). unfold unmatched at 1.
    destruct (parse_log_line ua (strip l)) as [[row|]|e] eqn:E; cbn [bind].
    + destruct (IH (data ++ [row]) H') as [E1 E2].
      rewrite E1, <- app_assoc. split; [reflexivity|].
      destruct (re_match pattern (strip l)) eqn:Em.
      * cbn [is_none app length]. lia.
      * apply (parse_none_iff ua) in Em. congruence.
    + destruct (IH data H') as [E1 E2]. rewrite E1. split; [reflexivity|].
      apply parse_none_iff in E. rewrite E. cbn [is_none app length]. lia.
    + exfalso. apply (H l e); [now left | exact E].
Qed.

Lemma blank_unmatched line : blank line = true -> unmatched line = true.
Proof.
  unfold blank, unmatched. intros H. apply String.eqb_eq in H. now rewrite H.
Qed.

(** C3, as amended: when no line raises, loading returns the rows of the
    lines that parse, in input order; every other line, blank or not, is
    dropped and recorded nowhere, so rows plus unmatched lines make up the
    input. *)
Theorem load_log_data_counts ua lines :
  (forall line e, In line lines -> parse_log_line ua (strip line) <> Raise e) ->
  load_log_data ua lines = Ok (rows_of ua lines)
  /\ length (rows_of ua lines) + length (filter unmatched lines) = length lines
  /\ (forall line, blank line = true -> unmatched line = true).
Proof.
  intros H. destruct (load_loop_ok ua lines [] H) as [E1 E2].
  split; [exact E1|]. split; [exact E2|]. exact blank_unmatched.
Qed.

Lemma load_log_data_counts_witness :
  load_log_data other_agent [sample_line; "not a valid log line"; "   "; sample_line]
  = Ok (rows_of other_agent [sample_line; "not a valid log line"; "   "; sample_line])
  /\ length (rows_of other_agent [sample_line; "not a valid log line"; "   "; sample_line])
     + length (filter unmatched [sample_line; "not a valid log line"; "   "; sample_line])
     = 4.
Proof.
  assert (H : forall line e,
             In line [sample_line; "not a valid log line"; "   "; sample_line] ->
             parse_log_line other_agent (strip line) <> Raise e).
  { intros line e [<-|[<-|[<-|[<-|[]]]]]; vm_compute; discriminate. }
  destruct (load_log_data_counts other_agent _ H) as (E1 & E2 & _).
  split; [exact E1 | exact E2].
Defined.

(** C3, as stated, fails: the data frame is all that loading returns, and a
    malformed line, a blank line and no line at all give the same data
    frame, so no count of failures can be read off it. *)
Lemma failures_not_recorded :
  ~ exists failures : list Parsed.t -> nat,
      forall lines df,
        load_log_data other_agent lines = Ok df ->
        length df + failures df + length (filter blank lines) = length lines.
Proof.
  intros (failures & H).
  assert (H1 := H ["not a valid log line"] [] eq_refl).
  assert (H2 := H [] [] eq_refl).
  vm_compute in H1, H2. lia.
Qed.

(** * The dashboard *)

(** C4, as stated, fails: over no row the two metrics are NaN, an ordinary
    float, and nothing is raised or signalled. *)
Lemma metrics_of_empty_are_nan :
  mean_response_time [] = NaN /\ success_rate [] = NaN.
Proof. split; reflexivity. Qed.

Lemma mean_nan_iff xs : mean xs = NaN <-> xs = [].
Proof. destruct xs; simpl; split; congruence. Qed.

(** C4, as amended: the mean response time and the success rate are NaN
    exactly over a data frame without rows, where the count of requests is
    zero; over any other data frame they are numbers. *)
Theorem metrics_nan_iff_empty df :
  (mean_response_time df = NaN <-> df = [])
  /\ (success_rate df = NaN <-> df = [])
  /\ (total_requests df = 0 <-> df = []).
Proof.
  unfold mean_response_time, success_rate, total_requests. repeat split.
  - intros H. apply mean_nan_iff in H. now destruct df.
  - now intros ->.
  - intros H. destruct df; [reflexivity | discriminate H].
  - now intros ->.
  - intros H. now destruct df.
  - now intros ->.
Qed.

Lemma lex_eq_r c : lex c Eq = c.
Proof. now destruct c. Qed.

Lemma date_ge_leb d s : date_ge d (Timestamp s) = date_leb s d.
Proof.
  unfold date_ge, date_leb, datetime_leb, datetime_compare, date_compare, Timestamp.
  cbn [year month day hour minute second microsecond].
  rewrite Z.compare_refl. cbn [lex]. now rewrite lex_eq_r.
Qed.

Lemma date_le_leb d e : date_le d (Timestamp e) = date_leb d e.
Proof.
  unfold date_le, date_leb, datetime_leb, datetime_compare, date_compare, Timestamp.
  cbn [year month day hour minute second microsecond].
  rewrite Z.compare_refl. cbn [lex]. now rewrite lex_eq_r.
Qed.

Lemma isin_Z x values : isin Z.eqb x values = true <-> In x values.
Proof.
  unfold isin. rewrite existsb_exists. split.
  - intros (y & Hy & E). apply Z.eqb_eq in E. now subst.
  - intros H. exists x. split; [exact H | apply Z.eqb_refl].
Qed.

Lemma isin_string x values : isin String.eqb x values = true <-> In x values.
Proof.
  unfold isin. rewrite existsb_exists. split.
  - intros (y & Hy & E). apply String.eqb_eq in E. now subst.
  - intros H. exists x. split; [exact H | apply String.eqb_refl].
Qed.

Lemma mask_spec date_range status_codes methods row :
  mask date_range status_codes methods row = true <->
  date_leb (fst date_range) (dt_date (Parsed.datetime row)) = true
  /\ date_leb (dt_date (Parsed.datetime row)) (snd date_range) = true
  /\ In (Parsed.status row) status_codes
  /\ In (Parsed.method row) methods.
Proof.
  unfold mask. rewrite date_ge_leb, date_le_leb, !andb_true_iff, isin_Z, isin_string.
  tauto.
Qed.

(** C6: the filter keeps a row exactly when its date is within the range,
    both ends included, its status is among the selected codes and its
    method among the selected methods; with no code or no method selected
    nothing is kept. *)
Theorem filter_keeps_exactly df date_range status_codes methods :
  (forall row,
      In row (filtered_df df date_range status_codes methods) <->
      In row df
      /\ date_leb (fst date_range) (dt_date (Parsed.datetime row)) = true
      /\ date_leb (dt_date (Parsed.datetime row)) (snd date_range) = true
      /\ In (Parsed.status row) status_codes
      /\ In (Parsed.method row) methods)
  /\ filtered_df df date_range status_codes methods
     = filter (fun row =>
                 date_leb (fst date_range) (dt_date (Parsed.datetime row))
                 && date_leb (dt_date (Parsed.datetime row)) (snd date_range)
                 && existsb (Z.eqb (Parsed.status row)) status_codes
                 && existsb (String.eqb (Parsed.method row)) methods) df
  /\ length (filtered_df df date_range [] methods) = 0
  /\ length (filtered_df df date_range status_codes []) = 0.
Proof.
  unfold filtered_df. split; [|split; [|split]].
  - intros row. rewrite filter_In, mask_spec. tauto.
  - apply filter_ext. intros row. unfold mask, isin.
    now rewrite date_ge_leb, date_le_leb.
  - induction df as [|row df IH]; [reflexivity|]. cbn [filter].
    unfold mask at 1. cbn [isin existsb]. now rewrite andb_false_r.
  - induction df as [|row df IH]; [reflexivity|]. cbn [filter].
    unfold mask at 1. cbn [isin existsb]. now rewrite andb_false_r.
Qed.

Lemma count_into_sum k gs : sum_counts (count_into k gs) = S (sum_counts gs).
Proof.
  unfold sum_counts.
  induction gs as [|[k' n] gs IH]; cbn [count_into]; [reflexivity|].
  destruct (datetime_compare k k'); cbn [map fold_right snd] in *.
  - reflexivity.
  - reflexivity.
  - rewrite IH. lia.
Qed.

Lemma groupby_sum keys : forall gs,
  sum_counts (fold_left (fun gs k => count_into k gs) keys gs)
  = length keys + sum_counts gs.
Proof.
  induction keys as [|k keys IH]; intros gs; cbn [fold_left length]; [reflexivity|].
  rewrite IH, count_into_sum. lia.
Qed.

(** C8: the counts of the hourly groups add up to the number of rows. *)
Theorem hourly_counts_sum df : sum_counts (hourly_requests df) = length df.
Proof.
  unfold hourly_requests, groupby_size.
  rewrite groupby_sum, length_map. unfold sum_counts. simpl. lia.
Qed.

(** * The generator *)

Module GeneratorFacts.

Import LogGenerator.

(** C2, at the failing input: with a draw of -3.2 from the normal law of
    the small responses the generator writes a size of -3, and the parser
    does not match the line. *)
Theorem negative_size_line_is_not_parsed ua :
  exists line,
    generate_log_entry Inputs.a_timestamp Inputs.negative_size_draws = Ok line
    /\ generate_bytes_sent Inputs.negative_size_draws = (-3)%Z
    /\ parse_log_line ua (strip line) = Ok None
    /\ load_log_data ua [line] = Ok [].
Proof.
  eexists. split; [vm_compute; reflexivity|].
  split; [reflexivity|].
  split.
  - apply parse_none_iff. vm_compute. reflexivity.
  - unfold load_log_data. cbn [load_loop].
    rewrite (proj2 (parse_none_iff ua _)) by (vm_compute; reflexivity).
    reflexivity.
Qed.

(** ** The volume of a run *)

Lemma add_inv t delta r :
  add t delta = Ok r -> r = (t + delta)%Z /\ (0 <= r < MAXORDINAL * day_us)%Z.
Proof.
  unfold add.
  destruct ((0 <=? t + delta)%Z && (t + delta <? MAXORDINAL * day_us)%Z)%bool eqn:E;
    [|discriminate].
  intros [= <-]. apply andb_true_iff in E as [E1 E2].
  apply Z.leb_le in E1. apply Z.ltb_lt in E2. auto.
Qed.

Lemma add_in_range t delta :
  (0 <= t + delta < MAXORDINAL * day_us)%Z -> add t delta = Ok (t + delta)%Z.
Proof.
  intros [H1 H2]. unfold add.
  apply Z.leb_le in H1. apply Z.ltb_lt in H2. now rewrite H1, H2.
Qed.

Lemma add_entries_length current_time seconds : forall num i timestamps ts,
  add_entries current_time seconds i num timestamps = Ok ts ->
  length ts = length timestamps + num.
Proof.
  induction num as [|num IH]; intros i timestamps ts; cbn [add_entries].
  - intros [= <-]. lia.
  - destruct (add current_time (timedelta_seconds (seconds i))) as [t|]; [|discriminate].
    cbn [bind]. intros H. apply IH in H. rewrite length_app in H. simpl in H. lia.
Qed.

(** The loop appends as many timestamps as [drawn] counts. *)
Lemma minutes_loop_length end_time rng : forall fuel current_time i timestamps ts,
  minutes_loop fuel current_time end_time rng i timestamps = Ok ts ->
  length ts = length timestamps + drawn fuel current_time end_time rng i.
Proof.
  induction fuel as [|fuel IH]; intros current_time i timestamps ts;
    cbn [minutes_loop drawn].
  - intros [= <-]. lia.
  - destruct (current_time <? end_time)%Z; [|intros [= <-]; lia].
    fold (entries_at current_time (rng i)).
    destruct (add_entries current_time (random_seconds (rng i)) 0
                (entries_at current_time (rng i)) timestamps) as [ts1|] eqn:E1;
      [|discriminate].
    cbn [bind].
    destruct (add current_time minute_us) as [next|] eqn:E2; [|discriminate].
    cbn [bind]. intros H.
    apply add_inv in E2 as [-> _].
    apply IH in H. apply add_entries_length in E1. lia.
Qed.

Lemma insert_length x l : length (insert x l) = S (length l).
Proof.
  induction l as [|y l IH]; cbn [insert]; [reflexivity|].
  destruct (x <=? y)%Z; cbn [length]; [reflexivity | now rewrite IH].
Qed.

Lemma sort_length l : length (sort l) = length l.
Proof.
  induction l as [|x l IH]; [reflexivity|].
  unfold sort in *. cbn [fold_right length]. now rewrite insert_length, IH.
Qed.

Lemma insert_in x l y : In y (insert x l) <-> y = x \/ In y l.
Proof.
  induction l as [|z l IH]; cbn [insert].
  - simpl. intuition.
  - destruct (x <=? z)%Z; simpl; [intuition|]. rewrite IH. simpl. intuition.
Qed.

Lemma insert_sorted x l :
  StronglySorted Z.le l -> StronglySorted Z.le (insert x l).
Proof.
  induction 1 as [|y l Hs IH Hall]; cbn [insert].
  - repeat constructor.
  - destruct (Z.leb_spec x y).
    + constructor; [now constructor|].
      constructor; [assumption|].
      eapply Forall_impl; [|exact Hall]. intros z Hz. simpl in Hz. lia.
    + constructor; [assumption|].
      apply Forall_forall. intros z Hz. apply insert_in in Hz as [->|Hz]; [lia|].
      rewrite Forall_forall in Hall. now apply Hall.
Qed.

(** [list.sort()] leaves the list in ascending order. *)
Lemma sort_sorted l : StronglySorted Z.le (sort l).
Proof.
  induction l as [|x l IH]; [constructor|].
  unfold sort in *. cbn [fold_right]. now apply insert_sorted.
Qed.

Lemma remove_nth_length : forall j l,
  j < length l -> length (remove_nth j l) = pred (length l).
Proof.
  induction j as [|j IH]; intros [|x l] H; simpl in *; try lia.
  rewrite IH by lia. destruct l; simpl in *; lia.
Qed.

Lemma select_length randbelow : forall k pool,
  k <= length pool -> length (select pool k randbelow) = k.
Proof.
  induction k as [|k IH]; intros pool H; [reflexivity|].
  destruct pool as [|x pool]; [simpl in H; lia|].
  cbn [select length]. f_equal. apply IH.
  rewrite remove_nth_length.
  - simpl in *. lia.
  - apply Nat.mod_upper_bound. simpl. lia.
Qed.

(** The synthesizer never fails: the four tables are not empty and their
    weights add up to more than zero. *)
Lemma generate_log_entry_ok timestamp d :
  exists line, generate_log_entry timestamp d = Ok line.
Proof. unfold generate_log_entry. eexists. reflexivity. Qed.

Lemma write_entries_length entry : forall timestamps i,
  exists lines,
    write_entries timestamps entry i = Ok lines /\ length lines = length timestamps.
Proof.
  induction timestamps as [|t timestamps IH]; intros i; cbn [write_entries].
  - now exists [].
  - destruct (generate_log_entry_ok (of_micros t) (entry i)) as (line & ->).
    destruct (IH (S i)) as (lines & -> & E). cbn [bind].
    exists (line :: lines). simpl. now rewrite E.
Qed.

(** What a run that returns has written: one line per timestamp of a list
    in ascending order, as many as requested when more were drawn, all that
    were drawn otherwise. *)
Lemma generate_logs_inv now num_lines output_file rng randbelow entry r :
  generate_logs now num_lines output_file rng randbelow entry = Ok r ->
  exists timestamps,
    StronglySorted Z.le timestamps
    /\ write_entries timestamps entry 0 = Ok (written r)
    /\ length (written r) = length timestamps
    /\ length timestamps =
       (if (num_lines <? Z.of_nat (total_drawn now rng))%Z
        then Z.to_nat num_lines else total_drawn now rng)
    /\ path r = output_path output_file
    /\ printed r = ("Generated " ++ py_str num_lines ++ " log entries in "
                    ++ output_path output_file)%string.
Proof.
  unfold generate_logs.
  destruct (add now (- (7 * day_us))) as [start_time|] eqn:E0; [|discriminate].
  cbn [bind].
  destruct (minutes_loop (S week_minutes) start_time now rng 0 []) as [ts|] eqn:E1;
    [|discriminate].
  cbn [bind].
  apply add_inv in E0 as [E0 _].
  apply minutes_loop_length in E1. cbn [length Nat.add] in E1.
  replace start_time with (now - 7 * day_us)%Z in E1 by lia.
  fold (total_drawn now rng) in E1.
  rewrite sort_length, E1.
  destruct (num_lines <? Z.of_nat (total_drawn now rng))%Z eqn:En.
  - unfold sample. rewrite sort_length, E1.
    destruct (num_lines <? 0)%Z eqn:E2; cbn [orb]; [cbn [bind]; discriminate|].
    assert (E3 : (Z.of_nat (total_drawn now rng) <? num_lines)%Z = false) by lia.
    rewrite E3. cbn [bind].
    set (chosen := select (sort ts) (Z.to_nat num_lines) randbelow).
    destruct (write_entries_length entry (sort chosen) 0) as (lines & El & Ell).
    rewrite El. cbn [bind]. intros [= <-]. cbn [written path printed].
    exists (sort chosen). repeat split; try assumption.
    + apply sort_sorted.
    + rewrite sort_length. unfold chosen. apply select_length.
      rewrite sort_length, E1. lia.
  - cbn [bind].
    destruct (write_entries_length entry (sort (sort ts)) 0) as (lines & El & Ell).
    rewrite El. cbn [bind]. intros [= <-]. cbn [written path printed].
    exists (sort (sort ts)). repeat split; try assumption.
    + apply sort_sorted.
    + now rewrite !sort_length.
Qed.

(** ** A run returns *)

Lemma timedelta_seconds_bounds x :
  (0 <= x)%Q -> (x <= 60)%Q -> (0 <= timedelta_seconds x <= minute_us)%Z.
Proof.
  destruct x as [n d]. unfold Qle; cbn [Qnum Qden].
  intros H0 H60.
  unfold timedelta_seconds, round_half_even, minute_us. cbn [Qmult Qnum Qden].
  rewrite Pos.mul_1_r.
  assert (Hd : (0 < Z.pos d)%Z) by lia.
  assert (Hn : (0 <= n * 1000000 <= 60000000 * Z.pos d)%Z) by lia.
  set (m := (n * 1000000)%Z) in *.
  pose proof (Z.mul_div_le m (Z.pos d) Hd) as Hf.
  pose proof (Z.div_pos m (Z.pos d) (proj1 Hn) Hd) as Hf0.
  assert (Hf1 : (m / Z.pos d <= 60000000)%Z).
  { apply Z.div_le_upper_bound; lia. }
  set (f := (m / Z.pos d)%Z) in *.
  destruct (2 * (m - f * Z.pos d) <? Z.pos d)%Z eqn:E1; [lia|].
  apply Z.ltb_ge in E1.
  assert (f < 60000000)%Z by nia.
  destruct (Z.pos d <? 2 * (m - f * Z.pos d))%Z; [lia|].
  destruct (Z.even f); lia.
Qed.

Lemma add_entries_ok current_time end_time seconds :
  (0 <= current_time < end_time)%Z ->
  (end_time + minute_us < MAXORDINAL * day_us)%Z ->
  (forall j, (0 <= seconds j)%Q /\ (seconds j <= 60)%Q) ->
  forall num i timestamps,
  exists ts, add_entries current_time seconds i num timestamps = Ok ts.
Proof.
  intros Hc He Hs. induction num as [|num IH]; intros i timestamps; cbn [add_entries].
  - now exists timestamps.
  - destruct (Hs i) as [H0 H60].
    pose proof (timedelta_seconds_bounds _ H0 H60) as Hb.
    rewrite add_in_range by lia. cbn [bind]. apply IH.
Qed.

Lemma minutes_loop_ok end_time rng :
  seconds_in_range rng ->
  (end_time + minute_us < MAXORDINAL * day_us)%Z ->
  forall fuel current_time i timestamps,
  (0 <= current_time)%Z ->
  exists ts, minutes_loop fuel current_time end_time rng i timestamps = Ok ts.
Proof.
  intros Hs He. induction fuel as [|fuel IH]; intros current_time i timestamps Hc;
    cbn [minutes_loop].
  - now exists timestamps.
  - destruct (Z.ltb_spec current_time end_time); [|now exists timestamps].
    fold (entries_at current_time (rng i)).
    destruct (add_entries_ok current_time end_time (random_seconds (rng i))
                (conj Hc H) He (Hs i) (entries_at current_time (rng i)) 0 timestamps)
      as (ts1 & ->).
    cbn [bind]. unfold minute_us in *.
    rewrite add_in_range by lia. cbn [bind]. apply IH. lia.
Qed.

(** The loop ends by its test: fuel beyond the minutes left is not used. *)
Lemma minutes_loop_fuel end_time rng extra : forall fuel current_time i timestamps,
  (end_time - current_time <= Z.of_nat fuel * minute_us)%Z ->
  minutes_loop (fuel + extra) current_time end_time rng i timestamps
  = minutes_loop fuel current_time end_time rng i timestamps.
Proof.
  unfold minute_us at 1.
  induction fuel as [|fuel IH]; intros current_time i timestamps H.
  - cbn [Nat.add minutes_loop]. destruct extra as [|extra]; [reflexivity|].
    cbn [minutes_loop]. destruct (Z.ltb_spec current_time end_time); [|reflexivity].
    simpl in H. lia.
  - cbn [Nat.add minutes_loop].
    destruct (current_time <? end_time)%Z; [|reflexivity].
    destruct (add_entries current_time (random_seconds (rng i)) 0 _ timestamps)
      as [ts1|]; [|reflexivity].
    cbn [bind].
    destruct (add current_time minute_us) as [next|] eqn:E; [|reflexivity].
    cbn [bind]. apply IH. apply add_inv in E as [-> _]. unfold minute_us. lia.
Qed.

(** The week before [now] is gone through within the fuel of
    [generate_logs]. *)
Lemma week_within_fuel now :
  (now - (now - 7 * day_us) <= Z.of_nat week_minutes * minute_us)%Z.
Proof. unfold week_minutes, day_us, minute_us. simpl. lia. Qed.

(** A run returns whenever the week before [now] and the minute after it
    are inside the range of [datetime], the draws of the seconds are in
    range and a count of zero or more lines is asked for. *)
Lemma generate_logs_ok now num_lines output_file rng randbelow entry :
  (7 * day_us <= now)%Z ->
  (now + minute_us < MAXORDINAL * day_us)%Z ->
  seconds_in_range rng ->
  (0 <= num_lines)%Z ->
  exists r, generate_logs now num_lines output_file rng randbelow entry = Ok r.
Proof.
  intros H7 Hmax Hs Hn. unfold generate_logs.
  rewrite add_in_range by (unfold minute_us, day_us, MAXORDINAL in *; lia). cbn [bind].
  destruct (minutes_loop_ok now rng Hs Hmax (S week_minutes)
              (now + - (7 * day_us))%Z 0 []) as (ts & ->);
    [unfold day_us in *; lia|].
  cbn [bind].
  destruct (num_lines <? Z.of_nat (length (sort ts)))%Z eqn:E.
  - unfold sample.
    assert (E1 : (num_lines <? 0)%Z = false) by lia.
    assert (E2 : (Z.of_nat (length (sort ts)) <? num_lines)%Z = false) by lia.
    rewrite E1, E2. cbn [orb bind].
    destruct (write_entries_length entry
                (sort (select (sort ts) (Z.to_nat num_lines) randbelow)) 0)
      as (lines & -> & _).
    cbn [bind]. eexists. reflexivity.
  - cbn [bind].
    destruct (write_entries_length entry (sort (sort ts)) 0) as (lines & -> & _).
    cbn [bind]. eexists. reflexivity.
Qed.

Lemma typical_seconds_in_range : seconds_in_range (fun _ => Inputs.typical_minute).
Proof.
  intros i j. unfold Inputs.typical_minute. cbn [random_seconds].
  unfold Qle, inject_Z. cbn [Qnum Qden].
  pose proof (Nat.mod_upper_bound j 6). lia.
Qed.

(** C7, at the failing input: 50000 lines are asked for at noon of
    2023-10-17 and every minute of the week draws the mean of its Poisson
    law.  The run writes the 28560 lines it drew, and prints that it
    generated 50000. *)
Theorem generate_logs_underdelivers :
  exists r,
    generate_logs Inputs.noon 50000 "server.log" (fun _ => Inputs.typical_minute)
      (fun _ => 0) (fun _ => Inputs.usual_draws) = Ok r
    /\ Z.of_nat (length (written r)) = 28560%Z
    /\ path r = "sample_logs/server.log"
    /\ printed r = "Generated 50000 log entries in sample_logs/server.log".
Proof.
  destruct (generate_logs_ok Inputs.noon 50000 "server.log"
              (fun _ => Inputs.typical_minute) (fun _ => 0)
              (fun _ => Inputs.usual_draws)) as (r & Hr).
  - vm_compute. discriminate.
  - vm_compute. reflexivity.
  - exact typical_seconds_in_range.
  - lia.
  - exists r. split; [exact Hr|].
    apply generate_logs_inv in Hr as (ts & _ & _ & E1 & E2 & E3 & E4).
    assert (Et : Z.of_nat (total_drawn Inputs.noon (fun _ => Inputs.typical_minute))
                 = 28560%Z) by (vm_compute; reflexivity).
    rewrite Et in E2. change (50000 <? 28560)%Z with false in E2.
    split; [now rewrite E1, E2|]. split; [exact E3 | exact E4].
Qed.

End GeneratorFacts.

(** * Round trip of the timestamp *)

Lemma Z_cases (P : Z -> Prop) (lo : Z) (n : nat) :
  (forall k, k < n -> P (lo + Z.of_nat k)%Z) ->
  forall d, (lo <= d < lo + Z.of_nat n)%Z -> P d.
Proof.
  intros H d Hd.
  replace d with (lo + Z.of_nat (Z.to_nat (d - lo)))%Z by lia.
  apply H. lia.
Qed.

Ltac compute_hits :=
  match goal with
  | |- context [matches ?r ?s] =>
      let l := constr:(matches r s) in
      let l' := eval vm_compute in l in
      replace l with l' by (vm_compute; reflexivity)
  end.

Ltac field_case HK :=
  unfold matches_k; compute_hits; cbn [flat_map];
  rewrite ?HK by reflexivity; rewrite ?app_nil_r; reflexivity.

Section TimestampFields.

Context {A : Type}.
Implicit Type K : hit -> list A.

Lemma day_k d : (1 <= d <= 31)%Z -> forall rest K, kills_digits K ->
  matches_k (Grp re_d) (pad2 d ++ rest) K = K (Hit (pad2 d) rest [pad2 d]).
Proof.
  intros Hd. pattern d. apply (Z_cases _ 1 31); [|lia]. clear d Hd.
  intros k Hk rest K HK.
  do 31 (destruct k as [|k]; [field_case HK|]).
  exfalso; lia.
Qed.

Lemma month_k m : (1 <= m <= 12)%Z -> forall rest K,
  matches_k (Grp re_b) (nth (Z.to_nat m) month_abbr "" ++ rest) K
  = K (Hit (nth (Z.to_nat m) month_abbr "") rest [nth (Z.to_nat m) month_abbr ""]).
Proof.
  intros Hm. pattern m. apply (Z_cases _ 1 12); [|lia]. clear m Hm.
  intros k Hk rest K.
  do 12 (destruct k as [|k];
         [unfold matches_k; compute_hits; cbn [flat_map]; rewrite ?app_nil_r; reflexivity|]).
  exfalso; lia.
Qed.

Lemma hour_k h : (0 <= h <= 23)%Z -> forall rest K, kills_digits K ->
  matches_k (Grp re_H) (pad2 h ++ rest) K = K (Hit (pad2 h) rest [pad2 h]).
Proof.
  intros Hh. pattern h. apply (Z_cases _ 0 24); [|lia]. clear h Hh.
  intros k Hk rest K HK.
  do 24 (destruct k as [|k]; [field_case HK|]).
  exfalso; lia.
Qed.

Lemma minute_k mi : (0 <= mi <= 59)%Z -> forall rest K, kills_digits K ->
  matches_k (Grp re_M) (pad2 mi ++ rest) K = K (Hit (pad2 mi) rest [pad2 mi]).
Proof.
  intros Hh. pattern mi. apply (Z_cases _ 0 60); [|lia]. clear mi Hh.
  intros k Hk rest K HK.
  do 60 (destruct k as [|k]; [field_case HK|]).
  exfalso; lia.
Qed.

Lemma second_k s : (0 <= s <= 59)%Z -> forall rest K, kills_digits K ->
  matches_k (Grp re_S) (pad2 s ++ rest) K = K (Hit (pad2 s) rest [pad2 s]).
Proof.
  intros Hh. pattern s. apply (Z_cases _ 0 60); [|lia]. clear s Hh.
  intros k Hk rest K HK.
  do 60 (destruct k as [|k]; [field_case HK|]).
  exfalso; lia.
Qed.

End TimestampFields.

Lemma digit_char_is_digit k : (0 <= k <= 9)%Z -> Char.is_digit (digit_char k) = true.
Proof.
  intros Hk. pattern k. apply (Z_cases _ 0 10); [|lia].
  intros j Hj. do 10 (destruct j as [|j]; [reflexivity|]). exfalso; lia.
Qed.

Lemma digit_neq_char c x :
  Char.is_digit c = true -> Char.is_digit x = false -> Ascii.eqb c x = false.
Proof.
  intros Hc Hx. destruct (Ascii.eqb_spec c x) as [->|]; [congruence | reflexivity].
Qed.

Lemma cls_digit_k {A : Type} (K : hit -> list A) c s :
  Char.is_digit c = true ->
  matches_k (Cls Digit) (String c s) K = K (Hit (String c EmptyString) s []).
Proof.
  intros Hc. rewrite mk_cls. cbn [one in_class]. now rewrite Hc.
Qed.

Lemma pad4_digits y :
  (0 <= y <= 9999)%Z ->
  Char.is_digit (digit_char (y / 1000)) = true
  /\ Char.is_digit (digit_char (y / 100 mod 10)) = true
  /\ Char.is_digit (digit_char (y / 10 mod 10)) = true
  /\ Char.is_digit (digit_char (y mod 10)) = true.
Proof.
  intros Hy. repeat split; apply digit_char_is_digit.
  - split; [apply Z.div_pos; lia | apply Z.lt_succ_r, Z.div_lt_upper_bound; lia].
  - pose proof (Z.mod_pos_bound (y / 100) 10). lia.
  - pose proof (Z.mod_pos_bound (y / 10) 10). lia.
  - pose proof (Z.mod_pos_bound y 10). lia.
Qed.

Lemma year_k {A : Type} (K : hit -> list A) y tail :
  (0 <= y <= 9999)%Z ->
  matches_k (Grp re_Y) (pad4 y ++ tail) K = K (Hit (pad4 y) tail [pad4 y]).
Proof.
  intros Hy. destruct (pad4_digits y Hy) as (H1 & H2 & H3 & H4).
  unfold pad4, re_Y, digit. cbn [append].
  rewrite mk_grp, mk_cat, (cls_digit_k _ _ _ H1). cbn [rest].
  rewrite mk_cat, (cls_digit_k _ _ _ H2). cbn [rest].
  rewrite mk_cat, (cls_digit_k _ _ _ H3). cbn [rest].
  rewrite (cls_digit_k _ _ _ H4).
  reflexivity.
Qed.

Lemma offset_hits :
  matches (Rep Space 1 None >> Grp re_z)%re " +0000"
  = [Hit " +0000" "" ["+0000"]].
Proof. vm_compute. reflexivity. Qed.

Ltac kills_lit :=
  let Hc := fresh "Hc" in
  intros ? ? ? ? Hc; cbv beta; cbn [rest];
  rewrite mk_cat, mk_lit; cbn [expect];
  match goal with
  | |- context [Ascii.eqb ?c ?x] => rewrite (digit_neq_char c x Hc eq_refl)
  end; reflexivity.

Lemma valid_datetime_ranges t :
  valid_datetime t = true ->
  (1 <= year t <= 9999 /\ 1 <= month t <= 12 /\ 1 <= day t <= 31
   /\ 0 <= hour t <= 23 /\ 0 <= minute t <= 59 /\ 0 <= second t <= 59)%Z.
Proof.
  unfold valid_datetime, valid_date, valid_time. rewrite !andb_true_iff.
  rewrite !Z.leb_le. intros H.
  assert (days_in_month (year t) (month t) <= 31)%Z.
  { unfold days_in_month.
    destruct (month t =? 2)%Z; [destruct (is_leap (year t)); lia|].
    destruct ((month t =? 4) || (month t =? 6) || (month t =? 9) || (month t =? 11))%bool%Z;
      lia. }
  lia.
Qed.

(** The pattern of [strptime] on a formatted timestamp followed by the
    offset the generator writes. *)
Lemma format_regex_hit t :
  valid_datetime t = true ->
  exists found,
    re_match format_regex (strftime t ++ " +0000") = Some found
    /\ rest found = EmptyString
    /\ groups found =
       [pad2 (day t); nth (Z.to_nat (month t)) month_abbr ""; pad4 (year t);
        pad2 (hour t); pad2 (minute t); pad2 (second t); "+0000"].
Proof.
  intros Hv. apply valid_datetime_ranges in Hv as (Hy & Hm & Hd & Hh & Hmi & Hs).
  eexists. unfold re_match. rewrite matches_as_k.
  unfold format_regex, strftime, plus.
  rewrite !sapp_assoc. cbn [append].
  rewrite mk_cat, day_k; [|assumption|kills_lit]. cbn [rest].
  rewrite mk_cat, mk_lit, expect_same. cbn [rest].
  rewrite mk_cat, month_k by assumption. cbn [rest].
  rewrite mk_cat, mk_lit, expect_same. cbn [rest].
  rewrite mk_cat, year_k by lia. cbn [rest].
  rewrite mk_cat, mk_lit, expect_same. cbn [rest].
  rewrite mk_cat, hour_k; [|assumption|kills_lit]. cbn [rest].
  rewrite mk_cat, mk_lit, expect_same. cbn [rest].
  rewrite mk_cat, minute_k; [|assumption|kills_lit]. cbn [rest].
  rewrite mk_cat, mk_lit, expect_same. cbn [rest].
  rewrite mk_cat, second_k; [|assumption|]. cbn [rest].
  - unfold matches_k at 1. rewrite offset_hits. cbn [flat_map app hd_error].
    split; [reflexivity|]. split; reflexivity.
  - intros m c r g Hc. cbv beta. cbn [rest].
    rewrite mk_cat, mk_rep. cbn [rep_runs in_class]. rewrite (digit_not_space _ Hc).
    reflexivity.
Qed.

Lemma py_int_pad2 n : (0 <= n <= 99)%Z -> py_int (pad2 n) = Ok n.
Proof.
  intros Hn. pattern n. apply (Z_cases _ 0 100); [|lia].
  intros k Hk. do 100 (destruct k as [|k]; [vm_compute; reflexivity|]).
  exfalso; lia.
Qed.

Lemma of_uint_acc_value d : forall acc,
  Z.pos (Pos.of_uint_acc d acc) = uint_value d (Z.pos acc).
Proof.
  induction d; intros acc; cbn [Pos.of_uint_acc uint_value]; rewrite ?IHd;
    try reflexivity; f_equal; lia.
Qed.

Lemma of_uint_value d : Z.of_N (N.of_uint d) = uint_value d 0.
Proof.
  unfold N.of_uint.
  induction d; cbn [Pos.of_uint uint_value]; try exact IHd; try reflexivity;
    cbn [Z.of_N]; rewrite of_uint_acc_value; reflexivity.
Qed.

Lemma uint_of_digit_char k u :
  (0 <= k <= 9)%Z ->
  uint_of_char (digit_char k) (Some u) = Some (cons_digit k u).
Proof.
  intros Hk. pattern k. apply (Z_cases _ 0 10); [|lia].
  intros j Hj. do 10 (destruct j as [|j]; [reflexivity|]). exfalso; lia.
Qed.

Lemma cons_digit_value k u acc :
  (0 <= k <= 9)%Z -> uint_value (cons_digit k u) acc = uint_value u (10 * acc + k)%Z.
Proof.
  intros Hk. pattern k. apply (Z_cases _ 0 10); [|lia].
  intros j Hj.
  do 10 (destruct j as [|j]; [cbn -[Z.mul]; f_equal; lia|]).
  exfalso; lia.
Qed.

Lemma pad4_value y :
  (0 <= y <= 9999)%Z ->
  (10 * (10 * (10 * (10 * 0 + y / 1000) + y / 100 mod 10) + y / 10 mod 10) + y mod 10
   = y)%Z.
Proof.
  intros Hy.
  pose proof (Z.div_mod y 10 ltac:(lia)) as E1.
  pose proof (Z.div_mod (y / 10) 10 ltac:(lia)) as E2.
  pose proof (Z.div_mod (y / 100) 10 ltac:(lia)) as E3.
  rewrite (Z.div_div y 10 10) in E2 by lia.
  rewrite (Z.div_div y 100 10) in E3 by lia.
  change (10 * 10)%Z with 100%Z in E2. change (100 * 10)%Z with 1000%Z in E3.
  lia.
Qed.

Lemma py_int_pad4 y : (0 <= y <= 9999)%Z -> py_int (pad4 y) = Ok y.
Proof.
  intros Hy. destruct (pad4_digits y Hy) as (H1 & H2 & H3 & H4).
  assert (Ha : all_in Digit (pad4 y) = true).
  { unfold pad4. cbn [all_in in_class]. now rewrite H1, H2, H3, H4. }
  assert (R1 : (0 <= y / 1000 <= 9)%Z).
  { split; [apply Z.div_pos; lia | apply Z.lt_succ_r, Z.div_lt_upper_bound; lia]. }
  pose proof (Z.mod_pos_bound (y / 100) 10 ltac:(lia)) as R2.
  pose proof (Z.mod_pos_bound (y / 10) 10 ltac:(lia)) as R3.
  pose proof (Z.mod_pos_bound y 10 ltac:(lia)) as R4.
  unfold py_int. rewrite (strip_digits _ Ha).
  assert (Ec : (match pad4 y with
               | String "-"%char body => (true, body)
               | String "+"%char body => (false, body)
               | _ => (false, pad4 y)
               end) = (false, pad4 y)).
  { unfold pad4. revert H1. generalize (digit_char (y / 1000)). intros c Hc.
    destruct c as [[|] [|] [|] [|] [|] [|] [|] [|]]; try reflexivity; discriminate Hc. }
  rewrite Ec. cbn [fst snd].
  unfold pad4, NilZero.uint_of_string. cbn [NilEmpty.uint_of_string].
  rewrite !uint_of_digit_char by lia.
  rewrite of_uint_value, !cons_digit_value by lia. cbn [uint_value].
  f_equal. now apply pad4_value.
Qed.

Lemma month_index m :
  (1 <= m <= 12)%Z ->
  index_from 0 (lower (nth (Z.to_nat m) month_abbr "")) a_month = Ok m.
Proof.
  intros Hm. pattern m. apply (Z_cases _ 1 12); [|lia].
  intros k Hk. do 12 (destruct k as [|k]; [vm_compute; reflexivity|]).
  exfalso; lia.
Qed.

(** What the generator formats, [strptime] reads back: the same fields, to
    the second, at UTC offset zero. *)
Lemma strptime_strftime t :
  valid_datetime t = true ->
  strptime (strftime t ++ " +0000")
  = Ok (Datetime (year t) (month t) (day t) (hour t) (minute t) (second t) 0 (Some 0%Z)).
Proof.
  intros Hv. destruct (format_regex_hit t Hv) as (found & Hf & Hr & Hg).
  pose proof (valid_datetime_ranges t Hv) as (Hy & Hm & Hd & Hh & Hmi & Hs).
  unfold strptime. rewrite Hf, Hr, Hg. cbn [String.eqb guard bind].
  rewrite py_int_pad2 by lia. cbn [bind].
  rewrite month_index by lia. cbn [bind].
  rewrite py_int_pad4 by lia. cbn [bind].
  rewrite !py_int_pad2 by lia. cbn [bind].
  change (gmtoff_of "+0000") with (Ok (0%Z, 0%Z)). cbn [bind fst snd].
  unfold valid_datetime in Hv. apply andb_true_iff in Hv as [Hv1 Hv2].
  rewrite Hv1. cbn [guard bind].
  assert (Hv3 : valid_time (hour t) (minute t) (second t) 0 = true).
  { unfold valid_time in *. rewrite !andb_true_iff in *. rewrite !Z.leb_le in *. lia. }
  rewrite Hv3. cbn [guard bind]. reflexivity.
Qed.

(** * Every well-formed line matches *)

Lemma tokenb_spec k lo s :
  tokenb k lo s = true <-> all_in k s = true /\ lo <= String.length s.
Proof. unfold tokenb. now rewrite andb_true_iff, Nat.leb_le. Qed.

Lemma space_not_stamp c : in_class Space c = true -> in_class stamp_chars c = false.
Proof.
  intros H. destruct (in_class stamp_chars c) eqn:E; [|reflexivity].
  apply stamp_chars_not_space in E. congruence.
Qed.

Lemma stamp_intro (w : string) b g (z r : string) :
  tokenb stamp_chars 1 w = true -> in_class Space b = true ->
  in_class (OneOf "+-") g = true -> all_in Digit z = true -> String.length z = 4 ->
  stamp (w ++ String b (String g (z ++ r)))
  = Some ((w ++ String b (String g z))%string, r).
Proof.
  intros Hw Hb Hg Hz Hl. apply tokenb_spec in Hw as [Hw1 Hw2].
  unfold stamp.
  rewrite token_intro; [|assumption| |assumption].
  2:{ cbn [nostart]. now rewrite (space_not_stamp _ Hb). }
  cbn [obind fst snd one]. rewrite Hb. cbn [obind fst snd one]. rewrite Hg.
  cbn [obind fst snd]. rewrite <- Hl, exact_intro by assumption.
  reflexivity.
Qed.

Lemma token_char k c (r : string) :
  in_class k c = true -> nostart k r = true ->
  token k 1 (String c r) = Some (String c EmptyString, r).
Proof.
  intros Hc Hr.
  apply (token_intro k 1 (String c EmptyString) r); [|assumption|simpl; lia].
  simpl. now rewrite Hc.
Qed.

Lemma nostart_char k c (r : string) : in_class k c = false -> nostart k (String c r) = true.
Proof. intros H. simpl. now rewrite H. Qed.

(** The deterministic reading of a well-formed line gives its fields. *)
Lemma scan_line_of f tail :
  well_formed f = true -> nostart Digit tail = true ->
  scan (line_of f tail) = Some (groups_of f, tail).
Proof.
  unfold well_formed. rewrite !andb_true_iff, !tokenb_spec, !Nat.eqb_eq.
  intros H Htail.
  repeat match goal with
         | H : _ /\ _ |- _ => destruct H
         end.
  unfold line_of, datetime_str, q, groups_of.
  repeat first [rewrite sapp_assoc | progress cbn [append]].
  unfold scan, pieces. cbn [scan_pieces read].
  rewrite token_intro by (assumption || reflexivity). cbn [obind fst snd app].
  rewrite expect_same. cbn [obind fst snd app].
  rewrite token_char by reflexivity. cbn [obind fst snd app].
  rewrite expect_same. cbn [obind fst snd app].
  rewrite token_char by reflexivity. cbn [obind fst snd app].
  rewrite expect_same. cbn [obind fst snd app].
  rewrite expect_same. cbn [obind fst snd app].
  rewrite stamp_intro by (assumption || (apply tokenb_spec; now split)).
  cbn [obind fst snd app].
  rewrite expect_same. cbn [obind fst snd app].
  rewrite expect_same. cbn [obind fst snd app].
  rewrite expect_same. cbn [obind fst snd app].
  rewrite token_intro by (assumption || reflexivity). cbn [obind fst snd app].
  rewrite expect_same. cbn [obind fst snd app].
  rewrite token_intro by (assumption || reflexivity). cbn [obind fst snd app].
  rewrite expect_same. cbn [obind fst snd app].
  rewrite token_until_intro by (assumption || reflexivity). cbn [obind fst snd app].
  rewrite expect_same. cbn [obind fst snd app].
  match goal with
  | H : String.length (f_status f) = 3 |- _ => rewrite <- H
  end.
  rewrite exact_intro by assumption. cbn [obind fst snd app].
  rewrite expect_same. cbn [obind fst snd app].
  rewrite token_intro by (assumption || reflexivity). cbn [obind fst snd app].
  rewrite expect_same. cbn [obind fst snd app].
  rewrite expect_same. cbn [obind fst snd app].
  unfold not_quote in *.
  rewrite token_intro by (assumption || reflexivity || apply Nat.le_0_l).
  cbn [obind fst snd app].
  rewrite expect_same. cbn [obind fst snd app].
  rewrite expect_same. cbn [obind fst snd app].
  rewrite expect_same. cbn [obind fst snd app].
  rewrite token_intro by (assumption || reflexivity || apply Nat.le_0_l).
  cbn [obind fst snd app].
  rewrite expect_same. cbn [obind fst snd app].
  rewrite expect_same. cbn [obind fst snd app].
  rewrite token_intro by assumption. cbn [obind fst snd app].
  reflexivity.
Qed.

(** * Round trip of a generated entry *)

Module RoundTrip.

Import LogGenerator.

Lemma bisect_in {K : Type} (x : Q) : forall others acc (first : K * Q),
  In (bisect x acc first others) (map fst (first :: others)).
Proof.
  induction others as [|next others IH]; intros acc first; cbn [bisect].
  - now left.
  - destruct (Qltb x (acc + snd first)); [now left|].
    right. apply IH.
Qed.

(** A draw from a table with positive total weight is one of its keys. *)
Lemma pick_in {K : Type} (choices_dict : list (K * Q)) u default :
  choices_dict <> [] -> Qltb 0 (total choices_dict) = true ->
  In (pick choices_dict u default) (map fst choices_dict).
Proof.
  intros Hne Ht. unfold pick, weighted_choice.
  destruct choices_dict as [|first others]; [congruence|].
  rewrite Ht. cbn [guard bind]. apply bisect_in.
Qed.

Lemma pick_forall {K : Type} (P : K -> bool) (choices_dict : list (K * Q)) u default :
  choices_dict <> [] -> Qltb 0 (total choices_dict) = true ->
  forallb P (map fst choices_dict) = true ->
  P (pick choices_dict u default) = true.
Proof.
  intros Hne Ht Hall. rewrite forallb_forall in Hall.
  apply Hall. now apply pick_in.
Qed.

Lemma uint_digits u : all_in Digit (NilEmpty.string_of_uint u) = true.
Proof. induction u; simpl; auto. Qed.

Lemma uint_nonempty u :
  u <> Decimal.Nil -> 1 <= String.length (NilEmpty.string_of_uint u).
Proof. destruct u; simpl; intros H; try lia. congruence. Qed.

Lemma to_int_nonneg n :
  (0 <= n)%Z ->
  exists u, Z.to_int n = Decimal.Pos u /\ u <> Decimal.Nil
            /\ N.of_uint u = Z.to_N n.
Proof.
  intros Hn. destruct n as [|p|p]; [| |lia].
  - exists (Decimal.D0 Decimal.Nil). repeat split; discriminate.
  - exists (Pos.to_uint p). repeat split.
    + apply DecimalPos.Unsigned.to_uint_nonnil.
    + apply DecimalPos.Unsigned.of_to.
Qed.

Lemma py_str_token n : (0 <= n)%Z -> tokenb Digit 1 (py_str n) = true.
Proof.
  intros Hn. destruct (to_int_nonneg n Hn) as (u & E & Hu & _).
  unfold py_str. rewrite E. cbn [NilZero.string_of_int].
  unfold NilZero.string_of_uint.
  apply tokenb_spec.
  destruct u; try congruence; split;
    first [apply uint_digits | apply uint_nonempty; discriminate].
Qed.

(** [int(str(n))] is [n]. *)
Lemma py_int_py_str n : (0 <= n)%Z -> py_int (py_str n) = Ok n.
Proof.
  intros Hn. pose proof (py_str_token n Hn) as Ht.
  apply tokenb_spec in Ht as [Ha Hl].
  destruct (to_int_nonneg n Hn) as (u & E & Hu & Ev).
  unfold py_int. rewrite (strip_digits _ Ha).
  assert (Es : NilZero.uint_of_string (py_str n) = Some u).
  { unfold py_str. rewrite E. cbn [NilZero.string_of_int].
    now apply NilZero.usu. }
  destruct (py_str n) as [|c s] eqn:Ep; [simpl in Hl; lia|].
  assert (Hc : Char.is_digit c = true) by (simpl in Ha; now apply andb_true_iff in Ha).
  assert (Ec : (match String c s with
               | String "-"%char body => (true, body)
               | String "+"%char body => (false, body)
               | _ => (false, String c s)
               end) = (false, String c s)).
  { destruct c as [[|] [|] [|] [|] [|] [|] [|] [|]]; try reflexivity; discriminate Hc. }
  rewrite Ec. cbn [fst snd]. rewrite Es, Ev. f_equal. lia.
Qed.

Lemma int_nonneg x : Qle_bool 0 x = true -> (0 <= int x)%Z.
Proof.
  intros H. apply Qle_bool_iff in H. unfold Qle in H. simpl in H.
  unfold int. apply Z.quot_pos; lia.
Qed.

Lemma entry_is_line_of timestamp d :
  generate_log_entry timestamp d = Ok (line_of (entry_fields timestamp d) newline).
Proof.
  unfold generate_log_entry, line_of, entry_fields, datetime_str, pick.
  cbn [f_ip f_stamp f_blank f_sign f_offset f_method f_api f_protocol f_status
       f_bytes f_referrer f_agent f_response_time].
  unfold weighted_choice, methods, endpoints, status_codes, user_agents.
  cbn [guard bind].
  change (guard _) with (Ok tt) at 1. cbn [bind].
  change (guard _) with (Ok tt) at 1. cbn [bind].
  change (guard _) with (Ok tt) at 1. cbn [bind].
  change (guard _) with (Ok tt) at 1. cbn [bind].
  f_equal.
  repeat first [rewrite sapp_assoc | progress cbn [append]].
  reflexivity.
Qed.

Lemma digit_is_stamp_char c : Char.is_digit c = true -> in_class stamp_chars c = true.
Proof.
  intros H.
  assert (D : forallb (fun c => implb (Char.is_digit c) (in_class stamp_chars c))
                (map ascii_of_nat (seq 0 256)) = true) by (vm_compute; reflexivity).
  apply for_all_ascii with (c := c) in D. cbv beta in D. now rewrite H in D.
Qed.

Lemma pad2_stamp n : (0 <= n <= 99)%Z -> all_in stamp_chars (pad2 n) = true.
Proof.
  intros Hn. unfold pad2. cbn [all_in].
  rewrite !digit_is_stamp_char; [reflexivity| |];
    apply digit_char_is_digit.
  - pose proof (Z.mod_pos_bound n 10). lia.
  - split; [apply Z.div_pos; lia | apply Z.lt_succ_r, Z.div_lt_upper_bound; lia].
Qed.

Lemma pad4_stamp y : (0 <= y <= 9999)%Z -> all_in stamp_chars (pad4 y) = true.
Proof.
  intros Hy. destruct (pad4_digits y Hy) as (H1 & H2 & H3 & H4).
  unfold pad4. cbn [all_in].
  now rewrite !digit_is_stamp_char by assumption.
Qed.

Lemma month_stamp m : all_in stamp_chars (nth (Z.to_nat m) month_abbr "") = true.
Proof.
  generalize (Z.to_nat m). intros k.
  do 13 (destruct k as [|k]; [reflexivity|]). now destruct k.
Qed.

Lemma strftime_token t :
  valid_datetime t = true -> tokenb stamp_chars 1 (strftime t) = true.
Proof.
  intros Hv. apply valid_datetime_ranges in Hv as (Hy & Hm & Hd & Hh & Hmi & Hs).
  apply tokenb_spec. split.
  - unfold strftime. rewrite !all_in_app.
    rewrite !pad2_stamp by lia. rewrite pad4_stamp by lia. rewrite month_stamp.
    reflexivity.
  - unfold strftime, pad2. simpl. lia.
Qed.

Lemma generate_ip_token d :
  tokenb NonSpace 1 (fake_ipv4 d) = true -> tokenb NonSpace 1 (generate_ip d) = true.
Proof.
  intros H. unfold generate_ip. destruct (Qltb (ip_u d) 0.3); [|exact H].
  pose proof (Nat.mod_upper_bound (ip_choice d) (length regular_visitors)) as Hb.
  destruct (ip_choice d mod length regular_visitors) as [|[|[|[|[|k]]]]];
    try reflexivity.
  simpl in Hb. lia.
Qed.

Lemma entry_well_formed timestamp d :
  valid_datetime timestamp = true -> plausible d = true ->
  well_formed (entry_fields timestamp d) = true.
Proof.
  intros Hv Hp. unfold plausible in Hp. rewrite !andb_true_iff in Hp.
  destruct Hp as (((Hip & Huri) & Hrt) & Hbytes).
  unfold well_formed, entry_fields.
  cbn [f_ip f_stamp f_blank f_sign f_offset f_method f_api f_protocol f_status
       f_bytes f_referrer f_agent f_response_time].
  rewrite (generate_ip_token d Hip), (strftime_token timestamp Hv).
  rewrite (pick_forall (tokenb NonSpace 1) methods) by (discriminate || reflexivity).
  rewrite (pick_forall (tokenb NonSpace 1) endpoints) by (discriminate || reflexivity).
  rewrite (pick_forall (fun k => all_in Digit (py_str k)) status_codes)
    by (discriminate || reflexivity).
  rewrite (pick_forall (fun k => Nat.eqb (String.length (py_str k)) 3) status_codes)
    by (discriminate || reflexivity).
  rewrite (pick_forall (all_in not_quote) user_agents) by (discriminate || reflexivity).
  rewrite (py_str_token (generate_bytes_sent d)) by (now apply Z.leb_le).
  rewrite (py_str_token (generate_response_time d)) by (now apply int_nonneg).
  destruct (Qltb (referrer_u d) 0.3); [rewrite Huri|]; reflexivity.
Qed.

(** The row of a well-formed line whose timestamp and numbers convert. *)
Lemma parse_line_of ua f tail dt st bs rt :
  well_formed f = true -> nostart Digit tail = true ->
  strptime (datetime_str f) = Ok dt ->
  py_int (f_status f) = Ok st -> py_int (f_bytes f) = Ok bs ->
  py_int (f_response_time f) = Ok rt ->
  parse_log_line ua (line_of f tail)
  = Ok (Some (Parsed.Make (f_ip f) "-" "-" dt (f_method f) (f_api f) (f_protocol f)
                st bs (f_referrer f) (f_agent f)
                (browser_family (ua (f_agent f))) (os_family (ua (f_agent f)))
                (device_family (ua (f_agent f))) rt)).
Proof.
  intros Hw Ht E1 E2 E3 E4.
  rewrite parse_via_scan, (scan_line_of f tail Hw Ht).
  cbn [fst groups_of row_of_groups]. rewrite E1, E2, E3, E4. reflexivity.
Qed.

Lemma line_of_tail f tail : line_of f tail = (line_of f "" ++ tail)%string.
Proof.
  unfold line_of. repeat first [rewrite sapp_assoc | progress cbn [append]].
  reflexivity.
Qed.

Lemma split_last_cons c (s : string) :
  s <> EmptyString ->
  split_last (String c s)
  = match split_last s with
    | Some (m, z) => Some (String c m, z)
    | None => None
    end.
Proof.
  intros H. cbn [split_last]. destruct (split_last s) as [[m z]|] eqn:E; [reflexivity|].
  apply split_last_none in E. congruence.
Qed.

Lemma rstrip_newline (body : string) :
  ends_nonspace body = true -> rstrip (body ++ newline) = body.
Proof.
  induction body as [|c body IH]; [discriminate|].
  unfold ends_nonspace. destruct body as [|c' body].
  - cbn. intros H. apply negb_true_iff in H. now rewrite H.
  - rewrite split_last_cons by discriminate. intros H.
    assert (H' : ends_nonspace (String c' body) = true).
    { unfold ends_nonspace. destruct (split_last (String c' body)) as [[m z]|];
        [exact H | discriminate H]. }
    specialize (IH H').
    change (String c (String c' body) ++ newline)%string
      with (String c (String c' body ++ newline)).
    cbn [rstrip]. rewrite IH. reflexivity.
Qed.

Lemma ends_nonspace_app (a b : string) :
  b <> EmptyString -> ends_nonspace (a ++ b) = ends_nonspace b.
Proof.
  intros Hb. induction a as [|c a IH]; [reflexivity|].
  unfold ends_nonspace in *. cbn [append]. rewrite split_last_cons.
  - destruct (split_last (a ++ b)) as [[m z]|]; destruct (split_last b) as [[m' z']|];
      first [exact IH | discriminate IH | reflexivity].
  - destruct a; [exact Hb | discriminate].
Qed.

Lemma digits_end_nonspace s :
  tokenb Digit 1 s = true -> ends_nonspace s = true.
Proof.
  intros H. apply tokenb_spec in H as [Ha Hl].
  unfold ends_nonspace.
  destruct (split_last s) as [[m z]|] eqn:E.
  - apply split_last_inv in E. subst s. rewrite all_in_app in Ha.
    apply andb_true_iff in Ha as [_ Hz]. simpl in Hz. rewrite andb_true_r in Hz.
    now rewrite (digit_not_space _ Hz).
  - apply split_last_none in E. subst s. simpl in Hl. lia.
Qed.

(** [load_log_data] strips the newline, and nothing else, off a well-formed
    line. *)
Lemma strip_line_of f :
  well_formed f = true -> strip (line_of f newline) = line_of f "".
Proof.
  intros Hw. unfold strip.
  assert (Hip : tokenb NonSpace 1 (f_ip f) = true /\ tokenb Digit 1 (f_response_time f) = true).
  { unfold well_formed in Hw. rewrite !andb_true_iff in Hw. tauto. }
  destruct Hip as [Hip Hrt].
  assert (El : lstrip (line_of f newline) = line_of f newline).
  { apply tokenb_spec in Hip as [Ha Hl]. unfold line_of.
    destruct (f_ip f) as [|c ip]; [simpl in Hl; lia|].
    cbn [append lstrip]. simpl in Ha. apply andb_true_iff in Ha as [Hc _].
    apply negb_true_iff in Hc. now rewrite Hc. }
  rewrite El, line_of_tail. apply rstrip_newline.
  unfold line_of. rewrite sapp_nil_r.
  repeat first [rewrite sapp_assoc | progress cbn [append]].
  assert (Hne : f_response_time f <> EmptyString).
  { apply tokenb_spec in Hrt as [_ Hl]. destruct (f_response_time f);
      [simpl in Hl; lia | discriminate]. }
  repeat match goal with
         | |- ends_nonspace (?a ++ ?b) = true =>
             rewrite (ends_nonspace_app a b)
               by (try (apply sapp_not_nil); discriminate || assumption
                   || (repeat (apply sapp_not_nil || discriminate || assumption)))
         | |- ends_nonspace (String ?c ?b) = true =>
             change (String c b) with (String c EmptyString ++ b)%string
         end.
  now apply digits_end_nonspace.
Qed.

(** Round trip: the line generated from a valid timestamp and plausible
    draws parses, both as it is and stripped as the loader strips it, into
    the row of its own fields, with the timestamp to the second at UTC
    offset zero. *)
Theorem entry_round_trip ua timestamp d :
  valid_datetime timestamp = true -> plausible d = true ->
  exists line,
    generate_log_entry timestamp d = Ok line
    /\ parse_log_line ua line = Ok (Some (entry_row ua timestamp d))
    /\ parse_log_line ua (strip line) = Ok (Some (entry_row ua timestamp d)).
Proof.
  intros Hv Hp.
  pose proof (entry_well_formed timestamp d Hv Hp) as Hw.
  exists (line_of (entry_fields timestamp d) newline).
  split; [apply entry_is_line_of|].
  unfold plausible in Hp. rewrite !andb_true_iff in Hp.
  destruct Hp as (((Hip & Huri) & Hrt) & Hbytes).
  assert (E1 : strptime (datetime_str (entry_fields timestamp d))
               = Ok (Datetime (year timestamp) (month timestamp) (day timestamp)
                       (hour timestamp) (minute timestamp) (second timestamp) 0
                       (Some 0%Z))).
  { rewrite <- (strptime_strftime timestamp Hv). f_equal. }
  assert (E2 : py_int (f_status (entry_fields timestamp d))
               = Ok (pick status_codes (status_u d) 0%Z)).
  { cbn [entry_fields f_status]. apply py_int_py_str. apply Z.leb_le.
    apply (pick_forall (fun k => (0 <=? k)%Z) status_codes);
      (discriminate || reflexivity). }
  assert (E3 : py_int (f_bytes (entry_fields timestamp d)) = Ok (generate_bytes_sent d)).
  { cbn [entry_fields f_bytes]. apply py_int_py_str. now apply Z.leb_le. }
  assert (E4 : py_int (f_response_time (entry_fields timestamp d))
               = Ok (generate_response_time d)).
  { cbn [entry_fields f_response_time]. apply py_int_py_str. now apply int_nonneg. }
  split.
  - rewrite (parse_line_of ua _ newline _ _ _ _ Hw eq_refl E1 E2 E3 E4). reflexivity.
  - rewrite (strip_line_of _ Hw).
    rewrite (parse_line_of ua _ "" _ _ _ _ Hw eq_refl E1 E2 E3 E4). reflexivity.
Qed.

(** C10: whatever the timestamp, the line carries its fields as
    [strftime] prints them followed by the literal offset [+0000]; parsed
    back, the row has those very fields at UTC offset zero, so no conversion
    between zones takes place; and the timestamps [generate_logs] hands over
    are naive. *)
Theorem offset_is_literal ua timestamp d :
  (exists text,
      generate_log_entry timestamp d
      = Ok (generate_ip d ++ " - - [" ++ strftime timestamp ++ " +0000] " ++ text)%string)
  /\ (valid_datetime timestamp = true -> plausible d = true ->
      exists line row,
        generate_log_entry timestamp d = Ok line
        /\ parse_log_line ua line = Ok (Some row)
        /\ Parsed.datetime row
           = Datetime (year timestamp) (month timestamp) (day timestamp)
               (hour timestamp) (minute timestamp) (second timestamp) 0 (Some 0%Z))
  /\ (forall t, tzinfo (of_micros t) = None).
Proof.
  split; [|split].
  - eexists. rewrite entry_is_line_of. f_equal.
    unfold line_of, datetime_str, entry_fields.
    cbn [f_ip f_stamp f_blank f_sign f_offset].
    repeat first [rewrite sapp_assoc | progress cbn [append]].
    reflexivity.
  - intros Hv Hp.
    destruct (entry_round_trip ua timestamp d Hv Hp) as (line & E1 & E2 & _).
    exists line, (entry_row ua timestamp d). repeat split; assumption.
  - reflexivity.
Qed.

Lemma offset_is_literal_witness :
  exists line row,
    generate_log_entry Inputs.a_timestamp Inputs.usual_draws = Ok line
    /\ parse_log_line other_agent line = Ok (Some row)
    /\ Parsed.datetime row = Datetime 2023 10 10 13 55 36 0 (Some 0%Z).
Proof.
  exact (proj1 (proj2 (offset_is_literal other_agent Inputs.a_timestamp
                         Inputs.usual_draws)) eq_refl eq_refl).
Defined.

End RoundTrip.

(** * The lines the parser accepts *)

Lemma stamp_shaped_intro (w : string) b g (z : string) :
  tokenb stamp_chars 1 w = true -> in_class Space b = true ->
  in_class (OneOf "+-") g = true -> all_in Digit z = true -> String.length z = 4 ->
  stamp_shaped (w ++ String b (String g z)) = true.
Proof.
  intros Hw Hb Hg Hz Hl. apply tokenb_spec in Hw as [Hw1 Hw2].
  assert (Ho : offset_shaped (String b (String g z)) = true).
  { cbn [offset_shaped]. rewrite Hb, Hg, Hz, Hl. reflexivity. }
  induction w as [|c w IH]; [simpl in Hw2; lia|].
  cbn [append stamp_shaped]. cbn [all_in] in Hw1.
  apply andb_true_iff in Hw1 as [Hc Hw1]. rewrite Hc. cbn [andb].
  destruct w as [|c' w'].
  - cbn [append]. rewrite Ho. reflexivity.
  - rewrite IH; [apply orb_true_r|assumption|simpl; lia].
Qed.

Lemma stamp_shaped_inv s :
  stamp_shaped s = true ->
  exists (w : string) b g (z : string),
    s = (w ++ String b (String g z))%string
    /\ tokenb stamp_chars 1 w = true /\ in_class Space b = true
    /\ in_class (OneOf "+-") g = true /\ all_in Digit z = true
    /\ String.length z = 4.
Proof.
  induction s as [|c s IH]; [discriminate|].
  cbn [stamp_shaped]. intros H.
  apply andb_true_iff in H as [Hc H]. apply orb_true_iff in H as [H|H].
  - destruct s as [|b [|g z]]; try discriminate H.
    cbn [offset_shaped] in H. rewrite !andb_true_iff, Nat.eqb_eq in H.
    destruct H as [[[Hb Hg] Hz] Hl].
    exists (String c EmptyString), b, g, z. repeat split; try assumption.
    unfold tokenb. cbn [all_in]. rewrite Hc. reflexivity.
  - destruct (IH H) as (w & b & g & z & -> & Hw & Hb & Hg & Hz & Hl).
    exists (String c w), b, g, z. repeat split; try assumption.
    apply tokenb_spec in Hw as [Hw1 Hw2]. apply tokenb_spec. split.
    + cbn [all_in]. now rewrite Hc, Hw1.
    + simpl. lia.
Qed.

Ltac head_of t :=
  lazymatch t with
  | obind ?o _ => head_of o
  | _ => constr:(t)
  end.

Ltac read_step H :=
  lazymatch type of H with
  | ?l = Some _ =>
      let o := head_of l in
      let E := fresh "E" in
      destruct o eqn:E; [cbn [obind fst snd app] in H | discriminate H]
  end.

(** What the deterministic reading returns is a line in the layout of the
    pattern, with groups of the right shapes. *)
Lemma scan_sound s gs r :
  scan s = Some (gs, r) ->
  s = layout gs r /\ shaped gs = true /\ nostart Digit r = true.
Proof.
  unfold scan, pieces. cbn [scan_pieces read]. intros H.
  do 30 read_step H.
  injection H as <- <-.
  repeat match goal with
         | E : expect _ _ = Some _ |- _ => apply expect_spec in E
         | E : token _ _ _ = Some _ |- _ =>
             apply token_spec in E; destruct E as (? & ? & ? & ?)
         | E : token_until _ _ _ _ = Some _ |- _ =>
             apply token_until_spec in E; destruct E as (? & ? & ? & ? & ?)
         | E : exact _ _ _ = Some _ |- _ =>
             apply exact_spec in E; destruct E as (? & ? & ?)
         end.
  match goal with
  | E : stamp _ = Some _ |- _ =>
      pose proof (stamp_spec _ _ E) as Hst; apply stamp_inv in E;
      destruct E as (w & b & g & z & Ew & Eb & Eg & Ez & Et)
  end.
  apply token_spec in Ew. destruct Ew as (_ & Hw1 & _ & Hw2).
  apply one_spec in Eb. destruct Eb as (cb & _ & Eb & Hb).
  apply one_spec in Eg. destruct Eg as (cg & _ & Eg & Hg).
  apply exact_spec in Ez. destruct Ez as (_ & Hz1 & Hz2).
  split; [|split].
  - unfold layout, q.
    repeat first [rewrite sapp_assoc | progress cbn [append]].
    congruence.
  - subst p2. cbn [shaped fst]. rewrite Eb, Eg. cbn [append].
    rewrite !andb_true_iff, !tokenb_spec, !Nat.eqb_eq.
    repeat split; try assumption.
    apply stamp_shaped_intro; try assumption. now apply tokenb_spec.
  - assumption.
Qed.

(** The deterministic reading of a line in the layout of the pattern gives
    back its groups. *)
Lemma scan_layout gs tail :
  shaped gs = true -> nostart Digit tail = true -> scan (layout gs tail) = Some (gs, tail).
Proof.
  intros H Htail.
  do 12 (destruct gs as [|? gs]; [discriminate H|]).
  destruct gs; [|discriminate H].
  cbn [shaped] in H. rewrite !andb_true_iff, !tokenb_spec, !Nat.eqb_eq in H.
  repeat match goal with
         | H : _ /\ _ |- _ => destruct H
         end.
  match goal with
  | H : stamp_shaped _ = true |- _ =>
      apply stamp_shaped_inv in H;
      destruct H as (w & b & g & z & -> & Hw & Hb & Hg & Hz & Hl)
  end.
  unfold layout, q.
  repeat first [rewrite sapp_assoc | progress cbn [append]].
  unfold scan, pieces. cbn [scan_pieces read].
  rewrite token_intro by (assumption || reflexivity). cbn [obind fst snd app].
  rewrite expect_same. cbn [obind fst snd app].
  rewrite token_intro by (assumption || reflexivity). cbn [obind fst snd app].
  rewrite expect_same. cbn [obind fst snd app].
  rewrite token_intro by (assumption || reflexivity). cbn [obind fst snd app].
  rewrite expect_same. cbn [obind fst snd app].
  rewrite expect_same. cbn [obind fst snd app].
  rewrite stamp_intro by assumption.
  cbn [obind fst snd app].
  rewrite expect_same. cbn [obind fst snd app].
  rewrite expect_same. cbn [obind fst snd app].
  rewrite expect_same. cbn [obind fst snd app].
  rewrite token_intro by (assumption || reflexivity). cbn [obind fst snd app].
  rewrite expect_same. cbn [obind fst snd app].
  rewrite token_intro by (assumption || reflexivity). cbn [obind fst snd app].
  rewrite expect_same. cbn [obind fst snd app].
  rewrite token_until_intro by (assumption || reflexivity). cbn [obind fst snd app].
  rewrite expect_same. cbn [obind fst snd app].
  match goal with
  | H : String.length ?s = 3 |- context [exact Digit 3 (?s ++ _)] => rewrite <- H
  end.
  rewrite exact_intro by assumption. cbn [obind fst snd app].
  rewrite expect_same. cbn [obind fst snd app].
  rewrite token_intro by (assumption || reflexivity). cbn [obind fst snd app].
  rewrite expect_same. cbn [obind fst snd app].
  rewrite expect_same. cbn [obind fst snd app].
  unfold not_quote in *.
  rewrite token_intro by (assumption || reflexivity || apply Nat.le_0_l).
  cbn [obind fst snd app].
  rewrite expect_same. cbn [obind fst snd app].
  rewrite expect_same. cbn [obind fst snd app].
  rewrite expect_same. cbn [obind fst snd app].
  rewrite token_intro by (assumption || reflexivity || apply Nat.le_0_l).
  cbn [obind fst snd app].
  rewrite expect_same. cbn [obind fst snd app].
  rewrite expect_same. cbn [obind fst snd app].
  rewrite token_intro by assumption. cbn [obind fst snd app].
  reflexivity.
Qed.

(** X1: the parser goes on to build a row exactly on the lines that are
    twelve groups of the shapes of the pattern, in its layout, followed by
    text that does not start with a digit; what it returns is then what the
    conversions make of those groups. *)
Theorem parse_accepts_exactly ua line r :
  (parse_log_line ua line = r /\ r <> Ok None) <->
  (exists gs tail,
      line = layout gs tail /\ shaped gs = true /\ nostart Digit tail = true
      /\ row_of_groups ua gs = r).
Proof.
  rewrite parse_via_scan. split.
  - intros [H Hr]. destruct (scan line) as [[gs tail]|] eqn:E; [|congruence].
    apply scan_sound in E as (E1 & E2 & E3).
    exists gs, tail. repeat split; assumption.
  - intros (gs & tail & -> & Hs & Ht & <-).
    rewrite (scan_layout _ _ Hs Ht). split; [reflexivity|].
    apply row_of_groups_some.
Qed.

(** ** The rows the parser builds *)

Lemma parsed_groups ua line row :
  parse_log_line ua line = Ok (Some row) ->
  exists g4 g8 g9 g12 tail,
    shaped [Parsed.ip row; Parsed.remote_log_name row; Parsed.user_id row; g4;
            Parsed.method row; Parsed.api row; Parsed.protocol row; g8; g9;
            Parsed.referrer row; Parsed.ua_string row; g12] = true
    /\ line = layout [Parsed.ip row; Parsed.remote_log_name row; Parsed.user_id row; g4;
                      Parsed.method row; Parsed.api row; Parsed.protocol row; g8; g9;
                      Parsed.referrer row; Parsed.ua_string row; g12] tail
    /\ nostart Digit tail = true
    /\ strptime g4 = Ok (Parsed.datetime row) /\ py_int g8 = Ok (Parsed.status row)
    /\ py_int g9 = Ok (Parsed.bytes_sent row) /\ py_int g12 = Ok (Parsed.response_time row)
    /\ Parsed.browser row = browser_family (ua (Parsed.ua_string row))
    /\ Parsed.os row = os_family (ua (Parsed.ua_string row))
    /\ Parsed.device row = device_family (ua (Parsed.ua_string row)).
Proof.
  intros H. rewrite parse_via_scan in H.
  destruct (scan line) as [[gs tail]|] eqn:E; [|discriminate H].
  apply scan_sound in E as (E1 & E2 & E3). cbn [fst] in H.
  apply row_of_groups_inv in H
    as (g1 & g2 & g3 & g4 & g5 & g6 & g7 & g8 & g9 & g10 & g11 & g12
        & dt & st & bs & rt & -> & H1 & H2 & H3 & H4 & ->).
  exists g4, g8, g9, g12, tail. cbn [Parsed.ip Parsed.remote_log_name Parsed.user_id
    Parsed.method Parsed.api Parsed.protocol Parsed.referrer Parsed.ua_string Parsed.datetime
    Parsed.status Parsed.bytes_sent Parsed.response_time Parsed.browser Parsed.os Parsed.device].
  repeat split; assumption.
Qed.

(** X2: the text fields of a row are pieces of the line, unchanged: the
    line is the row's fields in the layout of the pattern around the four
    converted texts; the first three fields, the method and the path are
    non-empty and hold no white space, the protocol likewise, and neither
    the referrer nor the user agent holds a double quote. *)
Theorem parsed_text_fields ua line row :
  parse_log_line ua line = Ok (Some row) ->
  (exists datetime_str status bytes_sent response_time tail,
      line = (Parsed.ip row ++ " " ++ Parsed.remote_log_name row ++ " " ++ Parsed.user_id row
              ++ " [" ++ datetime_str ++ "] "
              ++ q (Parsed.method row ++ " " ++ Parsed.api row ++ " " ++ Parsed.protocol row)
              ++ " " ++ status ++ " " ++ bytes_sent ++ " "
              ++ q (Parsed.referrer row) ++ " " ++ q (Parsed.ua_string row) ++ " "
              ++ response_time ++ tail)%string)
  /\ tokenb NonSpace 1 (Parsed.ip row) = true
  /\ tokenb NonSpace 1 (Parsed.remote_log_name row) = true
  /\ tokenb NonSpace 1 (Parsed.user_id row) = true
  /\ tokenb NonSpace 1 (Parsed.method row) = true
  /\ tokenb NonSpace 1 (Parsed.api row) = true
  /\ tokenb NonSpace 1 (Parsed.protocol row) = true
  /\ all_in not_quote (Parsed.referrer row) = true
  /\ all_in not_quote (Parsed.ua_string row) = true.
Proof.
  intros H.
  destruct (parsed_groups ua line row H)
    as (g4 & g8 & g9 & g12 & tail & Hs & Hl & _).
  cbn [shaped] in Hs. rewrite !andb_true_iff in Hs.
  repeat match goal with
         | H : _ /\ _ |- _ => destruct H
         end.
  split; [|repeat split; assumption].
  exists g4, g8, g9, g12, tail. exact Hl.
Qed.

Lemma parsed_text_fields_witness :
  parse_log_line other_agent sample_line = Ok (Some sample_row)
  /\ tokenb NonSpace 1 (Parsed.ip sample_row) = true
  /\ all_in not_quote (Parsed.ua_string sample_row) = true.
Proof.
  pose proof (parsed_text_fields other_agent sample_line sample_row eq_refl) as H.
  split; [reflexivity|]. split; [exact (proj1 (proj2 H))|].
  exact (proj2 (proj2 (proj2 (proj2 (proj2 (proj2 (proj2 (proj2 H)))))))).
Defined.

(** ** The values of a row *)

Lemma digits_value s :
  all_in Digit s = true ->
  exists d, NilEmpty.uint_of_string s = Some d
            /\ forall acc, (0 <= acc)%Z ->
                 (10 ^ Z.of_nat (String.length s) * acc <= uint_value d acc
                  < 10 ^ Z.of_nat (String.length s) * (acc + 1))%Z.
Proof.
  induction s as [|c s IH]; intros H.
  - exists Decimal.Nil. split; [reflexivity|]. intros acc Ha.
    cbn [String.length uint_value]. change (10 ^ Z.of_nat 0)%Z with 1%Z. lia.
  - cbn [all_in] in H. apply andb_true_iff in H as [Hc Hs].
    destruct (IH Hs) as (d & Ed & Hd).
    cbn [NilEmpty.uint_of_string String.length]. rewrite Ed.
    rewrite Nat2Z.inj_succ, Z.pow_succ_r by lia.
    assert (Hp : (0 < 10 ^ Z.of_nat (String.length s))%Z)
      by (apply Z.pow_pos_nonneg; lia).
    set (P := (10 ^ Z.of_nat (String.length s))%Z) in *.
    destruct c as [[|] [|] [|] [|] [|] [|] [|] [|]]; try discriminate Hc;
      (eexists; split; [reflexivity|]; intros acc Ha; cbn [uint_value];
       match goal with
       | |- (_ <= uint_value d ?a < _)%Z => specialize (Hd a ltac:(lia))
       end; nia).
Qed.

(** [int] of a run of digits is below the power of ten of its length. *)
Lemma py_int_digits_bound s :
  all_in Digit s = true -> 1 <= String.length s ->
  exists n, py_int s = Ok n /\ (0 <= n < 10 ^ Z.of_nat (String.length s))%Z.
Proof.
  intros H Hl. unfold py_int. rewrite (strip_digits _ H).
  assert (E : (match s with
               | String "-"%char body => (true, body)
               | String "+"%char body => (false, body)
               | _ => (false, s)
               end) = (false, s)).
  { destruct s as [|c s]; [reflexivity|].
    assert (Hc : Char.is_digit c = true) by (simpl in H; now apply andb_true_iff in H).
    destruct c as [[|] [|] [|] [|] [|] [|] [|] [|]]; try reflexivity; discriminate Hc. }
  rewrite E. cbn [fst snd].
  destruct (digits_value _ H) as (d & Hd & Hv).
  unfold NilZero.uint_of_string. rewrite Hd.
  destruct s as [|c s]; [simpl in Hl; lia|].
  eexists. split; [reflexivity|].
  rewrite of_uint_value. specialize (Hv 0%Z ltac:(lia)). lia.
Qed.

Lemma guard_inv b : guard b = Ok tt -> b = true.
Proof. destruct b; [reflexivity|discriminate]. Qed.

(** What [strptime] returns went through the checks of the constructors. *)
Lemma strptime_inv s t :
  strptime s = Ok t ->
  valid_datetime t = true /\ microsecond t = 0%Z
  /\ exists offset, tzinfo t = Some offset /\ valid_offset offset = true.
Proof.
  unfold strptime. destruct (re_match format_regex s) as [found|]; [|discriminate].
  destruct (guard (String.eqb (rest found) "")); [|discriminate]. cbn [bind].
  destruct (groups found) as [|g_d [|g_b [|g_Y [|g_H [|g_M [|g_S [|g_z [|? ?]]]]]]]];
    try discriminate.
  destruct (py_int g_d) as [d|]; [|discriminate]. cbn [bind].
  destruct (index_from 0 (lower g_b) a_month) as [m|]; [|discriminate]. cbn [bind].
  destruct (py_int g_Y) as [y|]; [|discriminate]. cbn [bind].
  destruct (py_int g_H) as [h|]; [|discriminate]. cbn [bind].
  destruct (py_int g_M) as [mi|]; [|discriminate]. cbn [bind].
  destruct (py_int g_S) as [sec|]; [|discriminate]. cbn [bind].
  destruct (gmtoff_of g_z) as [off|]; [|discriminate]. cbn [bind].
  destruct (guard (valid_date y m d)) as [[]|] eqn:G1; [|discriminate]. cbn [bind].
  destruct (guard (valid_time h mi sec 0)) as [[]|] eqn:G2; [|discriminate]. cbn [bind].
  destruct (guard (valid_offset _)) as [[]|] eqn:G3; [|discriminate]. cbn [bind].
  intros [= <-].
  apply guard_inv in G1, G2, G3.
  unfold valid_datetime. cbn [year month day hour minute second microsecond tzinfo].
  rewrite G1, G2. repeat split. eexists. split; [reflexivity|exact G3].
Qed.

(** X3: the values of a row are in range: the status is between 0 and
    999, the size and the response time are not negative, and the timestamp
    is a calendar date and time of day in whole seconds, with a UTC offset
    of less than a day either way. *)
Theorem parsed_values_in_range ua line row :
  parse_log_line ua line = Ok (Some row) ->
  (0 <= Parsed.status row <= 999)%Z
  /\ (0 <= Parsed.bytes_sent row)%Z
  /\ (0 <= Parsed.response_time row)%Z
  /\ valid_datetime (Parsed.datetime row) = true
  /\ microsecond (Parsed.datetime row) = 0%Z
  /\ exists offset,
       tzinfo (Parsed.datetime row) = Some offset /\ (- day_us < offset < day_us)%Z.
Proof.
  intros H.
  destruct (parsed_groups ua line row H)
    as (g4 & g8 & g9 & g12 & tail & Hs & _ & _ & Hd & H8 & H9 & H12 & _).
  cbn [shaped] in Hs. rewrite !andb_true_iff, !tokenb_spec, Nat.eqb_eq in Hs.
  repeat match goal with
         | H : _ /\ _ |- _ => destruct H
         end.
  destruct (py_int_digits_bound g8) as (n8 & E8 & B8); [assumption|lia|].
  destruct (py_int_digits_bound g9) as (n9 & E9 & B9); [assumption|lia|].
  destruct (py_int_digits_bound g12) as (n12 & E12 & B12); [assumption|lia|].
  assert (n8 = Parsed.status row) by congruence.
  assert (n9 = Parsed.bytes_sent row) by congruence.
  assert (n12 = Parsed.response_time row) by congruence.
  subst n8 n9 n12.
  match goal with
  | H : String.length g8 = 3 |- _ => rewrite H in B8
  end.
  change (10 ^ Z.of_nat 3)%Z with 1000%Z in B8.
  apply strptime_inv in Hd as (V & U & off & T & O).
  split; [lia|]. split; [lia|]. split; [lia|]. split; [exact V|]. split; [exact U|].
  exists off. split; [exact T|].
  unfold valid_offset in O. apply andb_true_iff in O as [O1 O2]. lia.
Qed.

Lemma parsed_values_in_range_witness :
  parse_log_line other_agent sample_line = Ok (Some sample_row)
  /\ (0 <= Parsed.status sample_row <= 999)%Z
  /\ valid_datetime (Parsed.datetime sample_row) = true.
Proof.
  pose proof (parsed_values_in_range other_agent sample_line sample_row eq_refl) as H.
  split; [reflexivity|]. split; [exact (proj1 H)|].
  exact (proj1 (proj2 (proj2 (proj2 H)))).
Defined.

(** * The loader *)

Lemma load_loop_data ua : forall lines data,
  load_loop ua data lines = (rows <- load_loop ua [] lines ;; Ok (data ++ rows)).
Proof.
  induction lines as [|line lines IH]; intros data; cbn [load_loop].
  - cbn [bind]. now rewrite app_nil_r.
  - destruct (parse_log_line ua (strip line)) as [[row|]|e]; cbn [bind].
    + rewrite (IH (data ++ [row])), (IH ([] ++ [row])).
      destruct (load_loop ua [] lines); cbn [bind]; [|reflexivity].
      now rewrite <- app_assoc.
    + apply IH.
    + reflexivity.
Qed.

Lemma load_loop_app ua : forall lines1 lines2 data,
  load_loop ua data (lines1 ++ lines2)
  = (rows <- load_loop ua data lines1 ;; load_loop ua rows lines2).
Proof.
  induction lines1 as [|line lines1 IH]; intros lines2 data; cbn [app load_loop].
  - reflexivity.
  - destruct (parse_log_line ua (strip line)) as [[row|]|e]; cbn [bind];
      [apply IH | apply IH | reflexivity].
Qed.

(** X4: loading two files one after the other is loading them apart and
    putting the rows of the second after those of the first; an exception
    of either is the exception of the whole. *)
Theorem load_log_data_app ua lines1 lines2 :
  load_log_data ua (lines1 ++ lines2)
  = (rows1 <- load_log_data ua lines1 ;;
     rows2 <- load_log_data ua lines2 ;;
     Ok (rows1 ++ rows2)).
Proof.
  unfold load_log_data. rewrite load_loop_app.
  destruct (load_loop ua [] lines1) as [rows1|e]; cbn [bind]; [|reflexivity].
  apply load_loop_data.
Qed.

(** X5: loading raises exactly when some line makes the parser raise, and
    then with the exception of the first such line: no row of the file is
    returned, whatever the lines before and after it hold. *)
Theorem load_raises_at_first_error ua lines e :
  load_log_data ua lines = Raise e <->
  exists before line after,
    lines = before ++ line :: after /\ quiet ua before
    /\ parse_log_line ua (strip line) = Raise e.
Proof.
  unfold load_log_data. generalize (@nil Parsed.t). revert lines.
  induction lines as [|line lines IH]; intros data; cbn [load_loop].
  - split; [discriminate|]. intros (before & l & after & H & _).
    now destruct before.
  - destruct (parse_log_line ua (strip line)) as [parsed|e'] eqn:E; cbn [bind].
    + assert (R : (match parsed with
                   | Some row => load_loop ua (data ++ [row]) lines
                   | None => load_loop ua data lines
                   end = Raise e) <->
                  exists before l after,
                    lines = before ++ l :: after /\ quiet ua before
                    /\ parse_log_line ua (strip l) = Raise e).
      { destruct parsed; apply IH. }
      rewrite R. split.
      * intros (before & l & after & -> & Hq & Hl).
        exists (line :: before), l, after. repeat split; [|assumption].
        intros x e0 [<-|Hx]; [congruence|now apply Hq].
      * intros (before & l & after & H & Hq & Hl).
        destruct before as [|b before]; cbn [app] in H; injection H as <- ->.
        -- congruence.
        -- exists before, l, after. repeat split; [|assumption].
           intros x e0 Hx. apply Hq. now right.
    + split.
      * intros [= ->]. exists [], line, lines. repeat split; [|assumption].
        intros x e0 [].
      * intros (before & l & after & H & Hq & Hl).
        destruct before as [|b before]; cbn [app] in H; injection H as <- ->.
        -- congruence.
        -- exfalso. apply (Hq line e'); [now left|assumption].
Qed.

(** ** White space around a line *)

Lemma lstrip_spaces (a s : string) : all_in Space a = true -> lstrip (a ++ s) = lstrip s.
Proof.
  induction a as [|c a IH]; cbn [append all_in lstrip in_class]; intros H.
  - reflexivity.
  - apply andb_true_iff in H as [Hc Ha]. rewrite Hc. now apply IH.
Qed.

Lemma rstrip_all_spaces (b : string) : all_in Space b = true -> rstrip b = EmptyString.
Proof.
  induction b as [|c b IH]; cbn [all_in rstrip in_class]; intros H.
  - reflexivity.
  - apply andb_true_iff in H as [Hc Hb]. now rewrite (IH Hb), Hc.
Qed.

Lemma rstrip_spaces (s b : string) : all_in Space b = true -> rstrip (s ++ b) = rstrip s.
Proof.
  intros H. induction s as [|c s IH]; cbn [append rstrip].
  - now apply rstrip_all_spaces.
  - now rewrite IH.
Qed.

Lemma strip_spaces_r (s b : string) : all_in Space b = true -> strip (s ++ b) = strip s.
Proof.
  intros H. unfold strip.
  induction s as [|c s IH]; cbn [append lstrip].
  - rewrite <- (sapp_nil_r b), lstrip_spaces by assumption. reflexivity.
  - destruct (Char.is_space c); [exact IH|].
    change (String c (s ++ b)) with (String c s ++ b)%string.
    now apply rstrip_spaces.
Qed.

Lemma strip_padding (a s b : string) :
  all_in Space a = true -> all_in Space b = true -> strip (a ++ s ++ b) = strip s.
Proof.
  intros Ha Hb. rewrite <- sapp_assoc. rewrite strip_spaces_r by assumption.
  unfold strip. now rewrite lstrip_spaces.
Qed.

Lemma load_loop_strip ua : forall lines1 lines2 data,
  map strip lines1 = map strip lines2 ->
  load_loop ua data lines1 = load_loop ua data lines2.
Proof.
  induction lines1 as [|l1 lines1 IH]; intros [|l2 lines2] data H;
    try discriminate H; [reflexivity|].
  cbn [map] in H. injection H as H1 H2. cbn [load_loop]. rewrite H1.
  destruct (parse_log_line ua (strip l2)) as [[row|]|e]; cbn [bind];
    [now apply IH | now apply IH | reflexivity].
Qed.

(** X6: white space around a line does not count: a line with white space
    put before and after it, a carriage return before the line feed for
    one, is parsed as the line itself, and the file loads the same. *)
Theorem load_ignores_padding ua before after (a line b : string) :
  all_in Space a = true -> all_in Space b = true ->
  parse_log_line ua (strip (a ++ line ++ b)) = parse_log_line ua (strip line)
  /\ load_log_data ua (before ++ (a ++ line ++ b)%string :: after)
     = load_log_data ua (before ++ line :: after).
Proof.
  intros Ha Hb. pose proof (strip_padding a line b Ha Hb) as E. split.
  - now rewrite E.
  - unfold load_log_data. apply load_loop_strip.
    rewrite !map_app. cbn [map]. now rewrite E.
Qed.

Lemma load_ignores_padding_witness :
  load_log_data other_agent
    ([] ++ ("  " ++ sample_line ++ String "013" (String "010" ""))%string :: [])
  = load_log_data other_agent ([] ++ sample_line :: []).
Proof.
  exact (proj2 (load_ignores_padding other_agent [] [] "  " sample_line
                  (String "013" (String "010" "")) eq_refl eq_refl)).
Defined.

(** * The controls and the figures of the dashboard *)

Lemma lex_Lt c1 c2 : lex c1 c2 = Lt <-> c1 = Lt \/ (c1 = Eq /\ c2 = Lt).
Proof. destruct c1; simpl; intuition congruence. Qed.

Lemma lex_Eq c1 c2 : lex c1 c2 = Eq <-> c1 = Eq /\ c2 = Eq.
Proof. destruct c1; simpl; intuition congruence. Qed.

Lemma lex_Gt c1 c2 : lex c1 c2 = Gt <-> c1 = Gt \/ (c1 = Eq /\ c2 = Gt).
Proof. destruct c1; simpl; intuition congruence. Qed.









(** ** Requests per hour *)

Ltac cmp_cases :=
  repeat match goal with
         | H : context [(?x ?= ?y)%Z] |- _ =>
             destruct (Z.compare_spec x y); cbn [lex] in *;
             try discriminate; try (exfalso; lia)
         | |- context [(?x ?= ?y)%Z] =>
             destruct (Z.compare_spec x y); cbn [lex] in *;
             try discriminate; try (exfalso; lia)
         end.

Lemma lex_opp c1 c2 : lex (CompOpp c1) (CompOpp c2) = CompOpp (lex c1 c2).
Proof. now destruct c1. Qed.

Lemma datetime_compare_refl a : datetime_compare a a = Eq.
Proof. unfold datetime_compare. now rewrite !Z.compare_refl. Qed.

Lemma datetime_compare_antisym a b :
  datetime_compare b a = CompOpp (datetime_compare a b).
Proof.
  unfold datetime_compare.
  rewrite (Z.compare_antisym (year a) (year b)), (Z.compare_antisym (month a) (month b)),
    (Z.compare_antisym (day a) (day b)), (Z.compare_antisym (hour a) (hour b)),
    (Z.compare_antisym (minute a) (minute b)), (Z.compare_antisym (second a) (second b)),
    (Z.compare_antisym (microsecond a) (microsecond b)).
  now rewrite !lex_opp.
Qed.

Lemma datetime_compare_Eq a b :
  datetime_compare a b = Eq <->
  year a = year b /\ month a = month b /\ day a = day b /\ hour a = hour b
  /\ minute a = minute b /\ second a = second b /\ microsecond a = microsecond b.
Proof.
  unfold datetime_compare. rewrite !lex_Eq, !Z.compare_eq_iff. tauto.
Qed.

Lemma datetime_compare_Eq_l a b c :
  datetime_compare a b = Eq -> datetime_compare a c = datetime_compare b c.
Proof.
  intros H. apply datetime_compare_Eq in H as (E1 & E2 & E3 & E4 & E5 & E6 & E7).
  unfold datetime_compare. now rewrite E1, E2, E3, E4, E5, E6, E7.
Qed.

Lemma datetime_compare_Eq_r a b c :
  datetime_compare a b = Eq -> datetime_compare c a = datetime_compare c b.
Proof.
  intros H. apply datetime_compare_Eq in H as (E1 & E2 & E3 & E4 & E5 & E6 & E7).
  unfold datetime_compare. now rewrite E1, E2, E3, E4, E5, E6, E7.
Qed.

Lemma datetime_compare_Lt_trans a b c :
  datetime_compare a b = Lt -> datetime_compare b c = Lt -> datetime_compare a c = Lt.
Proof.
  unfold datetime_compare. intros H1 H2. cmp_cases; reflexivity.
Qed.

Lemma tally_count_into k x : forall gs,
  tally (count_into k gs) x = tally gs x + (if same_key x k then 1 else 0).
Proof.
  unfold tally, same_key.
  induction gs as [|[k' n] gs IH]; cbn [count_into map fold_right fst snd].
  - lia.
  - destruct (datetime_compare k k') eqn:E; cbn [map fold_right fst snd].
    + rewrite (datetime_compare_Eq_l _ _ x E).
      destruct (datetime_compare k' x); lia.
    + lia.
    + rewrite IH. lia.
Qed.

Lemma count_into_keys k g : forall gs,
  In g (count_into k gs) -> fst g = k \/ exists g', In g' gs /\ fst g' = fst g.
Proof.
  induction gs as [|[k' n] gs IH]; cbn [count_into].
  - intros [<-|[]]. now left.
  - destruct (datetime_compare k k') eqn:E.
    + intros [<-|H]; right; [exists (k', n)|exists g]; simpl; auto.
    + intros [<-|H]; [now left|]. right. exists g. auto.
    + intros [<-|H]; [right; exists (k', n); simpl; auto|].
      destruct (IH H) as [E'|(g' & Hg & E')]; [now left|].
      right. exists g'. simpl. auto.
Qed.

Lemma count_into_sorted k : forall gs,
  StronglySorted key_lt gs -> StronglySorted key_lt (count_into k gs).
Proof.
  induction gs as [|[k' n] gs IH]; cbn [count_into]; intros H.
  - repeat constructor.
  - apply StronglySorted_inv in H as [Hs Hf].
    destruct (datetime_compare k k') eqn:E.
    + constructor; [assumption|]. exact Hf.
    + constructor; [now constructor|]. constructor; [exact E|].
      rewrite Forall_forall in *. intros g Hg. unfold key_lt in *. cbn [fst] in *.
      apply (datetime_compare_Lt_trans _ k'); [exact E|now apply Hf].
    + constructor; [now apply IH|].
      rewrite Forall_forall in *. intros g Hg.
      destruct (count_into_keys _ _ _ Hg) as [E'|(g' & Hg' & E')].
      * unfold key_lt. cbn [fst]. rewrite E', datetime_compare_antisym, E. reflexivity.
      * specialize (Hf g' Hg'). unfold key_lt in *. now rewrite <- E'.
Qed.

Lemma count_into_positive k : forall gs,
  Forall (fun g => 1 <= snd g) gs -> Forall (fun g => 1 <= snd g) (count_into k gs).
Proof.
  induction gs as [|[k' n] gs IH]; cbn [count_into]; intros H.
  - repeat constructor.
  - apply Forall_cons_iff in H as [H1 H2]. cbn [snd] in H1.
    destruct (datetime_compare k k'); repeat constructor; cbn [snd]; auto; lia.
Qed.

Lemma groupby_sorted keys : forall gs,
  StronglySorted key_lt gs -> Forall (fun g => 1 <= snd g) gs ->
  StronglySorted key_lt (fold_left (fun gs k => count_into k gs) keys gs)
  /\ Forall (fun g => 1 <= snd g) (fold_left (fun gs k => count_into k gs) keys gs).
Proof.
  induction keys as [|k keys IH]; intros gs Hs Hp; cbn [fold_left].
  - now split.
  - apply IH; [now apply count_into_sorted|now apply count_into_positive].
Qed.

Lemma groupby_tally x keys : forall gs,
  tally (fold_left (fun gs k => count_into k gs) keys gs) x
  = tally gs x + length (filter (same_key x) keys).
Proof.
  induction keys as [|k keys IH]; intros gs; cbn [fold_left filter].
  - simpl. lia.
  - rewrite IH, tally_count_into. destruct (same_key x k); simpl; lia.
Qed.

Lemma tally_later x : forall gs,
  Forall (fun g => datetime_compare x (fst g) = Lt) gs -> tally gs x = 0.
Proof.
  unfold tally, same_key.
  induction gs as [|g gs IH]; intros H; cbn [map fold_right]; [reflexivity|].
  apply Forall_cons_iff in H as [H1 H2]. rewrite (IH H2).
  rewrite datetime_compare_antisym, H1. reflexivity.
Qed.

Lemma tally_cons g gs x :
  tally (g :: gs) x = (if same_key x (fst g) then snd g else 0) + tally gs x.
Proof. reflexivity. Qed.

Lemma tally_sorted gs :
  StronglySorted key_lt gs -> forall k n, In (k, n) gs -> tally gs k = n.
Proof.
  induction 1 as [|g gs Hs IH Hf]; intros k n Hin; [destruct Hin|].
  rewrite tally_cons. destruct Hin as [->|Hin].
  - cbn [fst snd]. unfold same_key. rewrite datetime_compare_refl.
    rewrite tally_later; [lia|]. exact Hf.
  - rewrite Forall_forall in Hf. specialize (Hf _ Hin). unfold key_lt in Hf.
    cbn [fst] in Hf. unfold same_key. rewrite Hf. cbn [Nat.add]. now apply IH.
Qed.

Lemma tally_positive x : forall gs,
  1 <= tally gs x -> exists k n, In (k, n) gs /\ same_key x k = true.
Proof.
  unfold tally.
  induction gs as [|[k n] gs IH]; cbn [map fold_right fst snd]; intros H; [lia|].
  destruct (same_key x k) eqn:E.
  - exists k, n. split; [now left|exact E].
  - destruct (IH H) as (k' & n' & Hin & E'). exists k', n'. split; [now right|exact E'].
Qed.

(** X8: the hourly groups come in strictly ascending order of their hour,
    so no hour comes twice; the count of a group is the number of rows of its
    hour and is never zero; and every row falls in the hour of one of the
    groups. *)
Theorem hourly_requests_groups df :
  StronglySorted key_lt (hourly_requests df)
  /\ (forall k n, In (k, n) (hourly_requests df) ->
       n = length (filter (in_hour k) df) /\ 1 <= n)
  /\ (forall row, In row df ->
       exists k n, In (k, n) (hourly_requests df) /\ in_hour k row = true).
Proof.
  unfold hourly_requests, groupby_size.
  set (keys := map (fun row => floor_H (Parsed.datetime row)) df).
  assert (L : forall x, length (filter (same_key x) keys) = length (filter (in_hour x) df)).
  { intros x. unfold keys. rewrite filter_map_swap, length_map. reflexivity. }
  destruct (groupby_sorted keys [] (SSorted_nil _) (Forall_nil _)) as [I1 I2].
  assert (I3 := fun x => groupby_tally x keys []).
  split; [exact I1|]. split.
  - intros k n Hin. specialize (I3 k).
    rewrite (tally_sorted _ I1 _ _ Hin) in I3. rewrite <- L. split.
    + exact I3.
    + rewrite Forall_forall in I2. exact (I2 _ Hin).
  - intros row Hrow. set (x := floor_H (Parsed.datetime row)).
    specialize (I3 x).
    assert (P : 1 <= length (filter (in_hour x) df)).
    { assert (Hx : In row (filter (in_hour x) df)).
      { apply filter_In. split; [exact Hrow|].
        unfold in_hour, x. now rewrite datetime_compare_refl. }
      destruct (filter (in_hour x) df); [destruct Hx|simpl; lia]. }
    rewrite <- L in P.
    destruct (tally_positive x (fold_left (fun gs k => count_into k gs) keys []))
      as (k & n & Hin & E); [rewrite I3; simpl; lia|].
    exists k, n. split; [exact Hin|].
    unfold in_hour. fold x. unfold same_key in E.
    rewrite datetime_compare_antisym.
    destruct (datetime_compare k x); try discriminate E. reflexivity.
Qed.

(** ** Key metrics *)

Lemma sumZ_indicator (f : Parsed.t -> bool) df :
  sumZ (map (fun row => if f row then 1%Z else 0%Z) df)
  = Z.of_nat (length (filter f df)).
Proof.
  induction df as [|row df IH]; cbn [map sumZ fold_right filter]; [reflexivity|].
  fold (sumZ (map (fun row => if f row then 1%Z else 0%Z) df)). rewrite IH.
  destruct (f row); cbn [length]; lia.
Qed.

Lemma filter_length_le {A : Type} (f : A -> bool) l : length (filter f l) <= length l.
Proof. induction l as [|x l IH]; simpl; [lia|]. destruct (f x); simpl; lia. Qed.

Lemma filter_full_length {A : Type} (f : A -> bool) l :
  length (filter f l) = length l -> filter f l = l.
Proof.
  induction l as [|x l IH]; cbn [filter]; [reflexivity|].
  pose proof (filter_length_le f l) as Hle.
  destruct (f x); cbn [length]; intros H; [f_equal; apply IH; lia|lia].
Qed.

(** X9: over a frame with rows the success rate is the share of the rows
    with a status below 400, as a percentage: a number between 0 and 100,
    which is 100 exactly when every row is such a row. *)
Theorem success_rate_is_a_percentage df :
  df <> [] ->
  exists x,
    success_rate df = Num x
    /\ (x == inject_Z (Z.of_nat (length (successes df)))
             / inject_Z (Z.of_nat (length df)) * 100)%Q
    /\ (0 <= x)%Q /\ (x <= 100)%Q
    /\ ((x == 100)%Q <-> successes df = df).
Proof.
  intros Hne. unfold success_rate, mean.
  destruct (map (fun row => if (Parsed.status row <? 400)%Z then 1%Z else 0%Z) df)
    as [|i l] eqn:E.
  { destruct df; [congruence|discriminate E]. }
  rewrite <- E. rewrite sumZ_indicator, length_map. fold (successes df).
  cbn [fmul]. eexists. split; [reflexivity|].
  pose proof (filter_length_le (fun row => (Parsed.status row <? 400)%Z) df) as Hle.
  fold (successes df) in Hle.
  assert (Hn : 0 < length df) by (destruct df; [congruence|simpl; lia]).
  set (s := length (successes df)) in *. set (n := length df) in *.
  assert (Q1 : (0 < inject_Z (Z.of_nat n))%Q).
  { rewrite <- (Zlt_Qlt 0). lia. }
  assert (Q2 : (0 <= inject_Z (Z.of_nat s) / inject_Z (Z.of_nat n))%Q).
  { apply Qle_shift_div_l; [exact Q1|]. rewrite Qmult_0_l, <- (Zle_Qle 0). lia. }
  assert (Q3 : (inject_Z (Z.of_nat s) / inject_Z (Z.of_nat n) <= 1)%Q).
  { apply Qle_shift_div_r; [exact Q1|]. rewrite Qmult_1_l, <- Zle_Qle. lia. }
  split; [reflexivity|]. split; [|split].
  - apply Qmult_le_0_compat; [exact Q2|discriminate].
  - setoid_replace 100%Q with (1 * 100)%Q at 2 by reflexivity.
    apply Qmult_le_compat_r; [exact Q3|discriminate].
  - assert (Q0 : ~ (inject_Z (Z.of_nat n) == 0)%Q).
    { intros H0. rewrite H0 in Q1. discriminate. }
    split.
    + intros H.
      assert (H' : (inject_Z (Z.of_nat s) / inject_Z (Z.of_nat n) == 1)%Q).
      { apply (Qmult_inj_r _ _ 100); [discriminate|]. now rewrite H. }
      assert (Es : (inject_Z (Z.of_nat s) == inject_Z (Z.of_nat n))%Q).
      { rewrite <- (Qmult_div_r (inject_Z (Z.of_nat s)) (inject_Z (Z.of_nat n)) Q0).
        rewrite H'. ring. }
      apply inject_Z_injective, Nat2Z.inj in Es.
      apply filter_full_length. exact Es.
    + intros H. unfold s, n. rewrite H. field. exact Q0.
Qed.

Lemma success_rate_is_a_percentage_witness :
  exists x, success_rate [sample_row] = Num x /\ (x == 100)%Q.
Proof.
  destruct (success_rate_is_a_percentage [sample_row] ltac:(discriminate))
    as (x & E & _ & _ & _ & H).
  exists x. split; [exact E|]. apply H. reflexivity.
Defined.

Lemma sumZ_bounds lo hi xs :
  (forall x, In x xs -> lo <= x <= hi)%Z ->
  (Z.of_nat (length xs) * lo <= sumZ xs <= Z.of_nat (length xs) * hi)%Z.
Proof.
  induction xs as [|x xs IH]; intros H; [simpl; lia|].
  cbn [sumZ fold_right]. fold (sumZ xs).
  assert (Hx := H x (or_introl eq_refl)).
  assert (Hxs := IH (fun y Hy => H y (or_intror Hy))).
  cbn [length]. lia.
Qed.

(** X10: over a frame with rows the mean response time is a number that
    lies within any bounds that hold for the response time of every row. *)
Theorem mean_response_time_within df lo hi :
  df <> [] ->
  (forall row, In row df -> lo <= Parsed.response_time row <= hi)%Z ->
  exists m,
    mean_response_time df = Num m /\ (inject_Z lo <= m)%Q /\ (m <= inject_Z hi)%Q.
Proof.
  intros Hne Hb. unfold mean_response_time, mean.
  destruct (map Parsed.response_time df) as [|i l] eqn:E.
  { destruct df; [congruence|discriminate E]. }
  rewrite <- E. eexists. split; [reflexivity|].
  assert (Hs : (Z.of_nat (length (map Parsed.response_time df)) * lo
                <= sumZ (map Parsed.response_time df)
                <= Z.of_nat (length (map Parsed.response_time df)) * hi)%Z).
  { apply sumZ_bounds. intros x Hx. apply in_map_iff in Hx as (row & <- & Hrow).
    now apply Hb. }
  assert (Hn : (0 < Z.of_nat (length (map Parsed.response_time df)))%Z).
  { rewrite E. simpl. lia. }
  set (n := Z.of_nat (length (map Parsed.response_time df))) in *.
  set (s := sumZ (map Parsed.response_time df)) in *.
  assert (Q1 : (0 < inject_Z n)%Q) by (rewrite <- (Zlt_Qlt 0); exact Hn).
  split.
  - apply Qle_shift_div_l; [exact Q1|]. rewrite <- inject_Z_mult, <- Zle_Qle. lia.
  - apply Qle_shift_div_r; [exact Q1|]. rewrite <- inject_Z_mult, <- Zle_Qle. lia.
Qed.

Lemma mean_response_time_within_witness :
  exists m, mean_response_time [sample_row] = Num m
            /\ (inject_Z 0 <= m)%Q /\ (m <= inject_Z 45)%Q.
Proof.
  apply (mean_response_time_within [sample_row] 0 45); [discriminate|].
  intros row [<-|[]]. cbn [Parsed.response_time sample_row]. lia.
Defined.

(** * The draws of the generator *)

Module Choices.

Import LogGenerator.

Lemma Qltb_lt x y : Qltb x y = true <-> (x < y)%Q.
Proof.
  unfold Qltb. rewrite negb_true_iff. split.
  - intros H. apply Qnot_le_lt. intros Hle. apply Qle_bool_iff in Hle. congruence.
  - intros H. destruct (Qle_bool y x) eqn:E; [|reflexivity].
    apply Qle_bool_iff in E. exfalso. exact (Qlt_not_le _ _ H E).
Qed.

Lemma Qltb_ge x y : Qltb x y = false <-> (y <= x)%Q.
Proof.
  unfold Qltb. rewrite negb_false_iff. apply Qle_bool_iff.
Qed.

(** X11: [weighted_choice] raises ValueError on an empty table and on
    weights that do not add up to more than zero, and nothing else; whatever
    else it is given, it returns a key of the table. *)
Theorem weighted_choice_returns_a_key {K : Type} (choices_dict : list (K * Q)) u :
  match weighted_choice choices_dict u with
  | Ok k => In k (map fst choices_dict) /\ (0 < total choices_dict)%Q
  | Raise e => e = ValueError /\ (choices_dict = [] \/ (total choices_dict <= 0)%Q)
  end.
Proof.
  unfold weighted_choice. destruct choices_dict as [|first others].
  - split; [reflexivity|now left].
  - destruct (Qltb 0 (total (first :: others))) eqn:E; cbn [guard bind].
    + split; [apply RoundTrip.bisect_in|now apply Qltb_lt].
    + split; [reflexivity|]. right. now apply Qltb_ge.
Qed.





(** ** The size of a response *)

Lemma int_negative x : (int x < 0)%Z <-> (x <= -1)%Q.
Proof.
  unfold int, Qle. destruct x as [n d]. cbn [Qnum Qden].
  change (Z.pos 1) with 1%Z. rewrite Z.mul_1_r.
  change (-1 * Z.pos d)%Z with (- Z.pos d)%Z.
  destruct (Z.lt_ge_cases n 0) as [Hn|Hn].
  - rewrite <- (Z.opp_involutive n) at 1. rewrite Z.quot_opp_l by lia.
    rewrite Z.quot_div_nonneg by lia.
    destruct (Z.le_gt_cases (Z.pos d) (- n)) as [Hd|Hd].
    + pose proof (Z.div_str_pos (- n) (Z.pos d) ltac:(lia)). lia.
    + rewrite (Z.div_small (- n) (Z.pos d)) by lia. lia.
  - pose proof (Z.quot_pos n (Z.pos d) Hn ltac:(lia)). lia.
Qed.

(** The size is the integer part of the draw of the branch taken, and
    negative exactly when that draw is -1 or below. *)
Lemma generate_bytes_sent_sign d :
  generate_bytes_sent d = int (size_draw d)
  /\ ((generate_bytes_sent d < 0)%Z <-> (size_draw d <= -1)%Q).
Proof.
  assert (E : generate_bytes_sent d = int (size_draw d)).
  { unfold generate_bytes_sent, size_draw.
    destruct (Qltb (distribution_type d) 0.7); [reflexivity|].
    destruct (Qltb (distribution_type d) 0.9); reflexivity. }
  split; [exact E|]. rewrite E. apply int_negative.
Qed.

End Choices.

(** * Generated lines and the parser *)

Lemma token_nostart k (s : string) : nostart k s = true -> token k 1 s = None.
Proof.
  destruct s as [|c s]; [reflexivity|]. cbn [nostart]. intros H.
  apply negb_true_iff in H. unfold token. cbn [run]. rewrite H. reflexivity.
Qed.

Module Emitted.

Import LogGenerator.

(** The reading stops at a size that does not start with a digit. *)
Lemma scan_bad_size f tail :
  well_formed (with_bytes f "0") = true -> nostart Digit (f_bytes f) = true ->
  scan (line_of f tail) = None.
Proof.
  unfold well_formed, with_bytes.
  cbn [f_ip f_stamp f_blank f_sign f_offset f_method f_api f_protocol f_status
       f_bytes f_referrer f_agent f_response_time].
  rewrite !andb_true_iff, !tokenb_spec, !Nat.eqb_eq.
  intros H Hb.
  repeat match goal with
         | H : _ /\ _ |- _ => destruct H
         end.
  unfold line_of, datetime_str, q.
  repeat first [rewrite sapp_assoc | progress cbn [append]].
  unfold scan, pieces. cbn [scan_pieces read].
  rewrite token_intro by (assumption || reflexivity). cbn [obind fst snd app].
  rewrite expect_same. cbn [obind fst snd app].
  rewrite token_char by reflexivity. cbn [obind fst snd app].
  rewrite expect_same. cbn [obind fst snd app].
  rewrite token_char by reflexivity. cbn [obind fst snd app].
  rewrite expect_same. cbn [obind fst snd app].
  rewrite expect_same. cbn [obind fst snd app].
  rewrite stamp_intro by (assumption || (apply tokenb_spec; now split)).
  cbn [obind fst snd app].
  rewrite expect_same. cbn [obind fst snd app].
  rewrite expect_same. cbn [obind fst snd app].
  rewrite expect_same. cbn [obind fst snd app].
  rewrite token_intro by (assumption || reflexivity). cbn [obind fst snd app].
  rewrite expect_same. cbn [obind fst snd app].
  rewrite token_intro by (assumption || reflexivity). cbn [obind fst snd app].
  rewrite expect_same. cbn [obind fst snd app].
  rewrite token_until_intro by (assumption || reflexivity). cbn [obind fst snd app].
  rewrite expect_same. cbn [obind fst snd app].
  match goal with
  | H : String.length (f_status f) = 3 |- _ => rewrite <- H
  end.
  rewrite exact_intro by assumption. cbn [obind fst snd app].
  rewrite expect_same. cbn [obind fst snd app].
  rewrite token_nostart; [reflexivity|].
  destruct (f_bytes f) as [|c body]; [reflexivity|exact Hb].
Qed.

Lemma py_str_negative n : (n < 0)%Z -> exists body, py_str n = String "-" body.
Proof.
  destruct n as [|p|p]; try lia. intros _. unfold py_str. cbn [Z.to_int].
  eexists. reflexivity.
Qed.

Lemma credible_plausible d : credible d = true -> plausible (with_no_size d) = true.
Proof.
  unfold credible, plausible, with_no_size. intros H.
  cbn [fake_ipv4 fake_uri lognormal_3]. rewrite H. reflexivity.
Qed.

Lemma plausible_credible d :
  credible d = true -> (0 <= generate_bytes_sent d)%Z -> plausible d = true.
Proof.
  unfold credible, plausible. intros H Hb. rewrite H. now apply Z.leb_le.
Qed.

Lemma entry_fields_no_size timestamp d :
  entry_fields timestamp (with_no_size d) = with_bytes (entry_fields timestamp d) "0".
Proof. reflexivity. Qed.

Lemma strip_entry timestamp d :
  valid_datetime timestamp = true -> credible d = true ->
  strip (line_of (entry_fields timestamp d) newline)
  = line_of (entry_fields timestamp d) "".
Proof.
  intros Hv Hc. set (f := entry_fields timestamp d). unfold strip.
  assert (Hip : tokenb NonSpace 1 (f_ip f) = true).
  { unfold credible in Hc. rewrite !andb_true_iff in Hc.
    apply RoundTrip.generate_ip_token. tauto. }
  assert (Hrt : tokenb Digit 1 (f_response_time f) = true).
  { unfold credible in Hc. rewrite !andb_true_iff in Hc.
    apply RoundTrip.py_str_token. apply RoundTrip.int_nonneg. tauto. }
  assert (El : lstrip (line_of f newline) = line_of f newline).
  { apply tokenb_spec in Hip as [Ha Hl]. unfold line_of.
    destruct (f_ip f) as [|c ip]; [simpl in Hl; lia|].
    cbn [append lstrip]. simpl in Ha. apply andb_true_iff in Ha as [Ha _].
    apply negb_true_iff in Ha. now rewrite Ha. }
  rewrite El, RoundTrip.line_of_tail. apply RoundTrip.rstrip_newline.
  unfold line_of. rewrite sapp_nil_r.
  repeat first [rewrite sapp_assoc | progress cbn [append]].
  assert (Hne : f_response_time f <> EmptyString).
  { apply tokenb_spec in Hrt as [_ Hl]. destruct (f_response_time f);
      [simpl in Hl; lia | discriminate]. }
  repeat match goal with
         | |- ends_nonspace (?a ++ ?b) = true =>
             rewrite (RoundTrip.ends_nonspace_app a b)
               by (try (apply sapp_not_nil); discriminate || assumption
                   || (repeat (apply sapp_not_nil || discriminate || assumption)))
         | |- ends_nonspace (String ?c ?b) = true =>
             change (String c b) with (String c EmptyString ++ b)%string
         end.
  now apply RoundTrip.digits_end_nonspace.
Qed.

(** What the parser makes of a generated line, by the sign of its size. *)
Lemma entry_parse ua timestamp d :
  valid_datetime timestamp = true -> credible d = true ->
  parse_log_line ua (strip (line_of (entry_fields timestamp d) newline))
  = if (0 <=? generate_bytes_sent d)%Z
    then Ok (Some (entry_row ua timestamp d)) else Ok None.
Proof.
  intros Hv Hc. destruct (Z.leb_spec 0 (generate_bytes_sent d)) as [Hb|Hb].
  - pose proof (plausible_credible d Hc Hb) as Hp.
    destruct (RoundTrip.entry_round_trip ua timestamp d Hv Hp) as (line & E1 & _ & E2).
    rewrite RoundTrip.entry_is_line_of in E1. injection E1 as <-. exact E2.
  - rewrite (strip_entry _ _ Hv Hc), parse_via_scan.
    rewrite scan_bad_size; [reflexivity| |].
    + rewrite <- entry_fields_no_size.
      apply RoundTrip.entry_well_formed; [exact Hv|now apply credible_plausible].
    + cbn [entry_fields f_bytes].
      destruct (py_str_negative _ Hb) as (body & ->). reflexivity.
Qed.

(** X13: a generated line parses back unless its size is negative.  With
    the timestamp a calendar date and time, the fake address a token and the
    fake referrer free of double quotes, the line parses into the row of the
    values the generator drew when the draw of the size is above -1, and is
    no line for the parser, which returns None, when that draw is -1 or
    below. *)
Theorem entry_parses_unless_size_negative ua timestamp d :
  valid_datetime timestamp = true -> credible d = true ->
  exists line,
    generate_log_entry timestamp d = Ok line
    /\ ((-1 < size_draw d)%Q ->
        parse_log_line ua (strip line) = Ok (Some (entry_row ua timestamp d)))
    /\ ((size_draw d <= -1)%Q -> parse_log_line ua (strip line) = Ok None).
Proof.
  intros Hv Hc. exists (line_of (entry_fields timestamp d) newline).
  split; [apply RoundTrip.entry_is_line_of|].
  destruct (Choices.generate_bytes_sent_sign d) as [_ Hs].
  rewrite (entry_parse ua timestamp d Hv Hc).
  split; intros Hd.
  - destruct (Z.leb_spec 0 (generate_bytes_sent d)) as [Hb|Hb]; [reflexivity|].
    apply Hs in Hb. exfalso. exact (Qlt_not_le _ _ Hd Hb).
  - apply Hs in Hd.
    destruct (Z.leb_spec 0 (generate_bytes_sent d)) as [Hb|Hb]; [lia|reflexivity].
Qed.

Lemma entry_parses_unless_size_negative_witness :
  exists line,
    generate_log_entry Inputs.a_timestamp Inputs.negative_size_draws = Ok line
    /\ parse_log_line other_agent (strip line) = Ok None.
Proof.
  destruct (entry_parses_unless_size_negative other_agent Inputs.a_timestamp
              Inputs.negative_size_draws eq_refl eq_refl) as (line & E & _ & H).
  exists line. split; [exact E|]. apply H. discriminate.
Defined.

End Emitted.

(** * A run of the generator *)

Module Runs.

Import LogGenerator.

(** What a run that returns went through. *)
Lemma generate_logs_trace now num_lines output_file rng randbelow entry r :
  generate_logs now num_lines output_file rng randbelow entry = Ok r ->
  exists ts,
    (7 * day_us <= now)%Z
    /\ minutes_loop (S week_minutes) (now - 7 * day_us)%Z now rng 0 [] = Ok ts
    /\ (0 <= num_lines)%Z
    /\ write_entries (kept num_lines randbelow ts) entry 0 = Ok (written r).
Proof.
  unfold generate_logs.
  destruct (add now (- (7 * day_us))) as [start_time|] eqn:E0; [|discriminate].
  cbn [bind].
  destruct (minutes_loop (S week_minutes) start_time now rng 0 []) as [ts|] eqn:E1;
    [|discriminate].
  cbn [bind]. intros H. exists ts.
  apply GeneratorFacts.add_inv in E0 as [E0 R0].
  replace start_time with (now - 7 * day_us)%Z in * by lia.
  split; [lia|]. split; [exact E1|].
  unfold kept.
  destruct (num_lines <? Z.of_nat (length (sort ts)))%Z eqn:En.
  - unfold sample in H.
    destruct ((num_lines <? 0)%Z || (Z.of_nat (length (sort ts)) <? num_lines)%Z)%bool
      eqn:E2; [discriminate H|].
    apply orb_false_iff in E2 as [E2 _]. cbn [bind] in H. split; [lia|].
    destruct (write_entries _ entry 0) as [lines|]; [|discriminate H].
    cbn [bind] in H. injection H as <-. reflexivity.
  - cbn [bind] in H. apply Z.ltb_ge in En.
    split; [pose proof (Nat2Z.is_nonneg (length (sort ts))); lia|].
    destruct (write_entries _ entry 0) as [lines|]; [|discriminate H].
    cbn [bind] in H. injection H as <-. reflexivity.
Qed.

Lemma drawn_sum end_time rng : forall n fuel current_time i,
  (end_time - current_time = Z.of_nat n * minute_us)%Z -> n <= fuel ->
  drawn fuel current_time end_time rng i
  = list_sum (map (fun j => entries_at (current_time + Z.of_nat j * minute_us)%Z
                              (rng (i + j)))
                (seq 0 n)).
Proof.
  induction n as [|n IH]; intros fuel current_time i He Hf.
  - cbn [seq map list_sum]. destruct fuel as [|fuel]; cbn [drawn]; [reflexivity|].
    destruct (Z.ltb_spec current_time end_time); [lia|reflexivity].
  - destruct fuel as [|fuel]; [lia|]. cbn [drawn].
    unfold minute_us in He.
    destruct (Z.ltb_spec current_time end_time); [|lia].
    rewrite (IH fuel (current_time + minute_us)%Z (S i)) by (unfold minute_us; lia).
    cbn [seq map list_sum]. rewrite <- seq_shift, map_map.
    rewrite Z.mul_0_l, Z.add_0_r, Nat.add_0_r. unfold list_sum. cbn [fold_right].
    f_equal. f_equal.
    apply map_ext. intros j. f_equal; [lia|f_equal; lia].
Qed.

Lemma total_drawn_week now rng : total_drawn now rng = list_sum (week_entries now rng).
Proof.
  unfold total_drawn, week_entries.
  rewrite (drawn_sum now rng week_minutes).
  - reflexivity.
  - unfold week_minutes, minute_us, day_us. lia.
  - lia.
Qed.

Lemma kept_length num_lines randbelow ts :
  (0 <= num_lines)%Z ->
  Z.of_nat (length (kept num_lines randbelow ts)) = Z.min num_lines (Z.of_nat (length ts)).
Proof.
  intros Hn. unfold kept. rewrite GeneratorFacts.sort_length.
  destruct (Z.ltb_spec num_lines (Z.of_nat (length (sort ts)))) as [H|H];
    rewrite GeneratorFacts.sort_length in *.
  - rewrite GeneratorFacts.select_length by (rewrite GeneratorFacts.sort_length; lia).
    lia.
  - lia.
Qed.

(** X14: started no earlier than a week after the first and a minute
    before the last moment a [datetime] can hold, with draws of seconds
    between 0 and 60, a run raises ValueError when asked for a negative number
    of lines; asked for any other number it returns, and the lines it has
    written number the lesser of what was asked for and what the 10080
    minutes of the week drew. *)
Theorem generate_logs_writes_the_lesser now num_lines output_file rng randbelow entry :
  (7 * day_us <= now)%Z ->
  (now + minute_us < MAXORDINAL * day_us)%Z ->
  seconds_in_range rng ->
  Z.of_nat (length (week_entries now rng)) = 10080%Z
  /\ ((num_lines < 0)%Z ->
      generate_logs now num_lines output_file rng randbelow entry = Raise ValueError)
  /\ ((0 <= num_lines)%Z ->
      exists r,
        generate_logs now num_lines output_file rng randbelow entry = Ok r
        /\ Z.of_nat (length (written r))
           = Z.min num_lines (Z.of_nat (list_sum (week_entries now rng)))).
Proof.
  intros H7 Hmax Hs. split; [|split].
  - unfold week_entries. rewrite length_map, length_seq. reflexivity.
  - intros Hn. unfold generate_logs.
    rewrite GeneratorFacts.add_in_range
      by (unfold minute_us, day_us, MAXORDINAL in *; lia).
    cbn [bind].
    destruct (GeneratorFacts.minutes_loop_ok now rng Hs Hmax (S week_minutes)
                (now + - (7 * day_us))%Z 0 []) as (ts & ->);
      [unfold day_us in *; lia|].
    cbn [bind]. unfold sample.
    assert (E : (num_lines <? Z.of_nat (length (sort ts)))%Z = true).
    { apply Z.ltb_lt. pose proof (Nat2Z.is_nonneg (length (sort ts))). lia. }
    assert (E1 : (num_lines <? 0)%Z = true) by (apply Z.ltb_lt; lia).
    rewrite E, E1. reflexivity.
  - intros Hn.
    destruct (GeneratorFacts.generate_logs_ok now num_lines output_file rng randbelow
                entry H7 Hmax Hs Hn) as (r & Hr).
    exists r. split; [exact Hr|].
    destruct (generate_logs_trace _ _ _ _ _ _ _ Hr) as (ts & _ & E1 & _ & E2).
    destruct (GeneratorFacts.write_entries_length entry (kept num_lines randbelow ts) 0)
      as (lines & El & Ell).
    rewrite El in E2. injection E2 as <-. rewrite Ell, kept_length by exact Hn.
    apply GeneratorFacts.minutes_loop_length in E1. cbn [length Nat.add] in E1.
    fold (total_drawn now rng) in E1. now rewrite E1, total_drawn_week.
Qed.


Lemma generate_logs_writes_the_lesser_witness :
  exists r,
    generate_logs Inputs.noon 1000 "server.log" (fun _ => Inputs.typical_minute)
      (fun _ => 0) (fun _ => Inputs.usual_draws) = Ok r
    /\ Z.of_nat (length (written r))
       = Z.min 1000 (Z.of_nat (list_sum (week_entries Inputs.noon
                                           (fun _ => Inputs.typical_minute)))).
Proof.
  apply (proj2 (proj2 (generate_logs_writes_the_lesser Inputs.noon 1000 "server.log"
                         (fun _ => Inputs.typical_minute) (fun _ => 0)
                         (fun _ => Inputs.usual_draws)
                         ltac:(vm_compute; discriminate) ltac:(vm_compute; reflexivity)
                         GeneratorFacts.typical_seconds_in_range))).
  lia.
Defined.

(** ** The window of a run *)

Lemma add_entries_window lo hi current_time seconds :
  (lo <= current_time)%Z -> (current_time + minute_us <= hi)%Z ->
  (forall j, (0 <= seconds j)%Q /\ (seconds j <= 60)%Q) ->
  forall num i timestamps ts,
  add_entries current_time seconds i num timestamps = Ok ts ->
  Forall (fun t => lo <= t <= hi)%Z timestamps ->
  Forall (fun t => lo <= t <= hi)%Z ts.
Proof.
  intros Hlo Hhi Hs.
  induction num as [|num IH]; intros i timestamps ts; cbn [add_entries].
  - now intros [= <-].
  - destruct (add current_time (timedelta_seconds (seconds i))) as [t|] eqn:E;
      [|discriminate].
    cbn [bind]. intros H Hf. apply (IH _ _ _ H).
    apply Forall_app. split; [exact Hf|]. constructor; [|constructor].
    apply GeneratorFacts.add_inv in E as [-> _].
    destruct (Hs i) as [H0 H60].
    pose proof (GeneratorFacts.timedelta_seconds_bounds _ H0 H60). lia.
Qed.

Lemma minutes_loop_window lo end_time rng :
  seconds_in_range rng ->
  forall fuel current_time i timestamps ts,
  (lo <= current_time)%Z ->
  (exists k, end_time - current_time = k * minute_us)%Z ->
  minutes_loop fuel current_time end_time rng i timestamps = Ok ts ->
  Forall (fun t => lo <= t <= end_time)%Z timestamps ->
  Forall (fun t => lo <= t <= end_time)%Z ts.
Proof.
  intros Hs.
  induction fuel as [|fuel IH]; intros current_time i timestamps ts Hlo (k & Hk);
    cbn [minutes_loop].
  - now intros [= <-].
  - destruct (Z.ltb_spec current_time end_time) as [Hlt|Hge]; [|now intros [= <-]].
    destruct (add_entries current_time (random_seconds (rng i)) 0 _ timestamps)
      as [ts1|] eqn:E1; [|discriminate].
    cbn [bind].
    destruct (add current_time minute_us) as [next|] eqn:E2; [|discriminate].
    cbn [bind]. intros H Hf.
    apply GeneratorFacts.add_inv in E2 as [-> _].
    assert (Hstep : (current_time + minute_us <= end_time)%Z).
    { unfold minute_us in *. assert (1 <= k)%Z by lia. lia. }
    assert (Hlo' : (lo <= current_time + minute_us)%Z) by (unfold minute_us; lia).
    assert (Hk' : (exists k', end_time - (current_time + minute_us) = k' * minute_us)%Z).
    { exists (k - 1)%Z. unfold minute_us in *. lia. }
    apply (IH _ _ _ _ Hlo' Hk' H).
    exact (add_entries_window lo end_time _ _ Hlo Hstep (Hs i) _ _ _ _ E1 Hf).
Qed.

Lemma sort_in l x : In x (sort l) <-> In x l.
Proof.
  unfold sort. induction l as [|y l IH]; cbn [fold_right]; [reflexivity|].
  rewrite GeneratorFacts.insert_in, IH. simpl. intuition.
Qed.

Lemma remove_nth_in x : forall j l, In x (remove_nth j l) -> In x l.
Proof.
  induction j as [|j IH]; intros [|y l]; cbn [remove_nth]; intros H; auto.
  - now right.
  - destruct H as [<-|H]; [now left|right; now apply IH].
Qed.

Lemma select_in randbelow x : forall k pool, In x (select pool k randbelow) -> In x pool.
Proof.
  induction k as [|k IH]; intros pool; [destruct pool; intros []|].
  destruct pool as [|y pool]; cbn [select]; [intros []|].
  intros [<-|H].
  - apply nth_In. apply Nat.mod_upper_bound. discriminate.
  - apply IH in H. now apply remove_nth_in in H.
Qed.

Lemma kept_in num_lines randbelow ts x : In x (kept num_lines randbelow ts) -> In x ts.
Proof.
  unfold kept. rewrite sort_in.
  destruct (num_lines <? _)%Z; intros H; [apply select_in in H|];
    exact (proj1 (sort_in _ _) H).
Qed.

(** X15: the lines of a run are written in ascending order of their
    timestamps, and with draws of seconds between 0 and 60 every timestamp
    lies within the week that ends at the start of the run: none is later
    than [now]. *)
Theorem generate_logs_window now num_lines output_file rng randbelow entry r :
  seconds_in_range rng ->
  generate_logs now num_lines output_file rng randbelow entry = Ok r ->
  exists timestamps,
    write_entries timestamps entry 0 = Ok (written r)
    /\ StronglySorted Z.le timestamps
    /\ Forall (fun t => now - 7 * day_us <= t <= now)%Z timestamps.
Proof.
  intros Hs Hr.
  destruct (generate_logs_trace _ _ _ _ _ _ _ Hr) as (ts & H7 & E1 & Hn & E2).
  exists (kept num_lines randbelow ts). split; [exact E2|]. split.
  - unfold kept. apply GeneratorFacts.sort_sorted.
  - assert (Hw : Forall (fun t => now - 7 * day_us <= t <= now)%Z ts).
    { assert (Hk : (exists k, now - (now - 7 * day_us) = k * minute_us)%Z).
      { exists 10080%Z. unfold minute_us, day_us. lia. }
      apply (minutes_loop_window (now - 7 * day_us)%Z now rng Hs _ _ _ _ _
               (Z.le_refl _) Hk E1).
      constructor. }
    rewrite Forall_forall in *. intros t Ht. apply Hw. now apply kept_in in Ht.
Qed.

Lemma generate_logs_window_witness :
  exists r timestamps,
    generate_logs Inputs.noon 1000 "server.log" (fun _ => Inputs.typical_minute)
      (fun _ => 0) (fun _ => Inputs.usual_draws) = Ok r
    /\ write_entries timestamps (fun _ => Inputs.usual_draws) 0 = Ok (written r)
    /\ StronglySorted Z.le timestamps.
Proof.
  destruct (GeneratorFacts.generate_logs_ok Inputs.noon 1000 "server.log"
              (fun _ => Inputs.typical_minute) (fun _ => 0) (fun _ => Inputs.usual_draws)
              ltac:(vm_compute; discriminate) ltac:(vm_compute; reflexivity)
              GeneratorFacts.typical_seconds_in_range ltac:(lia)) as (r & Hr).
  destruct (generate_logs_window _ _ _ _ _ _ r GeneratorFacts.typical_seconds_in_range Hr)
    as (timestamps & H1 & H2 & _).
  exists r, timestamps. split; [exact Hr|]. split; [exact H1|exact H2].
Defined.

End Runs.

(** * Dates on the time line *)

Module Calendar.

Import LogGenerator.

Lemma month_day_valid n leapyear :
  (0 <= n <= 364)%Z -> month_day_ok leapyear (month_day n leapyear) = true.
Proof.
  intros Hn.
  assert (C : forallb (fun k => (month_day_ok true (month_day (Z.of_nat k) true)
                                 && month_day_ok false (month_day (Z.of_nat k) false))%bool)
                (seq 0 365) = true) by (vm_compute; reflexivity).
  rewrite forallb_forall in C.
  specialize (C (Z.to_nat n)). rewrite Z2Nat.id in C by lia.
  assert (Hin : In (Z.to_nat n) (seq 0 365)) by (apply in_seq; lia).
  apply C in Hin. apply andb_true_iff in Hin as [H1 H2].
  destruct leapyear; assumption.
Qed.

Lemma ord2ymd_eq ordinal :
  ord2ymd ordinal =
  let n := (ordinal - 1)%Z in
  let n400 := (n / 146097)%Z in
  let n := (n mod 146097)%Z in
  let n100 := (n / 36524)%Z in
  let n := (n mod 36524)%Z in
  let n4 := (n / 1461)%Z in
  let n := (n mod 1461)%Z in
  let n1 := (n / 365)%Z in
  let n := (n mod 365)%Z in
  let year := (n400 * 400 + 1 + n100 * 100 + n4 * 4 + n1)%Z in
  if ((n1 =? 4) || (n100 =? 4))%bool%Z then ((year - 1)%Z, 12%Z, 31%Z)
  else
    let leapyear := ((n1 =? 3) && (negb (n4 =? 24) || (n100 =? 3)))%bool%Z in
    (year, fst (month_day n leapyear), snd (month_day n leapyear)).
Proof.
  unfold ord2ymd, month_day. cbv zeta.
  destruct (_ || _)%bool; [reflexivity|].
  destruct (_ <? _)%Z; reflexivity.
Qed.

Lemma days_in_month_table y m :
  (1 <= m <= 12)%Z ->
  days_in_month y m
  = (DAYS_IN_MONTH m + (if ((m =? 2) && is_leap y)%bool then 1 else 0))%Z.
Proof.
  intros Hm. pattern m. apply (Z_cases _ 1 12); [|lia].
  intros k Hk. unfold days_in_month.
  do 12 (destruct k as [|k]; [cbn; destruct (is_leap y); reflexivity|]).
  exfalso; lia.
Qed.

Lemma is_leap_split n400 n100 n4 n1 :
  (0 <= n400)%Z -> (0 <= n100 <= 3)%Z -> (0 <= n4 <= 24)%Z -> (0 <= n1 <= 3)%Z ->
  is_leap (n400 * 400 + 1 + n100 * 100 + n4 * 4 + n1)
  = ((n1 =? 3) && (negb (n4 =? 24) || (n100 =? 3)))%bool%Z.
Proof.
  intros H400 H100 H4 H1. unfold is_leap.
  set (y := (n400 * 400 + 1 + n100 * 100 + n4 * 4 + n1)%Z).
  assert (E4 : (y mod 4 = (1 + n1) mod 4)%Z).
  { unfold y. replace (n400 * 400 + 1 + n100 * 100 + n4 * 4 + n1)%Z
      with (1 + n1 + (n400 * 100 + n100 * 25 + n4) * 4)%Z by lia.
    apply Z.mod_add. lia. }
  assert (E100 : (y mod 100 = (1 + n1 + n4 * 4) mod 100)%Z).
  { unfold y. replace (n400 * 400 + 1 + n100 * 100 + n4 * 4 + n1)%Z
      with (1 + n1 + n4 * 4 + (n400 * 4 + n100) * 100)%Z by lia.
    apply Z.mod_add. lia. }
  assert (E400 : (y mod 400 = (1 + n1 + n4 * 4 + n100 * 100) mod 400)%Z).
  { unfold y. replace (n400 * 400 + 1 + n100 * 100 + n4 * 4 + n1)%Z
      with (1 + n1 + n4 * 4 + n100 * 100 + n400 * 400)%Z by lia.
    apply Z.mod_add. lia. }
  rewrite E4, E100, E400.
  destruct (Z.eqb_spec n1 3) as [->|N1].
  - change ((1 + 3) mod 4)%Z with 0%Z. cbn [Z.eqb andb].
    destruct (Z.eqb_spec n4 24) as [->|N4].
    + change ((1 + 3 + 24 * 4) mod 100)%Z with 0%Z. cbn [Z.eqb negb orb].
      assert (C : (n100 = 0 \/ n100 = 1 \/ n100 = 2 \/ n100 = 3)%Z) by lia.
      destruct C as [-> | [-> | [-> | ->]]]; reflexivity.
    + rewrite (Z.mod_small (1 + 3 + n4 * 4) 100) by lia.
      replace ((1 + 3 + n4 * 4 =? 0)%Z) with false by (symmetry; apply Z.eqb_neq; lia).
      reflexivity.
  - rewrite (Z.mod_small (1 + n1) 4) by lia.
    replace ((1 + n1 =? 0)%Z) with false by (symmetry; apply Z.eqb_neq; lia).
    reflexivity.
Qed.

(** Every ordinal of the range of [date] is a calendar date. *)
Lemma ord2ymd_valid ordinal :
  (1 <= ordinal <= MAXORDINAL)%Z ->
  valid_date (fst (fst (ord2ymd ordinal))) (snd (fst (ord2ymd ordinal)))
    (snd (ord2ymd ordinal)) = true.
Proof.
  unfold MAXORDINAL. intros Ho. rewrite ord2ymd_eq. cbv zeta.
  set (n0 := (ordinal - 1)%Z).
  pose proof (Z.div_mod n0 146097 ltac:(lia)) as D400.
  pose proof (Z.mod_pos_bound n0 146097 ltac:(lia)) as B400.
  set (n400 := (n0 / 146097)%Z) in *. set (r400 := (n0 mod 146097)%Z) in *.
  pose proof (Z.div_mod r400 36524 ltac:(lia)) as D100.
  pose proof (Z.mod_pos_bound r400 36524 ltac:(lia)) as B100.
  set (n100 := (r400 / 36524)%Z) in *. set (r100 := (r400 mod 36524)%Z) in *.
  pose proof (Z.div_mod r100 1461 ltac:(lia)) as D4.
  pose proof (Z.mod_pos_bound r100 1461 ltac:(lia)) as B4.
  set (n4 := (r100 / 1461)%Z) in *. set (r4 := (r100 mod 1461)%Z) in *.
  pose proof (Z.div_mod r4 365 ltac:(lia)) as D1.
  pose proof (Z.mod_pos_bound r4 365 ltac:(lia)) as B1.
  set (n1 := (r4 / 365)%Z) in *. set (r1 := (r4 mod 365)%Z) in *.
  assert (Hn0 : (0 <= n0 <= 3652058)%Z) by (unfold n0; lia).
  clearbody n0 n400 r400 n100 r100 n4 r4 n1 r1.
  assert (R : (0 <= n400 <= 24 /\ 0 <= n100 <= 4 /\ 0 <= n4 <= 24 /\ 0 <= n1 <= 4)%Z)
    by lia.
  destruct R as (R400 & R100 & R4 & R1).
  destruct (Z.eqb_spec n1 4) as [E1|N1]; [|destruct (Z.eqb_spec n100 4) as [E100|N100]];
    cbn [orb fst snd].
  - unfold valid_date.
    rewrite (proj2 (Z.leb_le _ _)) by lia. rewrite (proj2 (Z.leb_le _ _)) by lia.
    reflexivity.
  - unfold valid_date.
    rewrite (proj2 (Z.leb_le _ _)) by lia. rewrite (proj2 (Z.leb_le _ _)) by lia.
    reflexivity.
  - rewrite <- (is_leap_split n400 n100 n4 n1) by lia.
    set (y := (n400 * 400 + 1 + n100 * 100 + n4 * 4 + n1)%Z).
    assert (Hy : (1 <= y <= 9999)%Z) by (unfold y; lia).
    pose proof (month_day_valid r1 (is_leap y) ltac:(lia)) as V.
    unfold month_day_ok in V. rewrite !andb_true_iff in V.
    destruct V as (((V1 & V2) & V3) & V4).
    unfold valid_date.
    rewrite days_in_month_table by (apply Z.leb_le in V1, V2; lia).
    rewrite V1, V2, V3, V4.
    rewrite (proj2 (Z.leb_le _ _) (proj1 Hy)), (proj2 (Z.leb_le _ _) (proj2 Hy)).
    reflexivity.
Qed.

(** Every moment of the time line is a calendar date and a time of day. *)
Lemma of_micros_valid t :
  (0 <= t < MAXORDINAL * day_us)%Z -> valid_datetime (of_micros t) = true.
Proof.
  intros Ht. unfold valid_datetime, of_micros. cbv zeta.
  cbn [year month day hour minute second microsecond].
  rewrite ord2ymd_valid.
  - cbn [andb]. unfold valid_time, day_us, hour_us, minute_us.
    set (r := (t mod (86400 * 1000000))%Z).
    assert (Hr : (0 <= r < 86400 * 1000000)%Z) by (apply Z.mod_pos_bound; lia).
    clearbody r.
    rewrite !andb_true_iff, !Z.leb_le.
    repeat split.
    + apply Z.div_pos; lia.
    + apply Z.lt_succ_r. apply Z.div_lt_upper_bound; lia.
    + apply Z.div_pos; [apply Z.mod_pos_bound; lia|lia].
    + apply Z.lt_succ_r. apply Z.div_lt_upper_bound; [lia|].
      pose proof (Z.mod_pos_bound r (3600 * 1000000) ltac:(lia)). lia.
    + apply Z.div_pos; [apply Z.mod_pos_bound; lia|lia].
    + apply Z.lt_succ_r. apply Z.div_lt_upper_bound; [lia|].
      pose proof (Z.mod_pos_bound r (60 * 1000000) ltac:(lia)). lia.
    + apply Z.mod_pos_bound; lia.
    + pose proof (Z.mod_pos_bound r 1000000 ltac:(lia)). lia.
  - unfold day_us in *. split.
    + pose proof (Z.div_pos t (86400 * 1000000) ltac:(lia) ltac:(lia)). lia.
    + assert (t / (86400 * 1000000) < MAXORDINAL)%Z
        by (apply Z.div_lt_upper_bound; lia).
      lia.
Qed.

End Calendar.

(** * From the generator to the loader *)

Module Pipeline.

Import LogGenerator.

Lemma add_entries_range current_time seconds : forall num i timestamps ts,
  add_entries current_time seconds i num timestamps = Ok ts ->
  Forall (fun t => 0 <= t < MAXORDINAL * day_us)%Z timestamps ->
  Forall (fun t => 0 <= t < MAXORDINAL * day_us)%Z ts.
Proof.
  induction num as [|num IH]; intros i timestamps ts; cbn [add_entries].
  - now intros [= <-].
  - destruct (add current_time (timedelta_seconds (seconds i))) as [t|] eqn:E;
      [|discriminate].
    cbn [bind]. intros H Hf. apply (IH _ _ _ H).
    apply Forall_app. split; [exact Hf|]. constructor; [|constructor].
    now apply GeneratorFacts.add_inv in E as [_ E].
Qed.

Lemma minutes_loop_range end_time rng : forall fuel current_time i timestamps ts,
  minutes_loop fuel current_time end_time rng i timestamps = Ok ts ->
  Forall (fun t => 0 <= t < MAXORDINAL * day_us)%Z timestamps ->
  Forall (fun t => 0 <= t < MAXORDINAL * day_us)%Z ts.
Proof.
  induction fuel as [|fuel IH]; intros current_time i timestamps ts; cbn [minutes_loop].
  - now intros [= <-].
  - destruct (current_time <? end_time)%Z; [|now intros [= <-]].
    destruct (add_entries current_time (random_seconds (rng i)) 0 _ timestamps)
      as [ts1|] eqn:E1; [|discriminate].
    cbn [bind].
    destruct (add current_time minute_us) as [next|]; [|discriminate].
    cbn [bind]. intros H Hf. apply (IH _ _ _ _ H).
    exact (add_entries_range _ _ _ _ _ _ E1 Hf).
Qed.

Lemma load_written ua entry :
  (forall i, credible (entry i) = true) ->
  forall timestamps i lines data,
  Forall (fun t => 0 <= t < MAXORDINAL * day_us)%Z timestamps ->
  write_entries timestamps entry i = Ok lines ->
  load_loop ua data lines = Ok (data ++ entry_rows ua timestamps entry i).
Proof.
  intros Hc.
  induction timestamps as [|t timestamps IH]; intros i lines data Hf;
    cbn [write_entries entry_rows].
  - intros [= <-]. cbn [load_loop]. now rewrite app_nil_r.
  - apply Forall_cons_iff in Hf as [Ht Hf].
    rewrite RoundTrip.entry_is_line_of. cbn [bind].
    destruct (write_entries timestamps entry (S i)) as [rest|] eqn:E; [|discriminate].
    cbn [bind]. intros [= <-]. cbn [load_loop].
    rewrite (Emitted.entry_parse ua _ _ (Calendar.of_micros_valid t Ht) (Hc i)).
    destruct (0 <=? generate_bytes_sent (entry i))%Z; cbn [bind app].
    + rewrite (IH (S i) rest _ Hf E). now rewrite <- app_assoc.
    + exact (IH (S i) rest _ Hf E).
Qed.

Lemma entry_rows_length ua entry :
  (forall i, (0 <= generate_bytes_sent (entry i))%Z) ->
  forall timestamps i, length (entry_rows ua timestamps entry i) = length timestamps.
Proof.
  intros Hb. induction timestamps as [|t timestamps IH]; intros i; cbn [entry_rows].
  - reflexivity.
  - rewrite (proj2 (Z.leb_le _ _) (Hb i)). cbn [app length]. now rewrite IH.
Qed.

End Pipeline.

(** * Timestamps and offsets *)

















(** * The file between the generator and the loader *)

Module Files.

Import LogGenerator.

Lemma readlines_line (body rest : string) :
  all_in no_break body = true ->
  readlines (body ++ newline ++ rest) = (body ++ newline)%string :: readlines rest.
Proof.
  induction body as [|c body IH]; cbn [append all_in]; intros H.
  - reflexivity.
  - apply andb_true_iff in H as [Hc Hb].
    cbn [readlines]. rewrite (IH Hb).
    cbn [in_class no_break mem_char] in Hc. rewrite orb_false_r in Hc.
    apply negb_true_iff, orb_false_iff in Hc as [H1 H2].
    rewrite H1, H2. reflexivity.
Qed.

Lemma readlines_entries entries :
  Forall (fun e => exists body, e = (body ++ newline)%string
                                /\ all_in no_break body = true) entries ->
  readlines (file_text entries) = entries.
Proof.
  induction 1 as [|e entries (body & -> & Hb) _ IH]; [reflexivity|].
  cbn [file_text fold_right]. fold (file_text entries).
  rewrite sapp_assoc, (readlines_line body _ Hb), IH. reflexivity.
Qed.

Lemma all_in_weaken k1 k2 :
  (forall c, in_class k1 c = true -> in_class k2 c = true) ->
  forall s, all_in k1 s = true -> all_in k2 s = true.
Proof.
  intros Hk. induction s as [|c s IH]; cbn [all_in]; [reflexivity|].
  intros H. apply andb_true_iff in H as [Hc Hs]. now rewrite (Hk c Hc), (IH Hs).
Qed.

Lemma nonspace_no_break c : in_class NonSpace c = true -> in_class no_break c = true.
Proof.
  intros H.
  assert (D : forallb (fun c => implb (in_class NonSpace c) (in_class no_break c))
                (map ascii_of_nat (seq 0 256)) = true) by (vm_compute; reflexivity).
  apply for_all_ascii with (c := c) in D. cbv beta in D. now rewrite H in D.
Qed.

Lemma digit_no_break c : in_class Digit c = true -> in_class no_break c = true.
Proof.
  intros H. apply nonspace_no_break. cbn [in_class] in *.
  now rewrite (digit_not_space _ H).
Qed.

Lemma stamp_no_break c : in_class stamp_chars c = true -> in_class no_break c = true.
Proof.
  intros H. apply nonspace_no_break. cbn [in_class].
  apply stamp_chars_not_space in H. cbn [in_class] in H. now rewrite H.
Qed.

Lemma py_str_no_break n : all_in no_break (py_str n) = true.
Proof.
  destruct (Z.lt_ge_cases n 0) as [Hn|Hn].
  - destruct n as [|p|p]; try lia. unfold py_str. cbn [Z.to_int].
    cbn [NilZero.string_of_int all_in]. apply andb_true_iff. split; [reflexivity|].
    unfold NilZero.string_of_uint.
    destruct (Pos.to_uint p) eqn:E;
      try (rewrite <- E; apply (all_in_weaken Digit); [exact digit_no_break|];
           apply RoundTrip.uint_digits).
    reflexivity.
  - apply (all_in_weaken Digit); [exact digit_no_break|].
    pose proof (RoundTrip.py_str_token n Hn) as H.
    apply tokenb_spec in H. tauto.
Qed.

Lemma q_no_break s : all_in no_break s = true -> all_in no_break (q s) = true.
Proof.
  intros H. unfold q. cbn [all_in]. rewrite all_in_app, H. reflexivity.
Qed.

(** An entry holds no line end before its last character. *)
Lemma entry_no_break timestamp d :
  valid_datetime timestamp = true -> one_line d = true ->
  all_in no_break (line_of (entry_fields timestamp d) "") = true.
Proof.
  intros Hv Hd. unfold one_line in Hd. apply andb_true_iff in Hd as [Hc Hu].
  unfold credible in Hc. rewrite !andb_true_iff in Hc. destruct Hc as [[Hip _] _].
  assert (W : forall s, tokenb NonSpace 1 s = true -> all_in no_break s = true).
  { intros s H. apply tokenb_spec in H as [H _].
    exact (all_in_weaken NonSpace no_break nonspace_no_break s H). }
  unfold line_of, datetime_str, entry_fields.
  cbn [f_ip f_stamp f_blank f_sign f_offset f_method f_api f_protocol f_status
       f_bytes f_referrer f_agent f_response_time].
  rewrite !all_in_app, !andb_true_iff.
  repeat split; try reflexivity; try apply py_str_no_break.
  - apply W. now apply RoundTrip.generate_ip_token.
  - pose proof (RoundTrip.strftime_token timestamp Hv) as H.
    apply tokenb_spec in H as [H _].
    exact (all_in_weaken stamp_chars no_break stamp_no_break _ H).
  - apply q_no_break. rewrite !all_in_app, !andb_true_iff. repeat split; try reflexivity.
    + apply (RoundTrip.pick_forall (all_in no_break) methods);
        [discriminate|reflexivity|reflexivity].
    + apply (RoundTrip.pick_forall (all_in no_break) endpoints);
        [discriminate|reflexivity|reflexivity].
  - apply q_no_break. destruct (Qltb (referrer_u d) 0.3); [exact Hu|reflexivity].
  - apply q_no_break.
    apply (RoundTrip.pick_forall (all_in no_break) user_agents);
      [discriminate|reflexivity|reflexivity].
Qed.

Lemma written_entries entry :
  (forall i, one_line (entry i) = true) ->
  forall timestamps i lines,
  Forall (fun t => 0 <= t < MAXORDINAL * day_us)%Z timestamps ->
  write_entries timestamps entry i = Ok lines ->
  Forall (fun e => exists body, e = (body ++ newline)%string
                                /\ all_in no_break body = true) lines.
Proof.
  intros Hc. induction timestamps as [|t timestamps IH]; intros i lines Hf;
    cbn [write_entries].
  - intros [= <-]. constructor.
  - apply Forall_cons_iff in Hf as [Ht Hf].
    rewrite RoundTrip.entry_is_line_of. cbn [bind].
    destruct (write_entries timestamps entry (S i)) as [rest|] eqn:E; [|discriminate].
    cbn [bind]. intros [= <-]. constructor; [|exact (IH _ _ Hf E)].
    exists (line_of (entry_fields (of_micros t) (entry i)) "").
    split; [apply RoundTrip.line_of_tail|].
    apply entry_no_break; [now apply Calendar.of_micros_valid|apply Hc].
Qed.


(** X17: the file a run writes loads without an exception.  With the fake
    addresses tokens, the fake referrers free of double quotes and of line
    ends, and the response times not negative, the file read back gives the
    lines as they were written, and the loader returns, in the order of the
    file, the rows of the values drawn for the lines whose size is not
    negative, and for those lines only; with no negative size it returns as
    many rows as the file has lines. *)
Theorem generated_file_loads ua now num_lines output_file rng randbelow entry r :
  (forall i, one_line (entry i) = true) ->
  generate_logs now num_lines output_file rng randbelow entry = Ok r ->
  exists timestamps,
    write_entries timestamps entry 0 = Ok (written r)
    /\ readlines (file_text (written r)) = written r
    /\ load_log_data ua (readlines (file_text (written r)))
       = Ok (entry_rows ua timestamps entry 0)
    /\ ((forall i, (0 <= generate_bytes_sent (entry i))%Z) ->
        length (entry_rows ua timestamps entry 0) = length (written r)).
Proof.
  intros Hc Hr.
  assert (Hc' : forall i, credible (entry i) = true).
  { intros i. specialize (Hc i). unfold one_line in Hc.
    now apply andb_true_iff in Hc as [Hc _]. }
  destruct (Runs.generate_logs_trace _ _ _ _ _ _ _ Hr) as (ts & H7 & E1 & Hn & E2).
  exists (kept num_lines randbelow ts). split; [exact E2|].
  assert (Hf : Forall (fun t => 0 <= t < MAXORDINAL * day_us)%Z
                 (kept num_lines randbelow ts)).
  { apply Pipeline.minutes_loop_range in E1; [|constructor].
    rewrite Forall_forall in *. intros t Ht. apply E1.
    now apply Runs.kept_in in Ht. }
  assert (Er : readlines (file_text (written r)) = written r).
  { apply readlines_entries. exact (written_entries entry Hc _ _ _ Hf E2). }
  split; [exact Er|]. rewrite Er. split.
  - unfold load_log_data. exact (Pipeline.load_written ua entry Hc' _ _ _ [] Hf E2).
  - intros Hb. rewrite (Pipeline.entry_rows_length ua entry Hb).
    destruct (GeneratorFacts.write_entries_length entry (kept num_lines randbelow ts) 0)
      as (lines & El & Ell).
    rewrite El in E2. injection E2 as <-. now rewrite Ell.
Qed.

Lemma generated_file_loads_witness :
  exists r timestamps,
    generate_logs Inputs.noon 1000 "server.log" (fun _ => Inputs.typical_minute)
      (fun _ => 0) (fun _ => Inputs.usual_draws) = Ok r
    /\ load_log_data other_agent (readlines (file_text (written r)))
       = Ok (entry_rows other_agent timestamps (fun _ => Inputs.usual_draws) 0).
Proof.
  destruct (GeneratorFacts.generate_logs_ok Inputs.noon 1000 "server.log"
              (fun _ => Inputs.typical_minute) (fun _ => 0) (fun _ => Inputs.usual_draws)
              ltac:(vm_compute; discriminate) ltac:(vm_compute; reflexivity)
              GeneratorFacts.typical_seconds_in_range ltac:(lia)) as (r & Hr).
  destruct (generated_file_loads other_agent Inputs.noon 1000 "server.log"
              (fun _ => Inputs.typical_minute) (fun _ => 0) (fun _ => Inputs.usual_draws)
              r (fun _ => eq_refl) Hr)
    as (timestamps & _ & _ & H & _).
  exists r, timestamps. split; [exact Hr|exact H].
Defined.

End Files.

(** * What a run keeps of its draws *)

Module Kept.

Import LogGenerator.

Lemma insert_perm x l : Permutation (insert x l) (x :: l).
Proof.
  induction l as [|y l IH]; cbn [insert]; [reflexivity|].
  destruct (x <=? y)%Z; [reflexivity|].
  rewrite IH. apply perm_swap.
Qed.

Lemma sort_perm l : Permutation (sort l) l.
Proof.
  unfold sort. induction l as [|x l IH]; cbn [fold_right]; [reflexivity|].
  rewrite insert_perm. now constructor.
Qed.

Lemma nth_remove_perm d : forall j l,
  j < length l -> Permutation (nth j l d :: remove_nth j l) l.
Proof.
  induction j as [|j IH]; intros [|y l] H; cbn [length] in H; try lia;
    cbn [nth remove_nth]; [reflexivity|].
  rewrite perm_swap. constructor. apply IH. lia.
Qed.

Lemma select_perm randbelow : forall k pool,
  exists dropped, Permutation (select pool k randbelow ++ dropped) pool.
Proof.
  induction k as [|k IH]; intros pool.
  - exists pool. destruct pool; reflexivity.
  - destruct pool as [|x pool]; [exists []; reflexivity|].
    cbn [select].
    set (j := randbelow k mod length (x :: pool)).
    destruct (IH (remove_nth j (x :: pool))) as (dropped & Hd).
    exists dropped. cbn [app]. rewrite Hd.
    apply nth_remove_perm. apply Nat.mod_upper_bound. discriminate.
Qed.

(** X18: a run writes no timestamp but those its loop drew, and none more
    often than the loop drew it: the timestamps written, together with those
    dropped, are the timestamps drawn, in another order; and none is dropped
    when no more were drawn than lines were asked for. *)
Theorem generate_logs_keeps_its_draws now num_lines output_file rng randbelow entry r :
  generate_logs now num_lines output_file rng randbelow entry = Ok r ->
  exists drawn_timestamps timestamps dropped,
    minutes_loop (S week_minutes) (now - 7 * day_us)%Z now rng 0 [] = Ok drawn_timestamps
    /\ write_entries timestamps entry 0 = Ok (written r)
    /\ Permutation (timestamps ++ dropped) drawn_timestamps
    /\ ((Z.of_nat (length drawn_timestamps) <= num_lines)%Z -> dropped = []).
Proof.
  intros Hr.
  destruct (Runs.generate_logs_trace _ _ _ _ _ _ _ Hr) as (ts & H7 & E1 & Hn & E2).
  exists ts, (kept num_lines randbelow ts).
  unfold kept in *. rewrite GeneratorFacts.sort_length in *.
  destruct (Z.ltb_spec num_lines (Z.of_nat (length ts))) as [Hlt|Hge].
  - destruct (select_perm randbelow (Z.to_nat num_lines) (sort ts)) as (dropped & Hd).
    exists dropped. split; [exact E1|]. split; [exact E2|]. split; [|lia].
    now rewrite sort_perm, Hd, sort_perm.
  - exists []. split; [exact E1|]. split; [exact E2|]. split; [|reflexivity].
    now rewrite app_nil_r, !sort_perm.
Qed.

Lemma generate_logs_keeps_its_draws_witness :
  exists r drawn_timestamps timestamps dropped,
    generate_logs Inputs.noon 1000 "server.log" (fun _ => Inputs.typical_minute)
      (fun _ => 0) (fun _ => Inputs.usual_draws) = Ok r
    /\ write_entries timestamps (fun _ => Inputs.usual_draws) 0 = Ok (written r)
    /\ Permutation (timestamps ++ dropped) drawn_timestamps.
Proof.
  destruct (GeneratorFacts.generate_logs_ok Inputs.noon 1000 "server.log"
              (fun _ => Inputs.typical_minute) (fun _ => 0) (fun _ => Inputs.usual_draws)
              ltac:(vm_compute; discriminate) ltac:(vm_compute; reflexivity)
              GeneratorFacts.typical_seconds_in_range ltac:(lia)) as (r & Hr).
  destruct (generate_logs_keeps_its_draws Inputs.noon 1000 "server.log"
              (fun _ => Inputs.typical_minute) (fun _ => 0) (fun _ => Inputs.usual_draws)
              r Hr) as (drawn_timestamps & timestamps & dropped & _ & H1 & H2 & _).
  exists r, drawn_timestamps, timestamps, dropped.
  split; [exact Hr|]. split; [exact H1|exact H2].
Defined.

End Kept.
